(** * Verification of the message overlay of stream-chat-react-native

    The development embeds three pieces of the repository:

    - [Overlay]: the animated state of [MessageOverlayWithContext]
      (src/components/MessageOverlay/MessageOverlay.tsx): the shared values,
      [fadeScreen], the effect on [visible], the pan handlers [onStart],
      [onActive] and [onFinish], the tap handler, and a small model of the
      animation engine that drives them;
    - [Memo] and [Bubble]: the comparison [areEqual] handed to [React.memo] and
      the background colour of the bubble;
    - [ChannelFiles]: the effect and the render function of
      [ChannelFilesScreen];
    - [OverlayLife], [OverlayStyle], [OverlayContent] and [ChannelGroups]:
      counts over the runs of the overlay, the styles it derives at render
      time (corner radii, border, show transform, layout), the children and
      the reactions panel of the bubble, and the groups of the files screen
      said directly;
    - [Live]: the overlay as the two libraries around it run it: the
      animation engine calls the callback of an animation that is replaced or
      cancelled, and [React.memo] keeps the last rendered [enabled] of the pan
      handler while only the overlay kind changes.

    JavaScript numbers are modelled as rationals ([Q]): the arithmetic of the
    handlers is exact there, rounding and NaN are left out. *)

From Stdlib Require Import QArith Qabs Lqa Lia List String Bool Arith.
From Stdlib Require Import DecimalNat DecimalString.
Import ListNotations.

Local Open Scope Q_scope.

(** Strict comparison [x > y] of two numbers, as a boolean. *)
Definition Qgtb (x y : Q) : bool := negb (Qle_bool x y).

Module Overlay.

(** ** Data *)

(** The overlay kinds of the overlay context. *)
Inductive OverlayKind := none | message | gallery | alert.

Definition OverlayKind_eqb (a b : OverlayKind) : bool :=
  match a, b with
  | none, none | message, message | gallery, gallery | alert, alert => true
  | _, _ => false
  end.

(** A call handed to the JS thread with [runOnJS], or made on it directly. *)
Inductive JsCall :=
| setOverlay (k : OverlayKind)
| reset.

(** The two completion callbacks of the file, as closures over what they
    capture: the one of [onFinish] captures nothing, the one of [fadeScreen]
    captures its argument [show]. *)
Inductive Callback :=
| dismissCallback
| hideCallback (show : bool).

(** What a callback does when the engine calls it on the UI thread: the body
    of the arrow function, every call in it going through [runOnJS]. *)
Definition runCallback (cb : Callback) : list JsCall :=
  match cb with
  | dismissCallback => [setOverlay none]
  | hideCallback show => if negb show then [reset] else []
  end.

Inductive EasingFn :=
| easeOut (* Easing.out(Easing.ease) *).

Record TimingConfig := { duration : Q; easing : EasingFn }.

Record SpringConfig := {
  damping : Q;
  mass : Q;
  restDisplacementThreshold : Q;
  restSpeedThreshold : Q;
  stiffness : Q;
  velocity : Q
}.

Record DecayConfig := { decayVelocity : Q }.

(** The animation objects the file builds. [withTiming] called without a
    configuration (as in [withTiming(0)]) carries [None] and runs on the
    library's defaults. *)
Inductive Animation :=
| withTiming (toValue : Q) (userConfig : option TimingConfig)
             (callback : option Callback)
| withSpring (toValue : Q) (userConfig : SpringConfig)
| withDecay (userConfig : DecayConfig).

(** A shared value: its current number and the animation that owns it, with
    the time (ms) that animation has been running. *)
Record SharedValue := {
  value : Q;
  animation : option (Animation * Q)
}.

Definition useSharedValue (init : Q) : SharedValue :=
  {| value := init; animation := None |}.

(** [sv.value = x] with a number: the number is stored and whatever
    animation owned the cell is taken off it. This is what happens to the
    cell; what the engine does with the callback of the animation taken off
    is the business of [Live.writing]. *)
Definition assign (x : Q) (sv : SharedValue) : SharedValue :=
  {| value := x; animation := None |}.

(** [sv.value = withTiming(...)] and the like: the animation takes the cell
    over from its current value, replacing any previous one (for the callback
    of the one replaced see [Live.writing]). *)
Definition animate (a : Animation) (sv : SharedValue) : SharedValue :=
  {| value := value sv; animation := Some (a, 0) |}.

Definition cancelAnimation (sv : SharedValue) : SharedValue :=
  {| value := value sv; animation := None |}.

(** [vh(100)] and [vh(50)] of utils, which is not part of the sources at
    hand: the viewport is a parameter. *)
Record Viewport := { screenHeight : Q; halfScreenHeight : Q }.

Record GestureEvent := { translationY : Q; velocityY : Q }.

(** The state of one mounted overlay: the shared values the claims touch,
    the props [visible] and [overlay], and the JS side (pending [runOnJS]
    calls, the calls of [reset] and [Keyboard.dismiss] made so far). *)
Record State := {
  offsetY : SharedValue;
  translateY : SharedValue;
  scale : SharedValue;
  showScreen : SharedValue;
  overlayOpacity : SharedValue;
  visible : option bool;
  overlay : OverlayKind;
  jsQueue : list JsCall;
  resetCalls : nat;
  keyboardDismissals : nat
}.

Definition set_offsetY (f : SharedValue -> SharedValue) (s : State) : State :=
  {| offsetY := f (offsetY s); translateY := translateY s; scale := scale s;
     showScreen := showScreen s; overlayOpacity := overlayOpacity s;
     visible := visible s; overlay := overlay s; jsQueue := jsQueue s;
     resetCalls := resetCalls s; keyboardDismissals := keyboardDismissals s |}.

Definition set_translateY (f : SharedValue -> SharedValue) (s : State) : State :=
  {| offsetY := offsetY s; translateY := f (translateY s); scale := scale s;
     showScreen := showScreen s; overlayOpacity := overlayOpacity s;
     visible := visible s; overlay := overlay s; jsQueue := jsQueue s;
     resetCalls := resetCalls s; keyboardDismissals := keyboardDismissals s |}.

Definition set_scale (f : SharedValue -> SharedValue) (s : State) : State :=
  {| offsetY := offsetY s; translateY := translateY s; scale := f (scale s);
     showScreen := showScreen s; overlayOpacity := overlayOpacity s;
     visible := visible s; overlay := overlay s; jsQueue := jsQueue s;
     resetCalls := resetCalls s; keyboardDismissals := keyboardDismissals s |}.

Definition set_showScreen (f : SharedValue -> SharedValue) (s : State) : State :=
  {| offsetY := offsetY s; translateY := translateY s; scale := scale s;
     showScreen := f (showScreen s); overlayOpacity := overlayOpacity s;
     visible := visible s; overlay := overlay s; jsQueue := jsQueue s;
     resetCalls := resetCalls s; keyboardDismissals := keyboardDismissals s |}.

Definition set_overlayOpacity (f : SharedValue -> SharedValue) (s : State) : State :=
  {| offsetY := offsetY s; translateY := translateY s; scale := scale s;
     showScreen := showScreen s; overlayOpacity := f (overlayOpacity s);
     visible := visible s; overlay := overlay s; jsQueue := jsQueue s;
     resetCalls := resetCalls s; keyboardDismissals := keyboardDismissals s |}.

(** ** The code of the component *)

(** [fadeScreen]. *)
Definition springToVisible : SpringConfig :=
  {| damping := 600; mass := 1 # 2;
     restDisplacementThreshold := 1 # 100; restSpeedThreshold := 1 # 100;
     stiffness := 200; velocity := 32 |}.

Definition fadeScreen (show : bool) (s : State) : State :=
  let s :=
    if show
    then set_scale (assign 1)
           (set_translateY (assign 0) (set_offsetY (assign 0) s))
    else s in
  set_showScreen
    (animate
       (if show
        then withSpring 1 springToVisible
        else withTiming 0 (Some {| duration := 150; easing := easeOut |})
                        (Some (hideCallback show))))
    s.

(** Truthiness of the optional boolean prop: [!!visible]. *)
Definition truthy (v : option bool) : bool :=
  match v with Some true => true | _ => false end.

(** The body of the effect on [visible]. *)
Definition visibleEffect (s : State) : State :=
  let s :=
    if truthy (visible s)
    then {| offsetY := offsetY s; translateY := translateY s; scale := scale s;
            showScreen := showScreen s; overlayOpacity := overlayOpacity s;
            visible := visible s; overlay := overlay s; jsQueue := jsQueue s;
            resetCalls := resetCalls s;
            keyboardDismissals := S (keyboardDismissals s) |}
    else s in
  fadeScreen (truthy (visible s)) s.

(** Two-point [interpolate] with [Extrapolate.CLAMP]: linear between the
    ends of the input range, the end values outside it. *)
Definition interpolateClamp (x : Q) (l r : Q) (ll rr : Q) : Q :=
  if Qle_bool x l then ll
  else if Qle_bool r x then rr
  else ll + ((x - l) / (r - l)) * (rr - ll).

Section Handlers.

Variable vp : Viewport.

(** [onPan.onStart]. *)
Definition onStart (s : State) : State :=
  let s := set_translateY cancelAnimation s in
  set_offsetY (assign (value (translateY s))) s.

(** [onPan.onActive]. *)
Definition onActive (evt : GestureEvent) (s : State) : State :=
  let s := set_translateY (assign (value (offsetY s) + translationY evt)) s in
  let s :=
    set_overlayOpacity
      (assign (interpolateClamp (value (translateY s))
                 0 (halfScreenHeight vp) 1 (75 # 100))) s in
  set_scale
    (assign (interpolateClamp (value (translateY s))
               0 (halfScreenHeight vp) 1 (85 # 100))) s.

Definition finalYPosition (evt : GestureEvent) : Q :=
  translationY evt + velocityY evt * (1 # 10).

(** The test of [onFinish]: the release commits to dismiss. *)
Definition commitsToDismiss (evt : GestureEvent) (s : State) : bool :=
  Qgtb (finalYPosition evt) (halfScreenHeight vp)
  && Qgtb (value (translateY s)) 0.

Definition dismissTiming : TimingConfig :=
  {| duration := 200; easing := easeOut |}.

(** [onPan.onFinish]. *)
Definition onFinish (evt : GestureEvent) (s : State) : State :=
  if commitsToDismiss evt s then
    let s := set_translateY cancelAnimation s in
    let s :=
      set_overlayOpacity
        (animate (withTiming 0 (Some dismissTiming) (Some dismissCallback))) s in
    set_translateY
      (animate
         (if Qgtb (velocityY evt) 1000
          then withDecay {| decayVelocity := velocityY evt |}
          else withTiming (screenHeight vp) (Some dismissTiming) None))
      s
  else
    let s := set_translateY (animate (withTiming 0 None None)) s in
    let s := set_scale (animate (withTiming 1 None None)) s in
    set_overlayOpacity (animate (withTiming 1 None None)) s.

(** ** The events that drive the component

    The animation library is not part of the repository; the engine below
    is the model of it that the statements about runs rest on:
    - an assignment to a shared value, or [cancelAnimation], takes the
      animation that owned the cell off it. [step] follows the cells only: it
      is exact for the runs in which no animation that carries a callback is
      replaced or cancelled. The callback of such an animation is not lost in
      the library, which calls it on the next frame; [Live.stepLive] adds
      that, and the statements about runs that replace or cancel such an
      animation are made there;
    - a timing animation ends on the first frame at which it has run for its
      duration, the cell then holds the target value and the callback runs;
    - a spring or a decay has no fixed duration and ends when the engine
      finds it at rest;
    - a call wrapped in [runOnJS] is queued and run later, in order, on the
      JS thread;
    - the value a cell shows between the start and the end of an animation
      is not tracked: a cell in flight keeps the number it had when the
      animation started, and no statement reads such a number. *)

Inductive Cell :=
| cOffsetY | cTranslateY | cScale | cShowScreen | cOverlayOpacity.

(** What can happen to a mounted overlay. [Frame dt] is a frame of the
    animation engine, [dt] ms after the previous one; [Settle c] is the engine
    finding the spring or decay on [c] at rest; [RunJS] is the JS thread
    running the oldest call handed over with [runOnJS]; [OverlayChanged] is the
    overlay context being set from elsewhere in the application. *)
Inductive Event :=
| PanStart
| PanActive (evt : GestureEvent)
| PanFinish (evt : GestureEvent)
| Tap
| VisibleChanged (v : option bool)
| OverlayChanged (k : OverlayKind)
| Frame (dt : Q)
| Settle (c : Cell)
| RunJS.

(** Duration of [withTiming] when no configuration is given. *)
Definition defaultTimingDuration : Q := 300.

Definition timingDuration (cfg : option TimingConfig) : Q :=
  match cfg with
  | Some c => duration c
  | None => defaultTimingDuration
  end.

(** One frame on one cell. A timing animation ends on the first frame at
    which its running time has reached its duration: the cell takes the
    target value and the callback runs. Springs and decays only grow older;
    they end by [Settle]. The value of a cell in flight is not tracked. *)
Definition advance (dt : Q) (sv : SharedValue) : SharedValue * list JsCall :=
  match animation sv with
  | None => (sv, [])
  | Some (withTiming toValue cfg cb, t) =>
      if Qle_bool (timingDuration cfg) (t + dt)
      then ({| value := toValue; animation := None |},
            match cb with Some c => runCallback c | None => [] end)
      else ({| value := value sv;
               animation := Some (withTiming toValue cfg cb, t + dt) |}, [])
  | Some (a, t) => ({| value := value sv; animation := Some (a, t + dt) |}, [])
  end.

Definition frame (dt : Q) (s : State) : State :=
  let '(o, c1) := advance dt (offsetY s) in
  let '(t, c2) := advance dt (translateY s) in
  let '(sc, c3) := advance dt (scale s) in
  let '(sh, c4) := advance dt (showScreen s) in
  let '(op, c5) := advance dt (overlayOpacity s) in
  {| offsetY := o; translateY := t; scale := sc; showScreen := sh;
     overlayOpacity := op; visible := visible s; overlay := overlay s;
     jsQueue := jsQueue s ++ c1 ++ c2 ++ c3 ++ c4 ++ c5;
     resetCalls := resetCalls s; keyboardDismissals := keyboardDismissals s |}.

(** A spring at rest sits on its target; a decay at rest stays where it is. *)
Definition settle (sv : SharedValue) : SharedValue :=
  match animation sv with
  | Some (withSpring toValue _, _) => {| value := toValue; animation := None |}
  | Some (withDecay _, _) => {| value := value sv; animation := None |}
  | _ => sv
  end.

Definition settleCell (c : Cell) (s : State) : State :=
  match c with
  | cOffsetY => set_offsetY settle s
  | cTranslateY => set_translateY settle s
  | cScale => set_scale settle s
  | cShowScreen => set_showScreen settle s
  | cOverlayOpacity => set_overlayOpacity settle s
  end.

Definition set_overlay (k : OverlayKind) (s : State) : State :=
  {| offsetY := offsetY s; translateY := translateY s; scale := scale s;
     showScreen := showScreen s; overlayOpacity := overlayOpacity s;
     visible := visible s; overlay := k; jsQueue := jsQueue s;
     resetCalls := resetCalls s; keyboardDismissals := keyboardDismissals s |}.

(** A call running on the JS thread. [setOverlay] is the setter of the
    overlay context; of [reset] only the calls are counted. *)
Definition runJs (c : JsCall) (s : State) : State :=
  match c with
  | setOverlay k => set_overlay k s
  | reset =>
      {| offsetY := offsetY s; translateY := translateY s; scale := scale s;
         showScreen := showScreen s; overlayOpacity := overlayOpacity s;
         visible := visible s; overlay := overlay s; jsQueue := jsQueue s;
         resetCalls := S (resetCalls s);
         keyboardDismissals := keyboardDismissals s |}
  end.

Definition runNextJs (s : State) : State :=
  match jsQueue s with
  | [] => s
  | c :: q =>
      runJs c
        {| offsetY := offsetY s; translateY := translateY s; scale := scale s;
           showScreen := showScreen s; overlayOpacity := overlayOpacity s;
           visible := visible s; overlay := overlay s; jsQueue := q;
           resetCalls := resetCalls s;
           keyboardDismissals := keyboardDismissals s |}
  end.

Definition optionBool_eqb (a b : option bool) : bool :=
  match a, b with
  | None, None => true
  | Some x, Some y => Bool.eqb x y
  | _, _ => false
  end.

(** A change of the prop [visible]: the effect runs when the dependency
    differs from the one of the previous render. *)
Definition visibleChanged (v : option bool) (s : State) : State :=
  if optionBool_eqb v (visible s) then s
  else
    visibleEffect
      {| offsetY := offsetY s; translateY := translateY s; scale := scale s;
         showScreen := showScreen s; overlayOpacity := overlayOpacity s;
         visible := v; overlay := overlay s; jsQueue := jsQueue s;
         resetCalls := resetCalls s;
         keyboardDismissals := keyboardDismissals s |}.

(** The root view takes touches only while [visible] is truthy
    ([pointerEvents]), the pan handler only while the overlay kind is
    [message] ([enabled]). [panEnabled] reads the kind of the moment, which is
    the rendered one as long as every change of the kind comes with a render;
    [Live.enabledAsRendered] reads the kind of the last render. *)
Definition touchable (s : State) : bool := truthy (visible s).

Definition panEnabled (s : State) : bool :=
  touchable s && OverlayKind_eqb (overlay s) message.

(** The tap handler at [State.END]: [setOverlay('none')], on the JS thread. *)
Definition onTapEnd (s : State) : State := runJs (setOverlay none) s.

Definition step (ev : Event) (s : State) : State :=
  match ev with
  | PanStart => if panEnabled s then onStart s else s
  | PanActive evt => if panEnabled s then onActive evt s else s
  | PanFinish evt => if panEnabled s then onFinish evt s else s
  | Tap => if touchable s then onTapEnd s else s
  | VisibleChanged v => visibleChanged v s
  | OverlayChanged k => set_overlay k s
  | Frame dt => frame dt s
  | Settle c => settleCell c s
  | RunJS => runNextJs s
  end.

Definition run (evs : list Event) (s : State) : State :=
  fold_left (fun s ev => step ev s) evs s.

End Handlers.

(** The component at mount: fresh shared values, the effect run once.
    [overlayOpacity] is a prop, a shared value owned by the parent. *)
Definition mount (v : option bool) (k : OverlayKind) (opacity : SharedValue)
  : State :=
  visibleEffect
    {| offsetY := useSharedValue 0; translateY := useSharedValue 0;
       scale := useSharedValue 1; showScreen := useSharedValue 0;
       overlayOpacity := opacity; visible := v; overlay := k;
       jsQueue := []; resetCalls := 0%nat; keyboardDismissals := 0%nat |}.

(** The callback a cell would run at the end of its animation. *)
Definition callbackOf (sv : SharedValue) : option Callback :=
  match animation sv with
  | Some (withTiming _ _ cb, _) => cb
  | _ => None
  end.

Definition isNoneCb (c : option Callback) : bool :=
  match c with None => true | Some _ => false end.

Definition isDismissCb (c : option Callback) : bool :=
  match c with None | Some dismissCallback => true | _ => false end.

Definition isHideCb (c : option Callback) : bool :=
  match c with None | Some (hideCallback false) => true | _ => false end.

(** The callbacks sit where the file puts them: the dismissal callback on
    [overlayOpacity] only, the hide callback on [showScreen] only, and no hide
    is pending while [visible] is truthy. *)
Definition wellFormed (s : State) : bool :=
  isNoneCb (callbackOf (offsetY s))
  && isNoneCb (callbackOf (translateY s))
  && isNoneCb (callbackOf (scale s))
  && isHideCb (callbackOf (showScreen s))
  && isDismissCb (callbackOf (overlayOpacity s))
  && (negb (truthy (visible s)) || isNoneCb (callbackOf (showScreen s))).

Definition isSetOverlay (c : JsCall) : bool :=
  match c with setOverlay _ => true | reset => false end.

Definition isReset (c : JsCall) : bool :=
  match c with reset => true | setOverlay _ => false end.

(** Calls of [reset] waiting on the JS thread, and the one the hide
    animation in flight still owes. *)
Definition pendingResets (s : State) : nat :=
  List.length (filter isReset (jsQueue s)).

Definition owedResets (s : State) : nat :=
  match callbackOf (showScreen s) with
  | Some cb => List.length (filter isReset (runCallback cb))
  | None => 0%nat
  end.

Definition isVisibleChanged (ev : Event) : bool :=
  match ev with VisibleChanged _ => true | _ => false end.

Definition setsOverlayDirectly (ev : Event) : bool :=
  match ev with Tap | OverlayChanged _ => true | _ => false end.

Definition isGesture (ev : Event) : bool :=
  match ev with PanStart | PanActive _ | PanFinish _ => true | _ => false end.

(** The three cells run the default timing animations of a snap-back. *)
Definition snapsBack (s : State) : Prop :=
  animation (translateY s) = Some (withTiming 0 None None, 0)
  /\ animation (scale s) = Some (withTiming 1 None None, 0)
  /\ animation (overlayOpacity s) = Some (withTiming 1 None None, 0).

Definition noSetOverlayPending (s : State) : Prop :=
  forall c, In c (jsQueue s) -> isSetOverlay c = false.

(** Calls of [reset] made, waiting, or owed by the hide in flight. *)
Definition resetBudget (s : State) : nat :=
  (resetCalls s + pendingResets s + owedResets s)%nat.

(** Example states. *)

(** A phone-sized viewport for the examples. *)
Definition vp0 : Viewport := {| screenHeight := 800; halfScreenHeight := 400 |}.

(** The overlay shown and at rest: mounted visible, the show spring settled. *)
Definition atRest : State :=
  run vp0 [Settle cShowScreen] (mount (Some true) message (useSharedValue 1)).

(** The bubble dragged down by [y]. *)
Definition dragged (y : Q) : State :=
  run vp0 [PanStart; PanActive {| translationY := y; velocityY := 0 |}] atRest.

End Overlay.

(** * The props of the overlay: [areEqual] and the bubble's fill *)

Module OverlayProps.

Inductive Alignment := left | right.

Definition Alignment_eqb (a b : Alignment) : bool :=
  match a, b with
  | left, left | right, right => true
  | _, _ => false
  end.

Record ReactionResponse := {
  type : string;
  user_id : option string
}.

Record QuotedMessage := { quoted_id : string; quoted_text : option string }.

Record Message := {
  id : string;
  text : option string;
  latest_reactions : option (list ReactionResponse);
  quoted_message : option QuotedMessage;
  reply_count : option nat
}.

Record Attachment := {
  attachment_type : option string;
  attachment_title : option string
}.

(** The props [areEqual] and the bubble look at, with some of those they
    do not. Optional props are options: [None] is [undefined]. *)
Record Props := {
  alignment : option Alignment;
  message : option Message;
  messageReactionTitle : option string;
  visible : option bool;
  onlyEmojis : option bool;
  otherAttachments : option (list Attachment);
  threadList : option bool
}.

(** [a === b] on two optional primitives. *)
Definition strictEq {A : Type} (eqb : A -> A -> bool) (a b : option A) : bool :=
  match a, b with
  | None, None => true
  | Some x, Some y => eqb x y
  | _, _ => false
  end.

(** [Array.prototype.every], the callback taking the element and its index. *)
Fixpoint everyFrom {A : Type} (f : A -> nat -> bool) (index : nat) (l : list A)
  : bool :=
  match l with
  | [] => true
  | x :: l => f x index && everyFrom f (S index) l
  end.

Definition every {A : Type} (f : A -> nat -> bool) (l : list A) : bool :=
  everyFrom f 0 l.

(** [message?.latest_reactions]. *)
Definition latestReactionsOf (m : option Message)
  : option (list ReactionResponse) :=
  match m with
  | Some m => latest_reactions m
  | None => None
  end.

(** [areEqual]. Where both lists are arrays the lengths are compared first,
    so that the indexed read of the next list in the callback of [every] is
    always in range; out of range it would raise, here it compares unequal. *)
Definition areEqual (prevProps nextProps : Props) : bool :=
  let prevAlignment := alignment prevProps in
  let prevMessage := message prevProps in
  let prevMessageReactionTitle := messageReactionTitle prevProps in
  let prevVisible := visible prevProps in
  let nextAlignment := alignment nextProps in
  let nextMessage := message nextProps in
  let nextMessageReactionTitle := messageReactionTitle nextProps in
  let nextVisible := visible nextProps in
  let visibleEqual := strictEq Bool.eqb prevVisible nextVisible in
  if negb visibleEqual then false else
  let alignmentEqual := strictEq Alignment_eqb prevAlignment nextAlignment in
  if negb alignmentEqual then false else
  let messageReactionTitleEqual :=
    strictEq String.eqb prevMessageReactionTitle nextMessageReactionTitle in
  if negb messageReactionTitleEqual then false else
  let latestReactionsEqual :=
    match latestReactionsOf prevMessage, latestReactionsOf nextMessage with
    | Some prevReactions, Some nextReactions =>
        Nat.eqb (List.length prevReactions) (List.length nextReactions)
        && every
             (fun reaction index =>
                match nth_error nextReactions index with
                | Some nextReaction =>
                    String.eqb (type reaction) (type nextReaction)
                | None => false
                end)
             prevReactions
    | None, None => true
    | _, _ => false
    end in
  if negb latestReactionsEqual then false else
  true.

(** The ordered kinds of the latest reactions of a prop set, when it has a
    reaction list at all. *)
Definition reactionKinds (p : Props) : option (list string) :=
  option_map (map type) (latestReactionsOf (message p)).

(** The colours of the theme the bubble chooses from. *)
Inductive Color :=
| transparent | blue_alice | white_smoke | grey_gainsboro | grey_whisper.

Definition truthyBool (b : option bool) : bool :=
  match b with Some true => true | _ => false end.

Definition isSome {A : Type} (o : option A) : bool :=
  match o with Some _ => true | None => false end.

(** [otherAttachments?.length], as a condition. *)
Definition hasOtherAttachments (o : option (list Attachment)) : bool :=
  match o with
  | Some (_ :: _) => true
  | _ => false
  end.

(** [otherAttachments[0].type === 'giphy']. *)
Definition firstIsGiphy (o : option (list Attachment)) : bool :=
  match o with
  | Some (a :: _) =>
      match attachment_type a with
      | Some t => String.eqb t "giphy"%string
      | None => false
      end
  | _ => false
  end.

(** The [backgroundColor] of the inner container, rendered only where
    [message] is defined. *)
Definition backgroundColor (p : Props) (m : Message) : Color :=
  if truthyBool (onlyEmojis p) && negb (isSome (quoted_message m))
  then transparent
  else if hasOtherAttachments (otherAttachments p)
  then if firstIsGiphy (otherAttachments p) then transparent else blue_alice
  else match alignment p with
       | Some left => white_smoke
       | _ => grey_gainsboro
       end.

(** The content classes of the bubble's fill: an emoji-only message
    without quoted content; a message with other attachments. *)
Definition emojiOnlyUnquoted (p : Props) (m : Message) : bool :=
  truthyBool (onlyEmojis p) && negb (isSome (quoted_message m)).

(** Example props: a left-aligned text message with one reaction. *)
Definition exampleMessage : Message :=
  {| id := "m1"%string; text := Some "hello"%string;
     latest_reactions :=
       Some [{| type := "like"%string; user_id := Some "u1"%string |}];
     quoted_message := None; reply_count := None |}.

Definition exampleProps : Props :=
  {| alignment := Some left; message := Some exampleMessage;
     messageReactionTitle := Some "Reactions"%string;
     visible := Some true; onlyEmojis := Some false;
     otherAttachments := None; threadList := None |}.

End OverlayProps.

(** * The channel files screen *)

Module ChannelFiles.

Record Attachment := {
  type : option string;
  id : option string;
  title : option string;
  asset_url : option string
}.

Record MessageResponse := {
  created_at : string;
  attachments : option (list Attachment)
}.

Record SectionData := {
  data : list Attachment;
  sectionTitle : string
}.

(** The list's content: the empty component, or headers and items. *)
Inductive Row :=
| SectionHeader (t : string)
| Item (a : Attachment).

Inductive ListContent :=
| ListEmptyComponent
| Rows (rows : list Row).

Record SectionListProps := {
  sections : list SectionData;
  stickySectionHeadersEnabled : bool
}.

(** What a section list shows: its empty component when it has no section,
    else each section's header followed by its items. *)
Definition shown (p : SectionListProps) : ListContent :=
  match sections p with
  | [] => ListEmptyComponent
  | secs =>
      Rows (flat_map
              (fun sec => SectionHeader (sectionTitle sec) :: map Item (data sec))
              secs)
  end.

Section Screen.

(** [Dayjs(created_at).format('MMM YYYY')]. *)
Variable formatMonth : string -> string.

(** The object [sections] of the effect: its keys in insertion order, the
    order in which [Object.values] lists them. *)
Definition SectionsObject := list (string * SectionData).

Fixpoint hasKey (month : string) (o : SectionsObject) : bool :=
  match o with
  | [] => false
  | (k, _) :: o => String.eqb k month || hasKey month o
  end.

(** [sections[month].data.push(a)]. *)
Fixpoint pushTo (month : string) (a : Attachment) (o : SectionsObject)
  : SectionsObject :=
  match o with
  | [] => []
  | (k, sec) :: o =>
      if String.eqb k month
      then (k, {| data := data sec ++ [a]; sectionTitle := sectionTitle sec |}) :: o
      else (k, sec) :: pushTo month a o
  end.

Definition isFile (a : Attachment) : bool :=
  match type a with
  | Some t => String.eqb t "file"%string
  | None => false
  end.

(** The body of [messages.forEach]. *)
Definition addMessage (o : SectionsObject) (m : MessageResponse)
  : SectionsObject :=
  let month := formatMonth (created_at m) in
  let o :=
    if negb (hasKey month o)
    then o ++ [(month, {| data := []; sectionTitle := month |})]
    else o in
  match attachments m with
  | None => o
  | Some atts =>
      fold_left (fun o a => if negb (isFile a) then o else pushTo month a o)
                atts o
  end.

(** The effect on [messages]: the value handed to [setSections]. *)
Definition sectionsEffect (messages : list MessageResponse) : list SectionData :=
  map snd (fold_left addMessage messages []).

(** What the screen renders under its header for the state [sectionsState]
    and the flag [loading] of the hook: the section list, or nothing. *)
Definition render (loading : bool) (sectionsState : list SectionData)
  : option SectionListProps :=
  if Nat.ltb 0 (List.length sectionsState) || negb loading
  then Some {| sections := []; stickySectionHeadersEnabled := true |}
  else None.

End Screen.

End ChannelFiles.

(** * Further parts of the overlay and of the files screen *)

(** ** Runs of the overlay: how often it was hidden *)

Module OverlayLife.

Import Overlay.

(** The runs of the effect on [visible] that hide the overlay
    ([fadeScreen(false)]) in a list of events, for a component whose prop
    [visible] is [v] before them. *)
Fixpoint hideEffects (v : option bool) (evs : list Event) : nat :=
  match evs with
  | [] => 0%nat
  | VisibleChanged v' :: evs =>
      if optionBool_eqb v' v then hideEffects v evs
      else ((if truthy v' then 0 else 1) + hideEffects v' evs)%nat
  | _ :: evs => hideEffects v evs
  end.

(** The position the last update of a gesture asks for, [dflt] when there
    is no update. *)
Fixpoint lastTranslation (dflt : Q) (updates : list GestureEvent) : Q :=
  match updates with
  | [] => dflt
  | evt :: updates => lastTranslation (translationY evt) updates
  end.

(** The runs of the effect that show the overlay ([fadeScreen(true)], after
    [Keyboard.dismiss]) in a list of events, for a component whose prop
    [visible] is [v] before them. *)
Fixpoint showEffects (v : option bool) (evs : list Event) : nat :=
  match evs with
  | [] => 0%nat
  | VisibleChanged v' :: evs =>
      if optionBool_eqb v' v then showEffects v evs
      else ((if truthy v' then 1 else 0) + showEffects v' evs)%nat
  | _ :: evs => showEffects v evs
  end.

Definition isRelease (ev : Event) : bool :=
  match ev with PanFinish _ => true | _ => false end.

End OverlayLife.

(** ** The overlay as the libraries run it

    [Overlay.step] follows the cells. Two things around them belong to the
    libraries and decide what some runs do:

    - the animation engine (react-native-reanimated). When a shared value is
      assigned a number or a new animation, or [cancelAnimation] is called on
      it, the animation that owned it is marked cancelled and, on the next
      frame, the engine calls its callback with [finished = false]. The two
      callbacks of the file take no argument, so they do at a cancellation
      what they do at a completion;
    - [React.memo] with [areEqual], which does not compare the prop
      [overlay]: when the overlay kind changes and [visible] does not, the
      component is not rendered again and [enabled={overlay === 'message'}]
      keeps the value of the last render. *)

Module Live.

Import Overlay.
Import OverlayLife.

(** The mounted component: the state of [Overlay], the callbacks of the
    animations replaced or cancelled since the last frame (in the order in
    which that happened), and the prop [overlay] as of the last render. *)
Record Component := {
  state : State;
  cancelled : list Callback;
  renderedOverlay : OverlayKind
}.

Definition cell (c : Cell) (s : State) : SharedValue :=
  match c with
  | cOffsetY => offsetY s
  | cTranslateY => translateY s
  | cScale => scale s
  | cShowScreen => showScreen s
  | cOverlayOpacity => overlayOpacity s
  end.

(** The callbacks carried by the animations that own the cells [cells]. *)
Definition callbacksOn (cells : list Cell) (s : State) : list Callback :=
  flat_map (fun c => match callbackOf (cell c s) with
                     | Some cb => [cb]
                     | None => []
                     end) cells.

(** A handler that writes to the cells [cells] (a number, an animation, or
    [cancelAnimation]): the cells change as the handler says, and the
    callbacks of the animations that owned them wait for the next frame. *)
Definition writing (cells : list Cell) (handler : State -> State)
  (l : Component) : Component :=
  {| state := handler (state l);
     cancelled := cancelled l ++ callbacksOn cells (state l);
     renderedOverlay := renderedOverlay l |}.

Definition onState (f : State -> State) (l : Component) : Component :=
  {| state := f (state l); cancelled := cancelled l;
     renderedOverlay := renderedOverlay l |}.

(** Calls handed to the JS thread with [runOnJS]. *)
Definition handOver (calls : list JsCall) (s : State) : State :=
  {| offsetY := offsetY s; translateY := translateY s; scale := scale s;
     showScreen := showScreen s; overlayOpacity := overlayOpacity s;
     visible := visible s; overlay := overlay s;
     jsQueue := jsQueue s ++ calls;
     resetCalls := resetCalls s; keyboardDismissals := keyboardDismissals s |}.

(** What the callbacks waiting in [cancelled] do when the engine calls
    them. *)
Definition cancelledCalls (l : Component) : list JsCall :=
  flat_map runCallback (cancelled l).

(** The pan handler takes the gesture when the root view takes touches
    ([pointerEvents], rendered again at every change of [visible]) and the
    kind was 'message' at the last render ([enabled]). *)
Definition enabledAsRendered (l : Component) : bool :=
  touchable (state l) && OverlayKind_eqb (renderedOverlay l) message.

(** The events of [Overlay], and a render of the memoized component for
    another reason than [visible] (a change of the alignment, of the title or
    of the reactions of the message). *)
Inductive LiveEvent :=
| Of (ev : Event)
| Render.

(** The cells each piece of code writes to. *)
Definition startWrites : list Cell := [cTranslateY; cOffsetY].

Definition activeWrites : list Cell := [cTranslateY; cOverlayOpacity; cScale].

Definition fadeWrites (show : bool) : list Cell :=
  if show then [cOffsetY; cTranslateY; cScale; cShowScreen] else [cShowScreen].

Section Handlers.

Variable vp : Viewport.

Definition finishWrites (evt : GestureEvent) (s : State) : list Cell :=
  if commitsToDismiss vp evt s then [cTranslateY; cOverlayOpacity]
  else [cTranslateY; cScale; cOverlayOpacity].

(** One event. A frame first calls the callbacks of the animations cancelled
    since the previous one, then advances the animations in flight. A change
    of [visible] renders the component with the kind of the moment and runs
    the effect. *)
Definition stepLive (ev : LiveEvent) (l : Component) : Component :=
  match ev with
  | Of PanStart =>
      if enabledAsRendered l then writing startWrites onStart l else l
  | Of (PanActive evt) =>
      if enabledAsRendered l then writing activeWrites (onActive vp evt) l
      else l
  | Of (PanFinish evt) =>
      if enabledAsRendered l
      then writing (finishWrites evt (state l)) (onFinish vp evt) l
      else l
  | Of Tap => if touchable (state l) then onState onTapEnd l else l
  | Of (VisibleChanged v) =>
      if optionBool_eqb v (visible (state l)) then l
      else
        {| state := visibleChanged v (state l);
           cancelled :=
             cancelled l ++ callbacksOn (fadeWrites (truthy v)) (state l);
           renderedOverlay := overlay (state l) |}
  | Of (OverlayChanged k) => onState (set_overlay k) l
  | Of (Frame dt) =>
      {| state := frame dt (handOver (cancelledCalls l) (state l));
         cancelled := [];
         renderedOverlay := renderedOverlay l |}
  | Of (Settle c) => onState (settleCell c) l
  | Of RunJS => onState runNextJs l
  | Render =>
      {| state := state l; cancelled := cancelled l;
         renderedOverlay := overlay (state l) |}
  end.

Definition runLive (evs : list LiveEvent) (l : Component) : Component :=
  fold_left (fun l ev => stepLive ev l) evs l.

End Handlers.

(** The component at mount: rendered with the kind of the moment, nothing
    cancelled yet. *)
Definition mountLive (v : option bool) (k : OverlayKind) (opacity : SharedValue)
  : Component :=
  {| state := mount v k opacity; cancelled := []; renderedOverlay := k |}.

(** The events of [Overlay] in a list of events. *)
Definition baseEvents (evs : list LiveEvent) : list Event :=
  flat_map (fun ev => match ev with Of ev => [ev] | Render => [] end) evs.

(** Events that leave the opacity and the overlay kind to the animations:
    no gesture, no tap, no change of the kind from outside. *)
Definition undisturbed (ev : LiveEvent) : bool :=
  match ev with
  | Of ev => negb (isGesture ev || setsOverlayDirectly ev)
  | Render => true
  end.

(** Events that are no release, no tap and no change of the kind from
    outside. *)
Definition startsNoDismissal (ev : LiveEvent) : bool :=
  match ev with
  | Of ev => negb (isRelease ev || setsOverlayDirectly ev)
  | Render => true
  end.

(** Calls of [reset] owed by the callbacks of cancelled animations; with
    them, all the calls of [reset] made, waiting on the JS thread, or owed. *)
Definition cancelledResets (l : Component) : nat :=
  List.length (filter isReset (cancelledCalls l)).

Definition resetsDue (l : Component) : nat :=
  (resetBudget (state l) + cancelledResets l)%nat.

(** No [setOverlay] waits on the JS thread or with a cancelled animation. *)
Definition noSetOverlayDue (l : Component) : Prop :=
  noSetOverlayPending (state l)
  /\ forall c, In c (cancelledCalls l) -> isSetOverlay c = false.

(** Nothing waits on the JS thread or with a cancelled animation. *)
Definition idle (l : Component) : Prop :=
  jsQueue (state l) = [] /\ cancelled l = [].

(** The fade of a dismissal under way on the kind [k]: the opacity runs the
    animation that carries the dismissal callback and no [setOverlay] is due
    from elsewhere; or that animation has run to its end and the opacity
    rests at 0. *)
Definition fading (k : OverlayKind) (l : Component) : Prop :=
  (overlay (state l) = k
   /\ noSetOverlayDue l
   /\ exists t,
        animation (overlayOpacity (state l))
        = Some (withTiming 0 (Some dismissTiming) (Some dismissCallback), t))
  \/ overlayOpacity (state l) = useSharedValue 0.

(** The timed dismissal under way on the kind [k] towards the height [h]:
    the opacity and the position run their 200 ms animations in step and no
    [setOverlay] is due from elsewhere; or the position animation is over. *)
Definition timedFading (k : OverlayKind) (h : Q) (l : Component) : Prop :=
  (overlay (state l) = k
   /\ noSetOverlayDue l
   /\ exists t,
        animation (overlayOpacity (state l))
        = Some (withTiming 0 (Some dismissTiming) (Some dismissCallback), t)
        /\ animation (translateY (state l))
           = Some (withTiming h (Some dismissTiming) None, t))
  \/ animation (translateY (state l)) = None.

(** Example components. *)

(** The overlay shown and at rest: mounted visible with the kind 'message',
    the show spring settled. *)
Definition shown : Component :=
  runLive vp0 [Of (Settle cShowScreen)]
    (mountLive (Some true) message (useSharedValue 1)).

(** The bubble pulled down by [y]. *)
Definition pulled (y : Q) : Component :=
  runLive vp0
    [Of PanStart; Of (PanActive {| translationY := y; velocityY := 0 |})]
    shown.

(** The overlay mounted hidden, its first effect run to the end. *)
Definition hidden : Component :=
  runLive vp0 [Of (Frame 150); Of RunJS]
    (mountLive (Some false) none (useSharedValue 1)).

End Live.

(** ** The styles derived at render time *)

Module OverlayStyle.

Import OverlayProps.

(** [interpolate] with two-point ranges and the default extrapolation
    (extend): the line through the two points. *)
Definition interpolate (x : Q) (l r : Q) (ll rr : Q) : Q :=
  ll + ((x - l) / (r - l)) * (rr - ll).

Record Layout := { layoutX : Q; layoutY : Q; layoutWidth : Q; layoutHeight : Q }.

(** The cells written by [onLayout] of the bubble. *)
Record Measured := {
  messageLayoutX : Q;
  messageLayoutY : Q;
  messageWidth : Q;
  messageHeight : Q
}.

(** The [onLayout] handler of the bubble. *)
Definition onLayout (a : option Alignment) (l : Layout) : Measured :=
  {| messageLayoutX :=
       match a with
       | Some left => layoutX l + layoutWidth l
       | _ => layoutX l
       end;
     messageLayoutY := layoutY l;
     messageWidth := layoutWidth l;
     messageHeight := layoutHeight l |}.

Record Transform := { styleTranslateY : Q; styleTranslateX : Q; styleScale : Q }.

(** [showScreenStyle]. *)
Definition showScreenStyle (a : option Alignment) (m : Measured) (showScreen : Q)
  : Transform :=
  {| styleTranslateY := interpolate showScreen 0 1 (messageHeight m / 2) 0;
     styleTranslateX :=
       interpolate showScreen 0 1
         (match a with
          | Some left => - messageWidth m / 2
          | _ => messageWidth m / 2
          end) 0;
     styleScale := showScreen |}.

(** The template literal on the alignment: [`${alignment}`]. *)
Definition alignmentText (a : option Alignment) : string :=
  match a with
  | Some left => "left"
  | Some right => "right"
  | None => "undefined"
  end.

(** [groupStyles?.[0] || 'bottom']. *)
Definition firstGroupStyle (groupStyles : option (list string)) : string :=
  match groupStyles with
  | Some (g :: _) => if String.eqb g "" then "bottom"%string else g
  | _ => "bottom"%string
  end.

(** [!!message?.reply_count]. *)
Definition hasThreadReplies (m : option Message) : bool :=
  match m with
  | Some m =>
      match reply_count m with
      | Some (S _) => true
      | _ => false
      end
  | None => false
  end.

Inductive Radius := borderRadiusS | borderRadiusL.

Section GroupStyle.

(** [String.prototype.toLowerCase]. *)
Variable toLowerCase : string -> string.

Definition groupStyle (a : option Alignment) (groupStyles : option (list string))
  : string :=
  (alignmentText a ++ "_" ++ toLowerCase (firstGroupStyle groupStyles))%string.

Definition borderBottomLeftRadius (p : Props) (groupStyles : option (list string))
  : Radius :=
  let groupStyle := groupStyle (alignment p) groupStyles in
  if (String.eqb groupStyle "left_bottom" || String.eqb groupStyle "left_single")
     && (negb (hasThreadReplies (message p)) || truthyBool (threadList p))
  then borderRadiusS
  else borderRadiusL.

Definition borderBottomRightRadius (p : Props) (groupStyles : option (list string))
  : Radius :=
  let groupStyle := groupStyle (alignment p) groupStyles in
  if (String.eqb groupStyle "right_bottom"
      || String.eqb groupStyle "right_single")
     && (negb (hasThreadReplies (message p)) || truthyBool (threadList p))
  then borderRadiusS
  else borderRadiusL.

End GroupStyle.

(** The style object that follows the colours in the style array of the
    inner container: [{ borderWidth: 0 }] or [{}]. *)
Definition borderWidthOverride (p : Props) (m : Message) : option Q :=
  if (truthyBool (onlyEmojis p) && negb (isSome (quoted_message m)))
     || hasOtherAttachments (otherAttachments p)
  then Some 0
  else None.

(** Lower case of the letters A to Z, an instance of [toLowerCase] on
    ASCII text. *)
Definition asciiLower (c : Ascii.ascii) : Ascii.ascii :=
  let n := Ascii.nat_of_ascii c in
  if (Nat.leb 65 n && Nat.leb n 90)%bool then Ascii.ascii_of_nat (n + 32) else c.

Fixpoint asciiToLowerCase (s : string) : string :=
  match s with
  | EmptyString => EmptyString
  | String c s => String (asciiLower c) (asciiToLowerCase s)
  end.

End OverlayStyle.

(** ** The content of the bubble and the reactions under it *)

Module OverlayContent.

Record User := {
  id : option string;
  name : option string;
  image : option string
}.

Record Reaction := {
  type : string;
  user : option User;
  user_id : option string
}.

(** An entry of the [reactions] prop of [OverlayReactions]. *)
Record OverlayReaction := {
  reactionAlignment : OverlayProps.Alignment;
  reactionImage : option string;
  reactionName : string;
  reactionType : string
}.

(** Truthiness of an optional string. *)
Definition truthyString (o : option string) : bool :=
  match o with
  | Some s => negb (String.eqb s "")
  | None => false
  end.

(** [a || b] on an optional string and a string. *)
Definition orString (a : option string) (b : string) : string :=
  match a with
  | Some s => if String.eqb s "" then b else s
  | None => b
  end.

(** [reaction.user?.id]. *)
Definition userIdOf (r : Reaction) : option string :=
  match user r with
  | Some u => id u
  | None => None
  end.

(** [clientId && clientId === reaction.user?.id]. *)
Definition isOwn (clientId : option string) (r : Reaction) : bool :=
  truthyString clientId
  && OverlayProps.strictEq String.eqb clientId (userIdOf r).

(** The callback of the [map] over the latest reactions. *)
Definition toOverlayReaction (clientId : option string) (r : Reaction)
  : OverlayReaction :=
  {| reactionAlignment :=
       if isOwn clientId r then OverlayProps.right else OverlayProps.left;
     reactionImage := match user r with Some u => image u | None => None end;
     reactionName :=
       orString (match user r with Some u => name u | None => None end)
         (orString (user_id r) "");
     reactionType := type r |}.

(** The reactions under the bubble: the props handed to [OverlayReactions]
    (title and reactions), or nothing. *)
Definition overlayReactions (clientId messageReactionTitle : option string)
  (latest_reactions : option (list Reaction))
  : option (string * list OverlayReaction) :=
  match messageReactionTitle, latest_reactions with
  | Some title, Some (r :: rs) =>
      if truthyString (Some title)
      then Some (title, map (toOverlayReaction clientId) (r :: rs))
      else None
  | _, _ => None
  end.

(** What the memo comparison sees of a reaction. *)
Definition seenByMemo (r : Reaction) : OverlayProps.ReactionResponse :=
  {| OverlayProps.type := type r; OverlayProps.user_id := user_id r |}.

Record OtherAttachment := {
  attachmentType : option string;
  actions : option (list string)
}.

(** The elements the switch over the content order returns. *)
Inductive Element :=
| AttachmentElement (attachment : OtherAttachment) (key : string)
| FileAttachmentGroupElement (key messageId : string)
| GalleryElement (key messageId : string)
| MessageTextContainerElement (key messageId : string) (onlyEmojis : option bool).

(** What one entry of the content order renders to: an array of elements,
    one element, [null], or [undefined]. *)
Inductive Rendered :=
| Elements (l : list Element)
| Single (e : Element)
| Null
| Undefined.

(** Number to string, as in a template literal. *)
Definition numberToString (n : nat) : string :=
  NilEmpty.string_of_uint (Nat.to_uint n).

(** [Array.prototype.map], the callback taking the element and its index. *)
Fixpoint mapFrom {A B : Type} (f : A -> nat -> B) (index : nat) (l : list A)
  : list B :=
  match l with
  | [] => []
  | x :: l => f x index :: mapFrom f (S index) l
  end.

Definition mapIndexed {A B : Type} (f : A -> nat -> B) (l : list A) : list B :=
  mapFrom f 0 l.

(** [otherAttachments?.length && otherAttachments[0].actions]. *)
Definition firstHasActions (otherAttachments : option (list OtherAttachment))
  : bool :=
  match otherAttachments with
  | Some (a :: _) => OverlayProps.isSome (actions a)
  | _ => false
  end.

(** The callback of [messageContentOrder?.map]. *)
Definition renderContent (messageId : string) (onlyEmojis : option bool)
  (otherAttachments : option (list OtherAttachment))
  (messageContentType : string) (messageContentOrderIndex : nat) : Rendered :=
  if String.eqb messageContentType "attachments" then
    match otherAttachments with
    | Some l =>
        Elements
          (mapIndexed
             (fun attachment attachmentIndex =>
                AttachmentElement attachment
                  (messageId ++ "-" ++ numberToString attachmentIndex)%string)
             l)
    | None => Undefined
    end
  else if String.eqb messageContentType "files" then
    Single (FileAttachmentGroupElement
              ("file_attachment_group_"
               ++ numberToString messageContentOrderIndex)%string
              messageId)
  else if String.eqb messageContentType "gallery" then
    Single (GalleryElement
              ("gallery_" ++ numberToString messageContentOrderIndex)%string
              messageId)
  else
    if firstHasActions otherAttachments then Null
    else
      Single (MessageTextContainerElement
                ("message_text_container_"
                 ++ numberToString messageContentOrderIndex)%string
                messageId onlyEmojis).

(** [messageContentOrder?.map(...)]: the children of the inner container
    after the quoted reply. *)
Definition renderContents (messageId : string) (onlyEmojis : option bool)
  (otherAttachments : option (list OtherAttachment))
  (messageContentOrder : option (list string)) : list Rendered :=
  match messageContentOrder with
  | Some order =>
      mapIndexed (renderContent messageId onlyEmojis otherAttachments) order
  | None => []
  end.

Definition isText (r : Rendered) : bool :=
  match r with
  | Single (MessageTextContainerElement _ _ _) => true
  | _ => false
  end.

Definition isTextType (messageContentType : string) : bool :=
  negb (String.eqb messageContentType "attachments"
        || String.eqb messageContentType "files"
        || String.eqb messageContentType "gallery").

(** The key of a rendered child, where it has one. *)
Definition keyOf (r : Rendered) : option string :=
  match r with
  | Single (AttachmentElement _ k)
  | Single (FileAttachmentGroupElement k _)
  | Single (GalleryElement k _)
  | Single (MessageTextContainerElement k _ _) => Some k
  | _ => None
  end.

Definition elementKey (e : Element) : string :=
  match e with
  | AttachmentElement _ k
  | FileAttachmentGroupElement k _
  | GalleryElement k _
  | MessageTextContainerElement k _ _ => k
  end.

(** The keys the switch gives to single children: a prefix for the kind of
    child, then the index of the entry. *)
Definition keyPrefix (p : string) : Prop :=
  p = "file_attachment_group_"%string \/ p = "gallery_"%string
  \/ p = "message_text_container_"%string.

(** The keys of the children that have one. *)
Definition keysOf (l : list Rendered) : list string :=
  flat_map (fun r => match keyOf r with Some k => [k] | None => [] end) l.

(** What the panel of reactions shows of each reaction whoever made it:
    the title and the kinds in order. *)
Definition shownKinds (panel : option (string * list OverlayReaction))
  : option (string * list string) :=
  option_map (fun tl => (fst tl, map reactionType (snd tl))) panel.

End OverlayContent.

(** ** The groups of the files screen, said directly *)

Module ChannelGroups.

Import ChannelFiles.

Section Groups.

Variable formatMonth : string -> string.

Definition monthOf (m : MessageResponse) : string :=
  formatMonth (created_at m).

(** The file attachments of a message, in order. *)
Definition filesOf (m : MessageResponse) : list Attachment :=
  match attachments m with
  | Some atts => filter isFile atts
  | None => []
  end.

(** The file attachments of the messages of one month, in order. *)
Definition filesIn (month : string) (messages : list MessageResponse)
  : list Attachment :=
  flat_map filesOf
    (filter (fun m => String.eqb (monthOf m) month) messages).

(** [l] appended to the data of the first entry under [month]. *)
Fixpoint appendTo (month : string) (l : list Attachment) (o : SectionsObject)
  : SectionsObject :=
  match o with
  | [] => []
  | (k, sec) :: o =>
      if String.eqb k month
      then (k, {| data := data sec ++ l; sectionTitle := sectionTitle sec |}) :: o
      else (k, sec) :: appendTo month l o
  end.

(** The object of the effect after the messages [ms]: one entry per month
    met, under its own title, holding the files of that month. *)
Definition grouped (ms : list MessageResponse) (o : SectionsObject) : Prop :=
  NoDup (map fst o)
  /\ (forall k sec, In (k, sec) o ->
        sectionTitle sec = k /\ data sec = filesIn k ms)
  /\ (forall k, In k (map fst o) <-> exists m, In m ms /\ monthOf m = k).

End Groups.

End ChannelGroups.

(** * Facts about rational comparison and interpolation *)

Lemma Qgtb_true (x y : Q) : Qgtb x y = true <-> y < x.
Proof.
  unfold Qgtb. rewrite negb_true_iff.
  split; intro H.
  - apply Qnot_le_lt. intro L. apply Qle_bool_iff in L. congruence.
  - destruct (Qle_bool x y) eqn:E; [|reflexivity].
    apply Qle_bool_iff in E. exfalso. apply (Qlt_not_le _ _ H E).
Qed.

Lemma Qgtb_false (x y : Q) : Qgtb x y = false <-> x <= y.
Proof.
  unfold Qgtb. rewrite negb_false_iff. apply Qle_bool_iff.
Qed.

Lemma Qle_bool_false (x y : Q) : Qle_bool x y = false <-> y < x.
Proof.
  rewrite <- Qgtb_true. unfold Qgtb. now rewrite negb_true_iff.
Qed.

Lemma Qdiv_mono_r (x y h : Q) : 0 < h -> x <= y -> x / h <= y / h.
Proof.
  intros Hh Hxy. unfold Qdiv. apply Qmult_le_compat_r; [assumption|].
  apply Qlt_le_weak, Qinv_lt_0_compat, Hh.
Qed.

Lemma Qdiv_unit (x h : Q) : 0 < h -> 0 <= x -> x <= h -> 0 <= x / h <= 1.
Proof.
  intros Hh H0 H1. split.
  - apply Qle_shift_div_l; [assumption|]. lra.
  - apply Qle_shift_div_r; [assumption|]. lra.
Qed.

Module InterpolateFacts.

Import Overlay.

Section Range.

(** The input range is [0, h] with [h] positive, the output range goes from 1
    down to [c]. *)
Variables h c : Q.
Hypothesis h_pos : 0 < h.
Hypothesis c_le_1 : c <= 1.

Let f (x : Q) : Q := interpolateClamp x 0 h 1 c.

(** The three pieces of the clamped interpolation. *)
Lemma interpolate_cases (x : Q) :
  (x <= 0 /\ f x = 1)
  \/ (h <= x /\ f x = c)
  \/ (0 < x /\ x < h /\ f x = 1 + ((x - 0) / (h - 0)) * (c - 1)).
Proof.
  unfold f, interpolateClamp.
  destruct (Qle_bool x 0) eqn:E0.
  - left. split; [now apply Qle_bool_iff|reflexivity].
  - apply Qle_bool_false in E0.
    destruct (Qle_bool h x) eqn:E1.
    + right; left. split; [now apply Qle_bool_iff|reflexivity].
    + apply Qle_bool_false in E1. right; right. repeat split; assumption.
Qed.

Lemma interpolate_bounds (x : Q) : c <= f x <= 1.
Proof.
  destruct (interpolate_cases x) as [[_ E]|[[_ E]|(H0 & H1 & E)]];
    rewrite E; try lra.
  assert (P : 0 <= (x - 0) / (h - 0) <= 1)
    by (apply Qdiv_unit; lra).
  nra.
Qed.

Lemma interpolate_antitone (x y : Q) : x <= y -> f y <= f x.
Proof.
  intro Hxy.
  pose proof (interpolate_bounds x) as Bx.
  pose proof (interpolate_bounds y) as By.
  destruct (interpolate_cases x) as [[Hx Ex]|[[Hx Ex]|(Hx0 & Hx1 & Ex)]];
  destruct (interpolate_cases y) as [[Hy Ey]|[[Hy Ey]|(Hy0 & Hy1 & Ey)]];
    try (rewrite Ex in *; rewrite Ey in *; lra);
    try (rewrite Ey; lra); try (rewrite Ex; lra).
  rewrite Ex, Ey.
  assert (P : (x - 0) / (h - 0) <= (y - 0) / (h - 0))
    by (apply Qdiv_mono_r; lra).
  nra.
Qed.

Lemma interpolate_below (x : Q) : x <= 0 -> f x = 1.
Proof.
  intro H. unfold f, interpolateClamp.
  apply Qle_bool_iff in H. now rewrite H.
Qed.

Lemma interpolate_above (x : Q) : h <= x -> f x == c.
Proof.
  intro H.
  destruct (interpolate_cases x) as [[Hx Ex]|[[Hx Ex]|(Hx0 & Hx1 & Ex)]];
    rewrite Ex; lra.
Qed.

End Range.

End InterpolateFacts.

(** * The gesture handlers and [fadeScreen] *)

Module HandlerFacts.

Import Overlay.

Lemma commitsToDismiss_true vp evt s :
  commitsToDismiss vp evt s = true <->
  halfScreenHeight vp < finalYPosition evt /\ 0 < value (translateY s).
Proof.
  unfold commitsToDismiss. rewrite andb_true_iff, !Qgtb_true. tauto.
Qed.

Lemma commitsToDismiss_false vp evt s :
  commitsToDismiss vp evt s = false <->
  finalYPosition evt <= halfScreenHeight vp \/ value (translateY s) <= 0.
Proof.
  unfold commitsToDismiss. rewrite andb_false_iff, !Qgtb_false. tauto.
Qed.

(** The derived cells after a gesture update, in terms of the new position. *)
Lemma onActive_translateY vp evt s :
  value (translateY (onActive vp evt s)) = value (offsetY s) + translationY evt.
Proof. reflexivity. Qed.

Lemma onActive_opacity vp evt s :
  value (overlayOpacity (onActive vp evt s))
  = interpolateClamp (value (translateY (onActive vp evt s)))
      0 (halfScreenHeight vp) 1 (75 # 100).
Proof. reflexivity. Qed.

Lemma onActive_scale vp evt s :
  value (scale (onActive vp evt s))
  = interpolateClamp (value (translateY (onActive vp evt s)))
      0 (halfScreenHeight vp) 1 (85 # 100).
Proof. reflexivity. Qed.

(** A frame acts on each cell on its own. *)
Lemma frame_offsetY dt s : offsetY (frame dt s) = fst (advance dt (offsetY s)).
Proof.
  unfold frame. destruct (advance dt (offsetY s)), (advance dt (translateY s)),
    (advance dt (scale s)), (advance dt (showScreen s)),
    (advance dt (overlayOpacity s)). reflexivity.
Qed.

Lemma frame_translateY dt s :
  translateY (frame dt s) = fst (advance dt (translateY s)).
Proof.
  unfold frame. destruct (advance dt (offsetY s)), (advance dt (translateY s)),
    (advance dt (scale s)), (advance dt (showScreen s)),
    (advance dt (overlayOpacity s)). reflexivity.
Qed.

Lemma frame_scale dt s : scale (frame dt s) = fst (advance dt (scale s)).
Proof.
  unfold frame. destruct (advance dt (offsetY s)), (advance dt (translateY s)),
    (advance dt (scale s)), (advance dt (showScreen s)),
    (advance dt (overlayOpacity s)). reflexivity.
Qed.

Lemma frame_showScreen dt s :
  showScreen (frame dt s) = fst (advance dt (showScreen s)).
Proof.
  unfold frame. destruct (advance dt (offsetY s)), (advance dt (translateY s)),
    (advance dt (scale s)), (advance dt (showScreen s)),
    (advance dt (overlayOpacity s)). reflexivity.
Qed.

Lemma frame_overlayOpacity dt s :
  overlayOpacity (frame dt s) = fst (advance dt (overlayOpacity s)).
Proof.
  unfold frame. destruct (advance dt (offsetY s)), (advance dt (translateY s)),
    (advance dt (scale s)), (advance dt (showScreen s)),
    (advance dt (overlayOpacity s)). reflexivity.
Qed.

Lemma frame_jsQueue dt s :
  jsQueue (frame dt s)
  = jsQueue s ++ snd (advance dt (offsetY s)) ++ snd (advance dt (translateY s))
      ++ snd (advance dt (scale s)) ++ snd (advance dt (showScreen s))
      ++ snd (advance dt (overlayOpacity s)).
Proof.
  unfold frame. destruct (advance dt (offsetY s)), (advance dt (translateY s)),
    (advance dt (scale s)), (advance dt (showScreen s)),
    (advance dt (overlayOpacity s)). reflexivity.
Qed.

Lemma frame_rest dt s :
  visible (frame dt s) = visible s
  /\ overlay (frame dt s) = overlay s
  /\ resetCalls (frame dt s) = resetCalls s.
Proof.
  unfold frame. destruct (advance dt (offsetY s)), (advance dt (translateY s)),
    (advance dt (scale s)), (advance dt (showScreen s)),
    (advance dt (overlayOpacity s)). repeat split.
Qed.

(** A timing animation that has run its duration leaves the target value. *)
Lemma advance_timing_done dt toValue cfg cb sv :
  timingDuration cfg <= dt ->
  advance dt (animate (withTiming toValue cfg cb) sv)
  = ({| value := toValue; animation := None |},
     match cb with Some c => runCallback c | None => [] end).
Proof.
  intro H. unfold advance, animate. cbn [animation].
  assert (E : Qle_bool (timingDuration cfg) (0 + dt) = true)
    by (apply Qle_bool_iff; lra).
  now rewrite E.
Qed.

(** C1 fails as stated: a bubble dragged down by 100 of a half height of 400
    and released with a downward flick of 5000 per second is projected to
    600, and the release dismisses. *)
Lemma release_below_half_dismisses :
  let s := dragged 100 in
  let evt := {| translationY := 100; velocityY := 5000 |} in
  value (translateY s) <= halfScreenHeight vp0
  /\ ~ snapsBack (onFinish vp0 evt s)
  /\ animation (overlayOpacity (onFinish vp0 evt s))
     = Some (withTiming 0 (Some dismissTiming) (Some dismissCallback), 0).
Proof.
  cbv zeta. split; [|split].
  - vm_compute. discriminate.
  - intros (_ & _ & H). vm_compute in H. discriminate.
  - reflexivity.
Qed.

(** C1, amended: a release whose projected position
    [translationY + velocityY * 0.1] is at most [halfScreenHeight], or whose
    [translateY] is not positive, snaps back: [translateY], [scale] and the
    overlay opacity get default timing animations to 0, 1 and 1, which leave
    exactly these values, and no dismissal is started (no callback, nothing
    handed to the JS thread, the overlay kind untouched). *)
Theorem release_snaps_back vp evt s :
  finalYPosition evt <= halfScreenHeight vp \/ value (translateY s) <= 0 ->
  let s' := onFinish vp evt s in
  snapsBack s'
  /\ (forall dt, defaultTimingDuration <= dt ->
      value (translateY (frame dt s')) = 0
      /\ value (scale (frame dt s')) = 1
      /\ value (overlayOpacity (frame dt s')) = 1)
  /\ callbackOf (overlayOpacity s') = None
  /\ jsQueue s' = jsQueue s
  /\ overlay s' = overlay s.
Proof.
  intro H. apply commitsToDismiss_false in H.
  cbv zeta. unfold onFinish. rewrite H.
  split; [repeat split|split; [|repeat split]].
  intros dt Hdt.
  rewrite frame_translateY, frame_scale, frame_overlayOpacity.
  cbn [translateY scale overlayOpacity set_translateY set_scale
       set_overlayOpacity].
  rewrite !advance_timing_done by exact Hdt.
  repeat split.
Qed.

Lemma release_snaps_back_witness :
  snapsBack
    (onFinish vp0 {| translationY := 100; velocityY := 0 |} (dragged 100)).
Proof.
  apply (release_snaps_back vp0 {| translationY := 100; velocityY := 0 |}
           (dragged 100)).
  left. vm_compute. discriminate.
Defined.

(** C2 fails as stated: dragged down by 700 and released while moving up at
    2000 per second, the bubble is projected to 500, past the half height of
    400; the release dismisses, the speed is above 1000, and the position
    animation is the timed one, not a decay. *)
Lemma upward_release_is_timed :
  let s := dragged 700 in
  let evt := {| translationY := 700; velocityY := -2000 |} in
  commitsToDismiss vp0 evt s = true
  /\ 1000 < Qabs (velocityY evt)
  /\ animation (translateY (onFinish vp0 evt s))
     = Some (withTiming (screenHeight vp0) (Some dismissTiming) None, 0).
Proof.
  cbv zeta. split; [|split].
  - reflexivity.
  - vm_compute. reflexivity.
  - reflexivity.
Qed.

(** C2, amended: on a release that commits to dismiss, the position
    animation is a decay carrying the release velocity exactly when
    [velocityY] itself (signed) exceeds 1000, and otherwise a timing
    animation to the full screen height over 200 ms with ease-out; in both
    cases the opacity is animated to 0 over 200 ms with ease-out. *)
Theorem dismissing_release_animations vp evt s :
  halfScreenHeight vp < finalYPosition evt ->
  0 < value (translateY s) ->
  let s' := onFinish vp evt s in
  (1000 < velocityY evt ->
   animation (translateY s')
   = Some (withDecay {| decayVelocity := velocityY evt |}, 0))
  /\ (velocityY evt <= 1000 ->
      animation (translateY s')
      = Some (withTiming (screenHeight vp)
                (Some {| duration := 200; easing := easeOut |}) None, 0))
  /\ animation (overlayOpacity s')
     = Some (withTiming 0 (Some {| duration := 200; easing := easeOut |})
               (Some dismissCallback), 0).
Proof.
  intros Hp Ht.
  assert (C : commitsToDismiss vp evt s = true)
    by (apply commitsToDismiss_true; split; assumption).
  cbv zeta. unfold onFinish. rewrite C.
  split; [|split].
  - intro Hv. apply Qgtb_true in Hv.
    cbn [translateY set_translateY animate animation]. now rewrite Hv.
  - intro Hv. apply Qgtb_false in Hv.
    cbn [translateY set_translateY animate animation]. now rewrite Hv.
  - reflexivity.
Qed.

Lemma dismissing_release_animations_witness :
  animation
    (overlayOpacity
       (onFinish vp0 {| translationY := 500; velocityY := 1200 |} (dragged 500)))
  = Some (withTiming 0 (Some {| duration := 200; easing := easeOut |})
            (Some dismissCallback), 0).
Proof.
  apply (dismissing_release_animations vp0
           {| translationY := 500; velocityY := 1200 |} (dragged 500)).
  - vm_compute. reflexivity.
  - vm_compute. reflexivity.
Defined.

(** C5: when [visible] becomes true the effect resets the animated state
    and then starts the show spring: [translateY] and its base offset [offsetY]
    are 0, [scale] is 1, none of them under an animation any more, and
    [showScreen] is driven from its current value to 1 by a spring of damping
    600, mass 0.5 and rest thresholds 0.01 on displacement and speed. *)
Theorem show_resets_then_springs vp s :
  visible s <> Some true ->
  let s' := step vp (VisibleChanged (Some true)) s in
  translateY s' = useSharedValue 0
  /\ offsetY s' = useSharedValue 0
  /\ scale s' = useSharedValue 1
  /\ value (showScreen s') = value (showScreen s)
  /\ exists cfg,
       animation (showScreen s') = Some (withSpring 1 cfg, 0)
       /\ damping cfg = 600
       /\ mass cfg = 1 # 2
       /\ restDisplacementThreshold cfg = 1 # 100
       /\ restSpeedThreshold cfg = 1 # 100.
Proof.
  intro Hv. cbv zeta. unfold step, visibleChanged.
  assert (E : optionBool_eqb (Some true) (visible s) = false).
  { destruct (visible s) as [[|]|]; try reflexivity. now elim Hv. }
  rewrite E. unfold visibleEffect. cbn.
  repeat split. exists springToVisible. repeat split.
Qed.

Lemma show_resets_then_springs_witness :
  translateY
    (step vp0 (VisibleChanged (Some true))
       (mount (Some false) none (useSharedValue 1)))
  = useSharedValue 0.
Proof.
  apply (show_resets_then_springs vp0
           (mount (Some false) none (useSharedValue 1))).
  vm_compute. discriminate.
Defined.

(** C6: at every gesture update the overlay opacity and the scale are
    derived from the new [translateY] by interpolations that do not increase
    when [translateY] grows (opacity from 1 down to 0.75, scale from 1 down to
    0.85 over [0, halfScreenHeight]) and are clamped outside that range:
    whatever [translateY] is, the opacity stays within [0.75, 1] and the scale
    within [0.85, 1]. *)
Theorem drag_opacity_scale_antitone_clamped vp evt1 evt2 s1 s2 :
  0 < halfScreenHeight vp ->
  let a := onActive vp evt1 s1 in
  let b := onActive vp evt2 s2 in
  (value (translateY a) <= value (translateY b) ->
   value (overlayOpacity b) <= value (overlayOpacity a)
   /\ value (scale b) <= value (scale a))
  /\ (75 # 100 <= value (overlayOpacity a) <= 1)
  /\ (85 # 100 <= value (scale a) <= 1)
  /\ (value (translateY a) <= 0 ->
      value (overlayOpacity a) = 1 /\ value (scale a) = 1)
  /\ (halfScreenHeight vp <= value (translateY a) ->
      value (overlayOpacity a) == 75 # 100 /\ value (scale a) == 85 # 100).
Proof.
  intro Hh. cbv zeta.
  rewrite !onActive_opacity, !onActive_scale.
  assert (Co : 75 # 100 <= 1) by lra.
  assert (Cs : 85 # 100 <= 1) by lra.
  split; [|split; [|split; [|split]]].
  - intro Hab. split; apply InterpolateFacts.interpolate_antitone; assumption.
  - apply InterpolateFacts.interpolate_bounds; assumption.
  - apply InterpolateFacts.interpolate_bounds; assumption.
  - intro H0. split; apply InterpolateFacts.interpolate_below; assumption.
  - intro H1. split; apply InterpolateFacts.interpolate_above; assumption.
Qed.

Lemma drag_opacity_scale_antitone_clamped_witness :
  75 # 100
  <= value
       (overlayOpacity
          (onActive vp0 {| translationY := 200; velocityY := 0 |} atRest))
  <= 1.
Proof.
  apply (drag_opacity_scale_antitone_clamped vp0
           {| translationY := 200; velocityY := 0 |}
           {| translationY := 300; velocityY := 0 |} atRest atRest).
  vm_compute. reflexivity.
Defined.

End HandlerFacts.

(** * Runs of the component: where the callbacks sit and when they fire *)

Module RunFacts.

Import Overlay.
Import HandlerFacts.

Lemma isNoneCb_true c : isNoneCb c = true <-> c = None.
Proof. destruct c; simpl; split; congruence. Qed.

Lemma wellFormed_spec s :
  wellFormed s = true <->
  callbackOf (offsetY s) = None
  /\ callbackOf (translateY s) = None
  /\ callbackOf (scale s) = None
  /\ isHideCb (callbackOf (showScreen s)) = true
  /\ isDismissCb (callbackOf (overlayOpacity s)) = true
  /\ (truthy (visible s) = true -> callbackOf (showScreen s) = None).
Proof.
  unfold wellFormed. rewrite !andb_true_iff, !isNoneCb_true.
  rewrite orb_true_iff, negb_true_iff, isNoneCb_true.
  destruct (truthy (visible s)); intuition congruence.
Qed.

(** A frame either keeps the callback of a cell or consumes it. *)
Lemma advance_callback dt sv :
  (callbackOf (fst (advance dt sv)) = callbackOf sv
   /\ snd (advance dt sv) = [])
  \/ (callbackOf (fst (advance dt sv)) = None
      /\ snd (advance dt sv)
         = match callbackOf sv with Some c => runCallback c | None => [] end).
Proof.
  unfold advance, callbackOf.
  destruct (animation sv) as [[[toValue cfg cb|toValue cfg|cfg] t]|] eqn:E.
  - destruct (Qle_bool (timingDuration cfg) (t + dt)); cbn.
    + right. split; reflexivity.
    + left. split; reflexivity.
  - cbn. left. split; reflexivity.
  - cbn. left. split; reflexivity.
  - cbn. rewrite E. left. split; reflexivity.
Qed.

Lemma advance_callback_none dt sv :
  callbackOf sv = None ->
  callbackOf (fst (advance dt sv)) = None /\ snd (advance dt sv) = [].
Proof.
  intro H. destruct (advance_callback dt sv) as [[E1 E2]|[E1 E2]];
    rewrite H in *; auto.
Qed.

Lemma advance_keeps (P : option Callback -> bool) dt sv :
  P None = true -> P (callbackOf sv) = true ->
  P (callbackOf (fst (advance dt sv))) = true.
Proof.
  intros H0 H. destruct (advance_callback dt sv) as [[E _]|[E _]];
    rewrite E; assumption.
Qed.

Lemma settle_callback sv : callbackOf (settle sv) = callbackOf sv.
Proof.
  unfold settle, callbackOf.
  destruct (animation sv) as [[[toValue cfg cb|toValue cfg|cfg] t]|] eqn:E;
    cbn; rewrite ?E; reflexivity.
Qed.

Ltac wf_split :=
  apply wellFormed_spec; cbn -[advance settle];
  repeat match goal with |- _ /\ _ => split end.

Lemma wellFormed_onFinish vp evt s :
  wellFormed s = true -> wellFormed (onFinish vp evt s) = true.
Proof.
  intro W. apply wellFormed_spec in W.
  destruct W as (W1 & W2 & W3 & W4 & W5 & W6).
  unfold onFinish.
  destruct (commitsToDismiss vp evt s); [destruct (Qgtb (velocityY evt) 1000)|];
    wf_split; auto.
Qed.

Lemma wellFormed_visibleChanged v s :
  wellFormed s = true -> wellFormed (visibleChanged v s) = true.
Proof.
  intro W. unfold visibleChanged.
  destruct (optionBool_eqb v (visible s)); [assumption|].
  apply wellFormed_spec in W. destruct W as (W1 & W2 & W3 & W4 & W5 & W6).
  unfold visibleEffect, fadeScreen.
  destruct v as [[|]|]; wf_split; auto; discriminate.
Qed.

Lemma wellFormed_frame dt s :
  wellFormed s = true -> wellFormed (frame dt s) = true.
Proof.
  intro W. apply wellFormed_spec in W.
  destruct W as (W1 & W2 & W3 & W4 & W5 & W6).
  apply wellFormed_spec.
  rewrite frame_offsetY, frame_translateY, frame_scale, frame_showScreen,
    frame_overlayOpacity.
  destruct (frame_rest dt s) as (-> & _ & _).
  repeat split.
  - now apply advance_callback_none.
  - now apply advance_callback_none.
  - now apply advance_callback_none.
  - now apply advance_keeps.
  - now apply advance_keeps.
  - intro T. now apply advance_callback_none, W6.
Qed.

Lemma wellFormed_settleCell c s :
  wellFormed s = true -> wellFormed (settleCell c s) = true.
Proof.
  intro W. apply wellFormed_spec in W.
  destruct W as (W1 & W2 & W3 & W4 & W5 & W6).
  destruct c; wf_split; rewrite ?settle_callback; auto.
Qed.

Lemma wellFormed_runNextJs s :
  wellFormed s = true -> wellFormed (runNextJs s) = true.
Proof.
  intro W. unfold runNextJs.
  destruct (jsQueue s) as [|[k|] q]; exact W.
Qed.

(** Every event keeps the callbacks where the file puts them. *)
Lemma wellFormed_step vp ev s :
  wellFormed s = true -> wellFormed (step vp ev s) = true.
Proof.
  intro W. destruct ev as [|evt|evt| |v|k|dt|c|]; cbn [step].
  - destruct (panEnabled s); [|assumption].
    apply wellFormed_spec in W. destruct W as (W1 & W2 & W3 & W4 & W5 & W6).
    wf_split; auto.
  - destruct (panEnabled s); [|assumption].
    apply wellFormed_spec in W. destruct W as (W1 & W2 & W3 & W4 & W5 & W6).
    wf_split; auto.
  - destruct (panEnabled s); [|assumption]. now apply wellFormed_onFinish.
  - destruct (touchable s); exact W.
  - now apply wellFormed_visibleChanged.
  - exact W.
  - now apply wellFormed_frame.
  - now apply wellFormed_settleCell.
  - now apply wellFormed_runNextJs.
Qed.

Lemma wellFormed_run vp evs s :
  wellFormed s = true -> wellFormed (run vp evs s) = true.
Proof.
  revert s. induction evs as [|ev evs IH]; intros s W; [exact W|].
  apply IH, wellFormed_step, W.
Qed.

Lemma wellFormed_mount v k opacity :
  isDismissCb (callbackOf opacity) = true ->
  wellFormed (mount v k opacity) = true.
Proof.
  intro H. unfold mount, visibleEffect, fadeScreen.
  destruct v as [[|]|]; wf_split; auto; discriminate.
Qed.

(** ** The overlay kind during a dismissal *)

Lemma hide_calls_no_setOverlay dt sv :
  isHideCb (callbackOf sv) = true ->
  forall c, In c (snd (advance dt sv)) -> isSetOverlay c = false.
Proof.
  intros H c.
  destruct (advance_callback dt sv) as [[_ E]|[_ E]]; rewrite E;
    [intros []|].
  destruct (callbackOf sv) as [[|[|]]|]; try discriminate; cbn.
  - intros [<-|[]]; reflexivity.
  - intros [].
Qed.

Lemma visibleChanged_frame_of_state v s :
  overlayOpacity (visibleChanged v s) = overlayOpacity s
  /\ overlay (visibleChanged v s) = overlay s
  /\ jsQueue (visibleChanged v s) = jsQueue s
  /\ resetCalls (visibleChanged v s) = resetCalls s.
Proof.
  unfold visibleChanged.
  destruct (optionBool_eqb v (visible s)); [repeat split|].
  destruct v as [[|]|]; repeat split.
Qed.

Lemma settleCell_rest c s :
  overlay (settleCell c s) = overlay s
  /\ jsQueue (settleCell c s) = jsQueue s
  /\ resetCalls (settleCell c s) = resetCalls s
  /\ visible (settleCell c s) = visible s.
Proof. destruct c; repeat split. Qed.

Lemma onFinish_rest vp evt s :
  overlay (onFinish vp evt s) = overlay s
  /\ jsQueue (onFinish vp evt s) = jsQueue s
  /\ resetCalls (onFinish vp evt s) = resetCalls s
  /\ visible (onFinish vp evt s) = visible s
  /\ showScreen (onFinish vp evt s) = showScreen s.
Proof.
  unfold onFinish. destruct (commitsToDismiss vp evt s); repeat split.
Qed.

Lemma panEnabled_true s :
  panEnabled s = true -> truthy (visible s) = true /\ overlay s = message.
Proof.
  unfold panEnabled, touchable. rewrite andb_true_iff. intros [V K].
  split; [assumption|]. destruct (overlay s); (reflexivity || discriminate).
Qed.

(** ** The calls of [reset] *)

Lemma dismiss_calls_no_reset dt sv :
  isDismissCb (callbackOf sv) = true ->
  filter isReset (snd (advance dt sv)) = [].
Proof.
  intro H. destruct (advance_callback dt sv) as [[_ E]|[_ E]]; rewrite E;
    [reflexivity|].
  destruct (callbackOf sv) as [[|b]|]; try discriminate; reflexivity.
Qed.

Lemma owed_after_advance dt sv :
  (List.length (filter isReset (snd (advance dt sv)))
   + match callbackOf (fst (advance dt sv)) with
     | Some cb => List.length (filter isReset (runCallback cb))
     | None => 0
     end
   = match callbackOf sv with
     | Some cb => List.length (filter isReset (runCallback cb))
     | None => 0
     end)%nat.
Proof.
  destruct (advance_callback dt sv) as [[E1 E2]|[E1 E2]]; rewrite E1, E2.
  - reflexivity.
  - destruct (callbackOf sv); cbn; lia.
Qed.

(** No event but a change of [visible] creates or loses a call of [reset]. *)
Lemma resetBudget_step vp ev s :
  wellFormed s = true ->
  isVisibleChanged ev = false ->
  resetBudget (step vp ev s) = resetBudget s.
Proof.
  intros W V.
  apply wellFormed_spec in W. destruct W as (W1 & W2 & W3 & W4 & W5 & W6).
  destruct ev as [|evt|evt| |v|k|dt|c|]; cbn [step] in *; try discriminate.
  - destruct (panEnabled s); reflexivity.
  - destruct (panEnabled s); reflexivity.
  - destruct (panEnabled s); [|reflexivity].
    destruct (onFinish_rest vp evt s) as (_ & E2 & E3 & _ & E5).
    unfold resetBudget, pendingResets, owedResets. now rewrite E2, E3, E5.
  - destruct (touchable s); reflexivity.
  - reflexivity.
  - unfold resetBudget, pendingResets, owedResets.
    destruct (frame_rest dt s) as (_ & _ & ->).
    rewrite frame_jsQueue, frame_showScreen.
    destruct (advance_callback_none dt _ W1) as [_ ->].
    destruct (advance_callback_none dt _ W2) as [_ ->].
    destruct (advance_callback_none dt _ W3) as [_ ->].
    cbn [app]. rewrite !filter_app, !length_app.
    rewrite (dismiss_calls_no_reset dt _ W5). cbn [List.length].
    rewrite <- (owed_after_advance dt (showScreen s)).
    generalize (List.length (filter isReset (snd (advance dt (showScreen s))))).
    intro n.
    destruct (callbackOf (fst (advance dt (showScreen s)))); lia.
  - destruct (settleCell_rest c s) as (_ & E2 & E3 & _).
    unfold resetBudget, pendingResets, owedResets. rewrite E2, E3.
    destruct c; cbn; rewrite ?settle_callback; reflexivity.
  - unfold runNextJs, resetBudget, pendingResets, owedResets.
    destruct (jsQueue s) as [|[k|] q] eqn:EQ; cbn; rewrite ?EQ; cbn; lia.
Qed.

Lemma resetBudget_run vp evs : forall s,
  wellFormed s = true ->
  forallb (fun ev => negb (isVisibleChanged ev)) evs = true ->
  resetBudget (run vp evs s) = resetBudget s.
Proof.
  induction evs as [|ev evs IH]; intros s W V; [reflexivity|].
  cbn [forallb] in V. apply andb_prop in V. destruct V as [V1 V2].
  apply negb_true_iff in V1.
  cbn [run fold_left]. fold (run vp evs (step vp ev s)).
  rewrite IH by (try apply wellFormed_step; assumption).
  now apply resetBudget_step.
Qed.

(** ** The callbacks and the overlay kind *)

(** C8 fails as stated: the overlay kind is changed (here to 'gallery')
    while the dismissal animation runs, and its callback still sets the kind
    to 'none' at the end; it is changed while the hide animation runs, and
    the callback still calls [reset]. *)
Lemma stale_callbacks_still_act :
  let dismissing :=
    step vp0 (PanFinish {| translationY := 500; velocityY := 0 |})
      (dragged 500) in
  let changed := step vp0 (OverlayChanged gallery) dismissing in
  let after := run vp0 [Frame 200; RunJS] changed in
  let hiding := step vp0 (VisibleChanged (Some false)) atRest in
  let changed' := step vp0 (OverlayChanged gallery) hiding in
  let after' := run vp0 [Frame 150; RunJS] changed' in
  (overlay dismissing = message /\ overlay changed = gallery
   /\ overlay after = none)
  /\ (overlay hiding = message /\ overlay changed' = gallery
      /\ resetCalls changed' = 0%nat /\ resetCalls after' = 1%nat).
Proof. cbv zeta. repeat split. Qed.

Lemma advance_timing_ends dt toValue cfg cb t sv :
  animation sv = Some (withTiming toValue cfg (Some cb), t) ->
  timingDuration cfg <= t + dt ->
  snd (advance dt sv) = runCallback cb.
Proof.
  intros A H. unfold advance. rewrite A.
  apply Qle_bool_iff in H. now rewrite H.
Qed.

(** C8, amended: neither completion callback looks at the overlay kind.
    What a frame hands to the JS thread is the same whatever the kind is at
    that moment; when the opacity animation of a dismissal ends,
    [setOverlay('none')] is handed over, and when the hide animation ends,
    [reset] is; on the JS thread the first sets the kind to 'none' and the
    second is called, unconditionally. The only test in a callback is the
    hide callback's test of its own captured [show], false in every hide. *)
Theorem completion_callbacks_ignore_overlay_kind vp s dt toValue cfg t :
  timingDuration cfg <= t + dt ->
  (forall k, jsQueue (step vp (Frame dt) (set_overlay k s))
             = jsQueue (step vp (Frame dt) s))
  /\ (animation (overlayOpacity s)
      = Some (withTiming toValue cfg (Some dismissCallback), t) ->
      In (setOverlay none) (jsQueue (step vp (Frame dt) s)))
  /\ (animation (showScreen s)
      = Some (withTiming toValue cfg (Some (hideCallback false)), t) ->
      In reset (jsQueue (step vp (Frame dt) s)))
  /\ (forall k s', overlay (runJs (setOverlay k) s') = k)
  /\ (forall s', resetCalls (runJs reset s') = S (resetCalls s'))
  /\ (forall show, runCallback (hideCallback show)
                   = if negb show then [reset] else []).
Proof.
  intro H. cbn [step]. split; [|split; [|split; [|repeat split]]].
  - intro k. rewrite !frame_jsQueue. reflexivity.
  - intro A. rewrite frame_jsQueue.
    rewrite (advance_timing_ends dt toValue cfg dismissCallback t _ A H).
    rewrite !in_app_iff. cbn. tauto.
  - intro A. rewrite frame_jsQueue.
    rewrite (advance_timing_ends dt toValue cfg (hideCallback false) t _ A H).
    rewrite !in_app_iff. cbn. tauto.
Qed.

Lemma completion_callbacks_ignore_overlay_kind_witness :
  In (setOverlay none)
    (jsQueue
       (step vp0 (Frame 200)
          (step vp0 (OverlayChanged gallery)
             (step vp0 (PanFinish {| translationY := 500; velocityY := 0 |})
                (dragged 500))))).
Proof.
  destruct (completion_callbacks_ignore_overlay_kind vp0
              (step vp0 (OverlayChanged gallery)
                 (step vp0 (PanFinish {| translationY := 500; velocityY := 0 |})
                    (dragged 500)))
              200 0 (Some dismissTiming) 0)
    as (_ & H & _).
  - vm_compute. discriminate.
  - apply H. reflexivity.
Defined.

End RunFacts.

(** * [areEqual] and the fill of the bubble *)

Module PropsFacts.

Import OverlayProps.

Lemma strictEq_true {A : Type} (eqb : A -> A -> bool) (a b : option A) :
  (forall x y, eqb x y = true <-> x = y) ->
  (strictEq eqb a b = true <-> a = b).
Proof.
  intro H. destruct a as [x|], b as [y|]; cbn.
  - rewrite H. split; congruence.
  - split; discriminate.
  - split; discriminate.
  - split; reflexivity.
Qed.

Lemma Bool_eqb_true (x y : bool) : Bool.eqb x y = true <-> x = y.
Proof. destruct x, y; cbn; split; congruence. Qed.

Lemma Alignment_eqb_true (x y : Alignment) : Alignment_eqb x y = true <-> x = y.
Proof. destruct x, y; cbn; split; congruence. Qed.

(** The indexed comparison of [every] against a list read from position [k]
    on amounts to the equality of the kinds, element by element. *)
Lemma everyFrom_kinds (prev : list ReactionResponse) :
  forall (next l : list ReactionResponse) (k : nat),
    (forall i, nth_error l (k + i) = nth_error next i) ->
    List.length prev = List.length next ->
    (everyFrom
       (fun reaction index =>
          match nth_error l index with
          | Some nextReaction => String.eqb (type reaction) (type nextReaction)
          | None => false
          end) k prev = true
     <-> map type prev = map type next).
Proof.
  induction prev as [|x prev IH]; intros [|y next] l k Hl Hlen;
    try discriminate.
  - split; reflexivity.
  - cbn [everyFrom map].
    assert (E : nth_error l k = Some y)
      by (rewrite <- (Nat.add_0_r k) at 1; apply Hl).
    rewrite E, andb_true_iff, String.eqb_eq.
    rewrite (IH next l (S k)).
    + split; [intros [-> ->]; reflexivity|intro H; now inversion H].
    + intro i. specialize (Hl (S i)). cbn [nth_error] in Hl.
      rewrite <- Hl. f_equal. lia.
    + now inversion Hlen.
Qed.

Lemma latestReactions_test (prev next : list ReactionResponse) :
  Nat.eqb (List.length prev) (List.length next)
  && every
       (fun reaction index =>
          match nth_error next index with
          | Some nextReaction => String.eqb (type reaction) (type nextReaction)
          | None => false
          end) prev = true
  <-> map type prev = map type next.
Proof.
  rewrite andb_true_iff, Nat.eqb_eq. unfold every. split.
  - intros [Hlen H]. now apply (everyFrom_kinds prev next next 0%nat).
  - intro H.
    assert (Hlen : List.length prev = List.length next)
      by (rewrite <- (length_map type prev), H; apply length_map).
    split; [assumption|]. now apply (everyFrom_kinds prev next next 0%nat).
Qed.

(** C7: [areEqual] answers 'skip the render' exactly when the four
    comparisons pass: [visible], the alignment and the reaction title are
    unchanged and so is the ordered list of the kinds of the latest reactions
    (the kinds only, and a prop set without a reaction list only matching
    another without one); so a change of any one of the four makes it answer
    'render', and prop sets that differ in other props only (the text of the
    message, the emoji flag, the attachments, the thread flag) are skipped. *)
Theorem areEqual_iff_four_unchanged (prevProps nextProps : Props) :
  (areEqual prevProps nextProps = true <->
   visible prevProps = visible nextProps
   /\ alignment prevProps = alignment nextProps
   /\ messageReactionTitle prevProps = messageReactionTitle nextProps
   /\ reactionKinds prevProps = reactionKinds nextProps)
  /\ (forall m newText newEmojis newAttachments newThreadList,
        message prevProps = Some m ->
        areEqual prevProps
          {| alignment := alignment prevProps;
             message := Some {| id := id m; text := newText;
                                latest_reactions := latest_reactions m;
                                quoted_message := quoted_message m;
                                reply_count := reply_count m |};
             messageReactionTitle := messageReactionTitle prevProps;
             visible := visible prevProps;
             onlyEmojis := newEmojis;
             otherAttachments := newAttachments;
             threadList := newThreadList |} = true).
Proof.
  assert (Iff : forall p n,
             areEqual p n = true <->
             visible p = visible n
             /\ alignment p = alignment n
             /\ messageReactionTitle p = messageReactionTitle n
             /\ reactionKinds p = reactionKinds n).
  { intros p n. unfold areEqual, reactionKinds.
    pose proof (strictEq_true Bool.eqb (visible p) (visible n) Bool_eqb_true)
      as Hv.
    pose proof (strictEq_true Alignment_eqb (alignment p) (alignment n)
                  Alignment_eqb_true) as Ha.
    pose proof (strictEq_true String.eqb (messageReactionTitle p)
                  (messageReactionTitle n) String.eqb_eq) as Ht.
    destruct (strictEq Bool.eqb (visible p) (visible n));
      [|cbn; split; [discriminate|intros (E & _); apply Hv in E; discriminate]].
    destruct (strictEq Alignment_eqb (alignment p) (alignment n));
      [|cbn; split;
        [discriminate|intros (_ & E & _); apply Ha in E; discriminate]].
    destruct (strictEq String.eqb (messageReactionTitle p)
                (messageReactionTitle n));
      [|cbn; split;
        [discriminate|intros (_ & _ & E & _); apply Ht in E; discriminate]].
    cbn [negb].
    assert (V : visible p = visible n) by now apply Hv.
    assert (A : alignment p = alignment n) by now apply Ha.
    assert (T : messageReactionTitle p = messageReactionTitle n)
      by now apply Ht.
    destruct (latestReactionsOf (message p)) as [prev|],
             (latestReactionsOf (message n)) as [next|]; cbn [option_map].
    - pose proof (latestReactions_test prev next) as L.
      destruct (Nat.eqb _ _ && every _ prev); cbn [negb].
      + split; [intros _|reflexivity].
        repeat split; try assumption. f_equal. now apply L.
      + split; [discriminate|]. intros (_ & _ & _ & E).
        inversion E as [E']. apply L in E'. discriminate.
    - cbn. split; [discriminate|]. intros (_ & _ & _ & E). discriminate.
    - cbn. split; [discriminate|]. intros (_ & _ & _ & E). discriminate.
    - cbn. split; [intros _; repeat split; assumption|reflexivity]. }
  split; [apply Iff|].
  intros m newText newEmojis newAttachments newThreadList Hm.
  apply Iff. unfold reactionKinds. cbn. rewrite Hm. repeat split.
Qed.

Lemma areEqual_iff_four_unchanged_witness :
  areEqual exampleProps
    {| alignment := Some left;
       message := Some {| id := "m1"%string; text := Some "edited"%string;
                          latest_reactions := latest_reactions exampleMessage;
                          quoted_message := None; reply_count := None |};
       messageReactionTitle := Some "Reactions"%string;
       visible := Some true; onlyEmojis := Some true;
       otherAttachments := None; threadList := Some true |} = true.
Proof.
  exact (proj2 (areEqual_iff_four_unchanged exampleProps exampleProps)
           exampleMessage (Some "edited"%string) (Some true) None (Some true)
           eq_refl).
Defined.

(** C9: the fill of the bubble is a function of the content class of the
    message: transparent for an emoji-only message without quoted content;
    otherwise, with other (non-file) attachments, the tinted [blue_alice]
    unless the first of them is of type 'giphy', where it is transparent;
    otherwise the neutral fill of the alignment, [white_smoke] on the left and
    [grey_gainsboro] on the right. Props that agree on what the classes look
    at get the same fill. *)
Theorem backgroundColor_by_content_class (p : Props) (m : Message) :
  (emojiOnlyUnquoted p m = true -> backgroundColor p m = transparent)
  /\ (emojiOnlyUnquoted p m = false ->
      hasOtherAttachments (otherAttachments p) = true ->
      backgroundColor p m
      = if firstIsGiphy (otherAttachments p) then transparent else blue_alice)
  /\ (emojiOnlyUnquoted p m = false ->
      hasOtherAttachments (otherAttachments p) = false ->
      (alignment p = Some left -> backgroundColor p m = white_smoke)
      /\ (alignment p = Some right -> backgroundColor p m = grey_gainsboro)
      /\ (alignment p <> Some left -> backgroundColor p m = grey_gainsboro))
  /\ white_smoke <> grey_gainsboro
  /\ (forall p' m',
        emojiOnlyUnquoted p' m' = emojiOnlyUnquoted p m ->
        hasOtherAttachments (otherAttachments p')
        = hasOtherAttachments (otherAttachments p) ->
        firstIsGiphy (otherAttachments p') = firstIsGiphy (otherAttachments p) ->
        alignment p' = alignment p ->
        backgroundColor p' m' = backgroundColor p m).
Proof.
  unfold backgroundColor. fold (emojiOnlyUnquoted p m).
  split; [|split; [|split; [|split]]].
  - now intros ->.
  - now intros -> ->.
  - intros -> ->. repeat split.
    + now intros ->.
    + now intros ->.
    + intro N. destruct (alignment p) as [[|]|]; try reflexivity.
      now elim N.
  - discriminate.
  - intros p' m' E1 E2 E3 E4. unfold backgroundColor.
    fold (emojiOnlyUnquoted p' m'). now rewrite E1, E2, E3, E4.
Qed.

Lemma backgroundColor_by_content_class_witness :
  backgroundColor exampleProps exampleMessage = white_smoke.
Proof.
  destruct (backgroundColor_by_content_class exampleProps exampleMessage)
    as (_ & _ & H & _).
  apply H; reflexivity.
Defined.

End PropsFacts.

(** * The channel files screen *)

Module ChannelFilesFacts.

Import ChannelFiles.

(** C10: whatever the hook has fetched, the screen hands the literal empty
    list to the section list: for every flag [loading] and every list of
    messages, with the state the effect has computed from them (or any other
    state), the screen renders either no list at all (while loading with no
    section in the state) or a list whose [sections] are empty and which
    therefore shows its empty component; the groups of the effect are never
    shown, even where there are some. *)
Theorem section_list_never_shows_groups (formatMonth : string -> string) :
  (forall loading sectionsState,
      match render loading sectionsState with
      | Some list => sections list = [] /\ shown list = ListEmptyComponent
      | None => loading = true /\ sectionsState = []
      end)
  /\ (forall loading messages,
        match render loading (sectionsEffect formatMonth messages) with
        | Some list => sections list = [] /\ shown list = ListEmptyComponent
        | None => loading = true /\ sectionsEffect formatMonth messages = []
        end)
  /\ (let a := {| type := Some "file"%string; id := Some "a1"%string;
                   title := Some "notes.pdf"%string; asset_url := None |} in
      let messages := [{| created_at := "2021-01-05"%string;
                          attachments := Some [a] |}] in
      sectionsEffect formatMonth messages
      = [{| data := [a]; sectionTitle := formatMonth "2021-01-05"%string |}]
      /\ option_map shown
           (render false (sectionsEffect formatMonth messages))
         = Some ListEmptyComponent).
Proof.
  assert (R : forall loading sectionsState,
             match render loading sectionsState with
             | Some list => sections list = [] /\ shown list = ListEmptyComponent
             | None => loading = true /\ sectionsState = []
             end).
  { intros loading sectionsState. unfold render.
    destruct sectionsState as [|sec rest]; destruct loading; cbn;
      split; reflexivity. }
  split; [exact R|split; [intros; apply R|]].
  cbv zeta.
  match goal with |- ?l = ?r /\ _ => assert (E : l = r) end.
  { unfold sectionsEffect. cbn. rewrite String.eqb_refl. reflexivity. }
  split; [exact E|]. rewrite E. reflexivity.
Qed.

End ChannelFilesFacts.

(** * Gestures, taps and the life of the overlay *)

Module LifeFacts.

Import Overlay.
Import OverlayLife.
Import HandlerFacts.
Import RunFacts.

Lemma run_cons vp ev evs s : run vp (ev :: evs) s = run vp evs (step vp ev s).
Proof. reflexivity. Qed.

Lemma run_app vp evs1 evs2 s :
  run vp (evs1 ++ evs2) s = run vp evs2 (run vp evs1 s).
Proof. unfold run. apply fold_left_app. Qed.

Lemma updates_from_offset vp us : forall u s,
  panEnabled s = true ->
  let s' := run vp (map PanActive (u :: us)) s in
  value (translateY s') = value (offsetY s) + lastTranslation (translationY u) us
  /\ animation (translateY s') = None
  /\ offsetY s' = offsetY s
  /\ panEnabled s' = true.
Proof.
  induction us as [|u' us IH]; intros u s En; cbv zeta.
  - cbn [map run fold_left step lastTranslation]. rewrite En. repeat split.
    exact En.
  - change (map PanActive (u :: u' :: us))
      with (PanActive u :: map PanActive (u' :: us)).
    rewrite run_cons. cbn [step]. rewrite En.
    assert (En' : panEnabled (onActive vp u s) = true) by exact En.
    destruct (IH u' (onActive vp u s) En') as (H1 & H2 & H3 & H4).
    cbn [lastTranslation]. rewrite H1, H3. repeat split; assumption.
Qed.

(** X3 (pan handlers, start and updates): a gesture takes the bubble over
    from where it is. The start cancels whatever animation owns [translateY]
    and takes the current position as the base offset; every update then puts
    the bubble at that base plus the translation of the update, so after any
    number of updates the position is the starting position plus the
    translation of the last one (the updates do not add up), and [translateY]
    is under no animation. *)
Theorem gesture_moves_from_current_position vp s u us :
  panEnabled s = true ->
  let s' := run vp (PanStart :: map PanActive (u :: us)) s in
  value (translateY s')
  = value (translateY s) + lastTranslation (translationY u) us
  /\ animation (translateY s') = None
  /\ value (offsetY s') = value (translateY s)
  /\ animation (translateY (step vp PanStart s)) = None
  /\ value (translateY (step vp PanStart s)) = value (translateY s).
Proof.
  intro En. cbv zeta. rewrite run_cons.
  assert (E : step vp PanStart s = onStart s) by (cbn [step]; now rewrite En).
  rewrite E.
  assert (En' : panEnabled (onStart s) = true) by exact En.
  destruct (updates_from_offset vp us u (onStart s) En') as (H1 & H2 & H3 & _).
  rewrite H1, H3. repeat split. exact H2.
Qed.

Lemma gesture_moves_from_current_position_witness :
  value
    (translateY
       (run vp0
          (PanStart
           :: map PanActive
                [{| translationY := 40; velocityY := 0 |};
                 {| translationY := 90; velocityY := 0 |}])
          (dragged 100)))
  = value (translateY (dragged 100)) + 90.
Proof.
  apply (gesture_moves_from_current_position vp0 (dragged 100)
           {| translationY := 40; velocityY := 0 |}
           [{| translationY := 90; velocityY := 0 |}]).
  reflexivity.
Defined.

Lemma step_keeps_visible vp ev s :
  isVisibleChanged ev = false -> visible (step vp ev s) = visible s.
Proof.
  intro N. destruct ev as [|evt|evt| |v|k|dt|c|]; cbn [step];
    try discriminate.
  - destruct (panEnabled s); reflexivity.
  - destruct (panEnabled s); reflexivity.
  - destruct (panEnabled s); [|reflexivity]. apply onFinish_rest.
  - destruct (touchable s); reflexivity.
  - reflexivity.
  - apply frame_rest.
  - apply settleCell_rest.
  - unfold runNextJs. destruct (jsQueue s) as [|[k|] q]; reflexivity.
Qed.

(** X5 (effect on [visible] at mount): an overlay mounted with a falsy
    [visible] runs the hide branch of the effect, and so calls [reset] once
    although nothing was ever shown: the first frame at 150 ms or later
    followed by the JS thread's turn makes that call. Mounted visible, it
    owes no call. *)
Theorem mount_hidden_calls_reset vp v k opacity dt :
  isDismissCb (callbackOf opacity) = true ->
  150 <= dt ->
  (truthy v = false ->
   resetCalls (mount v k opacity) = 0%nat
   /\ resetCalls (run vp [Frame dt; RunJS] (mount v k opacity)) = 1%nat)
  /\ (truthy v = true ->
      forall evs, forallb (fun ev => negb (isVisibleChanged ev)) evs = true ->
      resetCalls (run vp evs (mount v k opacity)) = 0%nat).
Proof.
  intros O Hdt. split.
  - intro F. split; [unfold mount, visibleEffect, fadeScreen;
                     destruct v as [[|]|]; reflexivity|].
    assert (M : mount v k opacity
                = fadeScreen false
                    {| offsetY := useSharedValue 0;
                       translateY := useSharedValue 0;
                       scale := useSharedValue 1;
                       showScreen := useSharedValue 0;
                       overlayOpacity := opacity; visible := v; overlay := k;
                       jsQueue := []; resetCalls := 0%nat;
                       keyboardDismissals := 0%nat |}).
    { unfold mount, visibleEffect. destruct v as [[|]|];
        try discriminate; reflexivity. }
    rewrite M. cbn [run fold_left step]. unfold runNextJs.
    rewrite frame_jsQueue. unfold fadeScreen.
    cbn [offsetY translateY scale showScreen overlayOpacity jsQueue
         set_showScreen].
    rewrite advance_timing_done by exact Hdt.
    cbn [advance animation useSharedValue fst snd app runCallback negb].
    destruct (frame_rest dt
                (set_showScreen
                   (animate
                      (withTiming 0
                         (Some {| duration := 150; easing := easeOut |})
                         (Some (hideCallback false))))
                   {| offsetY := useSharedValue 0;
                      translateY := useSharedValue 0;
                      scale := useSharedValue 1;
                      showScreen := useSharedValue 0;
                      overlayOpacity := opacity; visible := v; overlay := k;
                      jsQueue := []; resetCalls := 0%nat;
                      keyboardDismissals := 0%nat |})) as (_ & _ & R).
    cbn [runJs resetCalls]. now rewrite R.
  - intros T evs NV.
    pose proof (resetBudget_run vp evs (mount v k opacity)
                  (wellFormed_mount v k opacity O) NV) as B.
    assert (M : resetBudget (mount v k opacity) = 0%nat).
    { unfold mount, visibleEffect, fadeScreen, resetBudget, pendingResets,
        owedResets. destruct v as [[|]|]; try discriminate; reflexivity. }
    rewrite M in B. unfold resetBudget in B. lia.
Qed.

Lemma mount_hidden_calls_reset_witness :
  resetCalls (run vp0 [Frame 150; RunJS] (mount None message (useSharedValue 0)))
  = 1%nat.
Proof.
  destruct (mount_hidden_calls_reset vp0 None message (useSharedValue 0) 150)
    as [H _].
  - reflexivity.
  - vm_compute. discriminate.
  - apply H. reflexivity.
Defined.

Lemma settles_keep_fade vp cells : forall s t,
  animation (overlayOpacity s)
  = Some (withTiming 0 (Some dismissTiming) (Some dismissCallback), t) ->
  let s' := run vp (map Settle cells) s in
  animation (overlayOpacity s')
  = Some (withTiming 0 (Some dismissTiming) (Some dismissCallback), t)
  /\ jsQueue s' = jsQueue s /\ visible s' = visible s
  /\ overlay s' = overlay s.
Proof.
  induction cells as [|c cells IH]; intros s t A; cbv zeta;
    [repeat split; assumption|].
  cbn [map]. rewrite run_cons. cbn [step].
  destruct (settleCell_rest c s) as (E1 & E2 & _ & E4).
  assert (A' : animation (overlayOpacity (settleCell c s))
               = Some (withTiming 0 (Some dismissTiming)
                         (Some dismissCallback), t)).
  { destruct c; cbn; try assumption. unfold settle. now rewrite A. }
  destruct (IH (settleCell c s) t A') as (H1 & H2 & H3 & H4).
  repeat split; congruence.
Qed.

Lemma fade_end_sets_none vp s t dt :
  wellFormed s = true ->
  truthy (visible s) = true ->
  jsQueue s = [] ->
  animation (overlayOpacity s)
  = Some (withTiming 0 (Some dismissTiming) (Some dismissCallback), t) ->
  200 <= t + dt ->
  overlay (run vp [Frame dt; RunJS] s) = none
  /\ translateY (run vp [Frame dt; RunJS] s) = fst (advance dt (translateY s)).
Proof.
  intros W V Q0 A H.
  apply wellFormed_spec in W. destruct W as (W1 & W2 & W3 & W4 & W5 & W6).
  cbn [run fold_left step]. unfold runNextJs. rewrite frame_jsQueue, Q0.
  destruct (advance_callback_none dt _ W1) as [_ ->].
  destruct (advance_callback_none dt _ W2) as [_ ->].
  destruct (advance_callback_none dt _ W3) as [_ ->].
  destruct (advance_callback_none dt _ (W6 V)) as [_ ->].
  rewrite (advance_timing_ends dt 0 (Some dismissTiming) dismissCallback t _ A H).
  cbn [app runCallback runJs set_overlay overlay translateY].
  split; [reflexivity|apply frame_translateY].
Qed.

(** X7 (pan release, fling branch): the end of a fling is decided by the
    fade alone. The decay that carries the bubble away has no callback, and
    when the fade of the opacity ends (the first frame at 200 ms or later) and
    the JS thread runs, the overlay kind becomes 'none' whether the decay has
    come to rest before or not; where it has not, the kind is 'none' while
    [translateY] is still under the decay, carrying the release velocity. *)
Theorem fling_end_does_not_wait_for_decay vp evt s dt cells :
  wellFormed s = true ->
  panEnabled s = true ->
  jsQueue s = [] ->
  halfScreenHeight vp < finalYPosition evt ->
  0 < value (translateY s) ->
  1000 < velocityY evt ->
  200 <= dt ->
  let s0 := step vp (PanFinish evt) s in
  callbackOf (translateY s0) = None
  /\ overlay (run vp (map Settle cells ++ [Frame dt; RunJS]) s0) = none
  /\ (overlay (run vp [Frame dt; RunJS] s0) = none
      /\ animation (translateY (run vp [Frame dt; RunJS] s0))
         = Some (withDecay {| decayVelocity := velocityY evt |}, 0 + dt)).
Proof.
  intros W En Q0 Hp Ht Hv Hdt.
  destruct (panEnabled_true s En) as [V K].
  assert (C : commitsToDismiss vp evt s = true)
    by (apply commitsToDismiss_true; split; assumption).
  cbv zeta. cbn [step]. rewrite En.
  pose proof (wellFormed_onFinish vp evt s W) as W0.
  destruct (onFinish_rest vp evt s) as (E1 & E2 & _ & E4 & _).
  assert (A : animation (overlayOpacity (onFinish vp evt s))
              = Some (withTiming 0 (Some dismissTiming)
                        (Some dismissCallback), 0))
    by (unfold onFinish; now rewrite C).
  assert (D : animation (translateY (onFinish vp evt s))
              = Some (withDecay {| decayVelocity := velocityY evt |}, 0)).
  { unfold onFinish. rewrite C. apply Qgtb_true in Hv.
    cbn [translateY set_translateY animate animation]. now rewrite Hv. }
  assert (H200 : 200 <= 0 + dt) by lra.
  split; [|split].
  - apply wellFormed_spec in W0. apply W0.
  - rewrite run_app.
    destruct (settles_keep_fade vp cells (onFinish vp evt s) 0 A)
      as (A' & Q' & V' & _).
    apply (fade_end_sets_none vp _ 0 dt); try assumption.
    + now apply wellFormed_run.
    + congruence.
    + congruence.
  - destruct (fade_end_sets_none vp (onFinish vp evt s) 0 dt W0)
      as [O T]; try assumption; try congruence.
    split; [exact O|]. rewrite T. unfold advance. now rewrite D.
Qed.

Lemma fling_end_does_not_wait_for_decay_witness :
  overlay
    (run vp0 [Frame 200; RunJS]
       (step vp0 (PanFinish {| translationY := 500; velocityY := 1500 |})
          (dragged 500)))
  = none.
Proof.
  destruct (fling_end_does_not_wait_for_decay vp0
              {| translationY := 500; velocityY := 1500 |} (dragged 500) 200 [])
    as (_ & _ & H & _).
  - reflexivity.
  - reflexivity.
  - reflexivity.
  - vm_compute. reflexivity.
  - vm_compute. reflexivity.
  - vm_compute. reflexivity.
  - vm_compute. discriminate.
  - exact H.
Defined.

Lemma step_keeps_keyboard vp ev s :
  isVisibleChanged ev = false ->
  keyboardDismissals (step vp ev s) = keyboardDismissals s.
Proof.
  intro N. destruct ev as [|evt|evt| |v|k|dt|c|]; cbn [step];
    try discriminate.
  - destruct (panEnabled s); reflexivity.
  - destruct (panEnabled s); reflexivity.
  - destruct (panEnabled s); [|reflexivity]. unfold onFinish.
    destruct (commitsToDismiss vp evt s); reflexivity.
  - destruct (touchable s); reflexivity.
  - reflexivity.
  - unfold frame. destruct (advance dt (offsetY s)), (advance dt (translateY s)),
      (advance dt (scale s)), (advance dt (showScreen s)),
      (advance dt (overlayOpacity s)). reflexivity.
  - destruct c; reflexivity.
  - unfold runNextJs. destruct (jsQueue s) as [|[k|] q]; reflexivity.
Qed.

Lemma keyboard_count vp evs : forall s,
  keyboardDismissals (run vp evs s)
  = (keyboardDismissals s + showEffects (visible s) evs)%nat.
Proof.
  induction evs as [|ev evs IH]; intro s; [cbn; lia|].
  rewrite run_cons, IH.
  destruct (isVisibleChanged ev) eqn:V.
  - destruct ev; try discriminate. cbn [step showEffects].
    unfold visibleChanged.
    destruct (optionBool_eqb v (visible s)); [reflexivity|].
    unfold visibleEffect, fadeScreen. destruct v as [[|]|]; cbn; lia.
  - rewrite (step_keeps_keyboard vp ev s V), (step_keeps_visible vp ev s V).
    destruct ev; try discriminate; reflexivity.
Qed.

(** X8 (effect on [visible], the keyboard): the keyboard is dismissed once
    each time the overlay is shown and never otherwise: over any run of events
    from the mount, the calls of [Keyboard.dismiss] are exactly the runs of
    the effect with a truthy [visible], the one at a visible mount included;
    hides, gestures, taps, frames and JS steps make none. *)
Theorem keyboard_dismissed_once_per_show vp v k opacity evs :
  keyboardDismissals (run vp evs (mount v k opacity))
  = ((if truthy v then 1 else 0) + showEffects v evs)%nat.
Proof.
  rewrite keyboard_count.
  unfold mount, visibleEffect, fadeScreen. destruct v as [[|]|]; reflexivity.
Qed.



End LifeFacts.

(** * The overlay as the libraries run it: cancelled animations, stale
      [enabled] *)

Module LiveFacts.

Import Overlay.
Import OverlayLife.
Import Live.
Import HandlerFacts.
Import RunFacts.

Lemma runLive_cons vp ev evs l :
  runLive vp (ev :: evs) l = runLive vp evs (stepLive vp ev l).
Proof. reflexivity. Qed.

Lemma wellFormed_handOver calls s : wellFormed (handOver calls s) = wellFormed s.
Proof. reflexivity. Qed.

Lemma wellFormed_onStart s : wellFormed s = true -> wellFormed (onStart s) = true.
Proof.
  intro W. apply wellFormed_spec in W. destruct W as (W1 & W2 & W3 & W4 & W5 & W6).
  wf_split; auto.
Qed.

Lemma wellFormed_onActive vp evt s :
  wellFormed s = true -> wellFormed (onActive vp evt s) = true.
Proof.
  intro W. apply wellFormed_spec in W. destruct W as (W1 & W2 & W3 & W4 & W5 & W6).
  wf_split; auto.
Qed.

Lemma wellFormed_stepLive vp ev l :
  wellFormed (state l) = true -> wellFormed (state (stepLive vp ev l)) = true.
Proof.
  intro W. destruct ev as [[|evt|evt| |v|k|dt|c|]|]; cbn [stepLive].
  - destruct (enabledAsRendered l); [|assumption]. now apply wellFormed_onStart.
  - destruct (enabledAsRendered l); [|assumption]. now apply wellFormed_onActive.
  - destruct (enabledAsRendered l); [|assumption]. now apply wellFormed_onFinish.
  - destruct (touchable (state l)); exact W.
  - destruct (optionBool_eqb v (visible (state l))) eqn:E; [assumption|].
    cbn [state]. now apply wellFormed_visibleChanged.
  - exact W.
  - cbn [state]. now apply wellFormed_frame.
  - now apply wellFormed_settleCell.
  - now apply wellFormed_runNextJs.
  - exact W.
Qed.

Lemma wellFormed_runLive vp evs : forall l,
  wellFormed (state l) = true -> wellFormed (state (runLive vp evs l)) = true.
Proof.
  induction evs as [|ev evs IH]; intros l W; [exact W|].
  rewrite runLive_cons. apply IH. now apply wellFormed_stepLive.
Qed.


(** ** The calls of [reset], cancelled animations included *)

Lemma cancelledCalls_writing cells h l :
  cancelledCalls (writing cells h l)
  = cancelledCalls l ++ flat_map runCallback (callbacksOn cells (state l)).
Proof. unfold cancelledCalls. cbn [writing cancelled]. apply flat_map_app. Qed.

Lemma gesture_cancels_no_reset s :
  wellFormed s = true ->
  forall cells,
    In cells [startWrites; activeWrites;
              [cTranslateY; cOverlayOpacity];
              [cTranslateY; cScale; cOverlayOpacity]] ->
    filter isReset (flat_map runCallback (callbacksOn cells s)) = [].
Proof.
  intro W. apply wellFormed_spec in W.
  destruct W as (W1 & W2 & W3 & W4 & W5 & W6).
  intros cells [<-|[<-|[<-|[<-|[]]]]];
    unfold callbacksOn, startWrites, activeWrites; cbn [flat_map cell];
    rewrite ?W1, ?W2, ?W3;
    destruct (callbackOf (overlayOpacity s)) as [[|b]|]; try discriminate;
    reflexivity.
Qed.

Lemma fade_cancels_owed show s :
  wellFormed s = true ->
  List.length
    (filter isReset (flat_map runCallback (callbacksOn (fadeWrites show) s)))
  = owedResets s
  /\ forall c, In c (flat_map runCallback (callbacksOn (fadeWrites show) s)) ->
               isSetOverlay c = false.
Proof.
  intro W. apply wellFormed_spec in W.
  destruct W as (W1 & W2 & W3 & W4 & W5 & W6).
  unfold callbacksOn, fadeWrites, owedResets.
  destruct show; cbn [flat_map cell]; rewrite ?W1, ?W2, ?W3;
    destruct (callbackOf (showScreen s)) as [[|[|]]|]; try discriminate;
    cbn; (split; [reflexivity|]); intros c H; intuition (subst; reflexivity).
Qed.

Lemma resetsDue_writing cells h l :
  resetBudget (h (state l)) = resetBudget (state l) ->
  filter isReset (flat_map runCallback (callbacksOn cells (state l))) = [] ->
  resetsDue (writing cells h l) = resetsDue l.
Proof.
  intros B C. unfold resetsDue, cancelledResets.
  rewrite cancelledCalls_writing, filter_app, C, app_nil_r.
  cbn [writing state]. now rewrite B.
Qed.

(** Every event keeps the calls of [reset] made, waiting or owed, but the
    effect that hides the overlay, which adds one. *)
Lemma resetsDue_stepLive vp ev l :
  wellFormed (state l) = true ->
  resetsDue (stepLive vp ev l)
  = (resetsDue l + hideEffects (visible (state l)) (baseEvents [ev]))%nat.
Proof.
  intro W.
  destruct ev as [[|evt|evt| |v|k|dt|c|]|];
    cbn [stepLive baseEvents flat_map app hideEffects];
    rewrite ?Nat.add_0_r.
  - destruct (enabledAsRendered l); [|reflexivity].
    apply resetsDue_writing; [reflexivity|].
    apply gesture_cancels_no_reset; cbn; auto.
  - destruct (enabledAsRendered l); [|reflexivity].
    apply resetsDue_writing; [reflexivity|].
    apply gesture_cancels_no_reset; cbn; auto.
  - destruct (enabledAsRendered l); [|reflexivity].
    apply resetsDue_writing.
    + destruct (onFinish_rest vp evt (state l)) as (_ & E2 & E3 & _ & E5).
      unfold resetBudget, pendingResets, owedResets. now rewrite E2, E3, E5.
    + apply gesture_cancels_no_reset; [assumption|].
      unfold finishWrites. destruct (commitsToDismiss vp evt (state l));
        cbn; auto.
  - destruct (touchable (state l)); reflexivity.
  - destruct (optionBool_eqb v (visible (state l))) eqn:E; [lia|].
    destruct (fade_cancels_owed (truthy v) (state l) W) as [Ow _].
    unfold resetsDue, cancelledResets, cancelledCalls. cbn [state cancelled].
    rewrite flat_map_app, filter_app, length_app, Ow.
    unfold visibleChanged. rewrite E.
    unfold resetBudget, pendingResets.
    destruct v as [[|]|]; cbn; lia.
  - reflexivity.
  - unfold resetsDue at 1, cancelledResets at 1. cbn [state cancelled].
    change (frame dt (handOver (cancelledCalls l) (state l)))
      with (step vp (Frame dt) (handOver (cancelledCalls l) (state l))).
    rewrite resetBudget_step by (trivial).
    unfold resetsDue, cancelledResets, resetBudget, pendingResets, owedResets.
    cbn [handOver jsQueue resetCalls showScreen cancelledCalls flat_map
         filter List.length].
    rewrite filter_app, length_app. cbn. lia.
  - unfold resetsDue, cancelledResets. cbn [onState state cancelledCalls cancelled].
    change (settleCell c (state l)) with (step vp (Settle c) (state l)).
    now rewrite resetBudget_step.
  - unfold resetsDue, cancelledResets. cbn [onState state cancelledCalls cancelled].
    change (runNextJs (state l)) with (step vp RunJS (state l)).
    now rewrite resetBudget_step.
  - reflexivity.
Qed.


Lemma visible_stepLive vp ev l :
  visible (state (stepLive vp ev l))
  = match ev with
    | Of (VisibleChanged v) => v
    | _ => visible (state l)
    end.
Proof.
  destruct ev as [[|evt|evt| |v|k|dt|c|]|]; cbn [stepLive].
  - destruct (enabledAsRendered l); reflexivity.
  - destruct (enabledAsRendered l); reflexivity.
  - destruct (enabledAsRendered l); [|reflexivity]. apply onFinish_rest.
  - destruct (touchable (state l)); reflexivity.
  - destruct (optionBool_eqb v (visible (state l))) eqn:E.
    + destruct v as [[|]|], (visible (state l)) as [[|]|];
        (reflexivity || discriminate).
    + cbn [state]. unfold visibleChanged. rewrite E.
      destruct v as [[|]|]; reflexivity.
  - reflexivity.
  - cbn [state]. now destruct (frame_rest dt (handOver (cancelledCalls l) (state l)))
      as (-> & _).
  - apply settleCell_rest.
  - cbn [onState state]. unfold runNextJs.
    destruct (jsQueue (state l)) as [|[k|] q]; reflexivity.
  - reflexivity.
Qed.

Lemma hideEffects_same v v' evs :
  optionBool_eqb v' v = true -> hideEffects v' evs = hideEffects v evs.
Proof.
  intro E. assert (v' = v) as ->; [|reflexivity].
  destruct v as [[|]|], v' as [[|]|]; (reflexivity || discriminate).
Qed.

Lemma baseEvents_cons ev evs :
  baseEvents (ev :: evs)
  = match ev with Of e => e :: baseEvents evs | Render => baseEvents evs end.
Proof. destruct ev; reflexivity. Qed.

Lemma resetsDue_runLive vp evs : forall l,
  wellFormed (state l) = true ->
  resetsDue (runLive vp evs l)
  = (resetsDue l + hideEffects (visible (state l)) (baseEvents evs))%nat.
Proof.
  induction evs as [|ev evs IH]; intros l W; [cbn; lia|].
  rewrite runLive_cons, IH by now apply wellFormed_stepLive.
  rewrite resetsDue_stepLive by assumption.
  rewrite visible_stepLive, (baseEvents_cons ev evs).
  destruct ev as [[|evt|evt| |v|k|dt|c|]|]; cbn [hideEffects];
    change (baseEvents [Render]) with (@nil Event);
    repeat match goal with
    | |- context [baseEvents [Of ?e]] =>
        change (baseEvents [Of e]) with [e]
    end; cbn [hideEffects]; try lia.
  destruct (optionBool_eqb v (visible (state l))) eqn:E.
  - rewrite (hideEffects_same _ _ _ E). lia.
  - lia.
Qed.

(** [reset] runs on the JS thread only. *)
Lemma reset_runs_on_js vp ev l :
  ev <> Of RunJS ->
  resetCalls (state (stepLive vp ev l)) = resetCalls (state l).
Proof.
  intro N. destruct ev as [[|evt|evt| |v|k|dt|c|]|]; cbn [stepLive].
  - destruct (enabledAsRendered l); reflexivity.
  - destruct (enabledAsRendered l); reflexivity.
  - destruct (enabledAsRendered l); [|reflexivity]. apply onFinish_rest.
  - destruct (touchable (state l)); reflexivity.
  - destruct (optionBool_eqb v (visible (state l))); [reflexivity|].
    apply visibleChanged_frame_of_state.
  - reflexivity.
  - cbn [state].
    now destruct (frame_rest dt (handOver (cancelledCalls l) (state l)))
      as (_ & _ & ->).
  - apply settleCell_rest.
  - contradiction.
  - reflexivity.
Qed.


(** ** The overlay kind during a dismissal *)

(** A frame that ends no animation on the opacity hands no [setOverlay]
    over, when none was due. *)
Lemma frame_queue_quiet dt l :
  wellFormed (state l) = true ->
  noSetOverlayDue l ->
  snd (advance dt (overlayOpacity (state l))) = [] ->
  noSetOverlayPending (frame dt (handOver (cancelledCalls l) (state l))).
Proof.
  intros W [P C] C5. apply wellFormed_spec in W.
  destruct W as (W1 & W2 & W3 & W4 & W5 & W6).
  unfold noSetOverlayPending. rewrite frame_jsQueue.
  cbn [handOver jsQueue offsetY translateY scale showScreen overlayOpacity].
  rewrite C5.
  destruct (advance_callback_none dt _ W1) as [_ ->].
  destruct (advance_callback_none dt _ W2) as [_ ->].
  destruct (advance_callback_none dt _ W3) as [_ ->].
  cbn [app]. rewrite app_nil_r. intros c Hc.
  apply in_app_or in Hc. destruct Hc as [Hc|Hc].
  - apply in_app_or in Hc. destruct Hc as [Hc|Hc]; [now apply P|now apply C].
  - now apply (hide_calls_no_setOverlay dt (showScreen (state l))).
Qed.

Lemma noSetOverlayDue_frame dt l :
  wellFormed (state l) = true ->
  noSetOverlayDue l ->
  snd (advance dt (overlayOpacity (state l))) = [] ->
  noSetOverlayDue
    {| state := frame dt (handOver (cancelledCalls l) (state l));
       cancelled := []; renderedOverlay := renderedOverlay l |}.
Proof.
  intros W D C5. split; [now apply frame_queue_quiet|intros c []].
Qed.

Lemma noSetOverlayDue_visibleChanged v l :
  wellFormed (state l) = true ->
  noSetOverlayDue l ->
  noSetOverlayDue
    {| state := visibleChanged v (state l);
       cancelled :=
         cancelled l ++ callbacksOn (fadeWrites (truthy v)) (state l);
       renderedOverlay := overlay (state l) |}.
Proof.
  intros W [P C].
  destruct (visibleChanged_frame_of_state v (state l)) as (_ & _ & E3 & _).
  split.
  - unfold noSetOverlayPending. cbn [state]. now rewrite E3.
  - unfold cancelledCalls. cbn [cancelled]. rewrite flat_map_app.
    intros c Hc. apply in_app_or in Hc. destruct Hc as [Hc|Hc]; [now apply C|].
    now apply (fade_cancels_owed (truthy v) (state l) W).
Qed.

Lemma noSetOverlayDue_runNextJs l :
  noSetOverlayDue l ->
  noSetOverlayDue (onState runNextJs l)
  /\ overlay (runNextJs (state l)) = overlay (state l).
Proof.
  intros [P C]. unfold noSetOverlayDue, noSetOverlayPending, cancelledCalls.
  cbn [onState state cancelled]. unfold runNextJs.
  destruct (jsQueue (state l)) as [|c q] eqn:EQ.
  - rewrite EQ. repeat split; [intros c []|exact C].
  - assert (Hc : isSetOverlay c = false)
      by (apply P; rewrite EQ; now left).
    destruct c as [k|]; [discriminate|]. cbn.
    repeat split; [|exact C].
    intros c Hc'. apply P. rewrite EQ. now right.
Qed.

Lemma noSetOverlayDue_settleCell c l :
  noSetOverlayDue l -> noSetOverlayDue (onState (settleCell c) l).
Proof.
  intros [P C]. destruct (settleCell_rest c (state l)) as (_ & E2 & _).
  split; [|exact C].
  unfold noSetOverlayPending. cbn [onState state]. now rewrite E2.
Qed.

Lemma fading_stepLive vp k ev l :
  wellFormed (state l) = true ->
  undisturbed ev = true ->
  fading k l -> fading k (stepLive vp ev l).
Proof.
  intros W G [(Ek & D & t & Ao)|Ao].
  - destruct ev as [[|evt|evt| |v|k'|dt|c|]|]; cbn [stepLive undisturbed] in *;
      try discriminate.
    + destruct (optionBool_eqb v (visible (state l)));
        [left; split; [assumption|split; [assumption|now exists t]]|].
      destruct (visibleChanged_frame_of_state v (state l)) as (E1 & E2 & _).
      left. cbn [state]. rewrite E1, E2.
      split; [assumption|split; [|now exists t]].
      now apply noSetOverlayDue_visibleChanged.
    + destruct (Qle_bool 200 (t + dt)) eqn:E.
      * right. cbn [state]. rewrite frame_overlayOpacity.
        cbn [handOver overlayOpacity]. unfold advance. rewrite Ao.
        cbn [timingDuration dismissTiming duration]. now rewrite E.
      * assert (C5 : snd (advance dt (overlayOpacity (state l))) = []).
        { unfold advance. rewrite Ao.
          cbn [timingDuration dismissTiming duration]. now rewrite E. }
        left. cbn [state].
        destruct (frame_rest dt (handOver (cancelledCalls l) (state l)))
          as (_ & -> & _).
        split; [assumption|split; [now apply noSetOverlayDue_frame|]].
        exists (t + dt). rewrite frame_overlayOpacity.
        cbn [handOver overlayOpacity]. unfold advance. rewrite Ao.
        cbn [timingDuration dismissTiming duration]. now rewrite E.
    + left. cbn [onState state].
      destruct (settleCell_rest c (state l)) as (-> & _).
      split; [assumption|split; [now apply noSetOverlayDue_settleCell|]].
      exists t. destruct c; cbn; unfold settle; rewrite ?Ao; cbn; rewrite ?Ao;
        reflexivity.
    + destruct (noSetOverlayDue_runNextJs l D) as [D' E].
      left. cbn [onState state] in *. rewrite E.
      split; [assumption|split; [assumption|]].
      exists t. unfold runNextJs.
      destruct (jsQueue (state l)) as [|[k'|] q]; assumption.
    + left. split; [assumption|split; [assumption|now exists t]].
  - right.
    destruct ev as [[|evt|evt| |v|k'|dt|c|]|]; cbn [stepLive undisturbed] in *;
      try discriminate.
    + destruct (optionBool_eqb v (visible (state l))); [assumption|].
      cbn [state].
      now destruct (visibleChanged_frame_of_state v (state l)) as (-> & _).
    + cbn [state]. rewrite frame_overlayOpacity.
      cbn [handOver overlayOpacity]. now rewrite Ao.
    + cbn [onState state]. destruct c; cbn; try assumption. now rewrite Ao.
    + cbn [onState state]. unfold runNextJs.
      destruct (jsQueue (state l)) as [|[k'|] q]; assumption.
    + assumption.
Qed.

Lemma fading_runLive vp k evs : forall l,
  wellFormed (state l) = true ->
  forallb undisturbed evs = true ->
  fading k l -> fading k (runLive vp evs l).
Proof.
  induction evs as [|ev evs IH]; intros l W G T; [exact T|].
  cbn [forallb] in G. apply andb_prop in G. destruct G as [G1 G2].
  rewrite runLive_cons.
  apply IH; [now apply wellFormed_stepLive|assumption|].
  now apply fading_stepLive.
Qed.


Lemma timedFading_stepLive vp k h ev l :
  wellFormed (state l) = true ->
  undisturbed ev = true ->
  timedFading k h l -> timedFading k h (stepLive vp ev l).
Proof.
  intros W G [(Ek & D & t & Ao & At)|At].
  - destruct ev as [[|evt|evt| |v|k'|dt|c|]|]; cbn [stepLive undisturbed] in *;
      try discriminate.
    + destruct (optionBool_eqb v (visible (state l))) eqn:E;
        [left; split; [assumption|split; [assumption|now exists t]]|].
      destruct (visibleChanged_frame_of_state v (state l)) as (E1 & E2 & _).
      destruct (truthy v) eqn:T.
      * right. cbn [state]. unfold visibleChanged. rewrite E.
        destruct v as [[|]|]; try discriminate. reflexivity.
      * left. cbn [state]. rewrite E1, E2.
        split; [assumption|split].
        -- pose proof (noSetOverlayDue_visibleChanged v l W D) as D'.
           now rewrite T in D'.
        -- exists t. split; [assumption|].
           unfold visibleChanged. rewrite E.
           destruct v as [[|]|]; try discriminate; assumption.
    + destruct (Qle_bool 200 (t + dt)) eqn:E.
      * right. cbn [state]. rewrite frame_translateY.
        cbn [handOver translateY]. unfold advance. rewrite At.
        cbn [timingDuration dismissTiming duration]. now rewrite E.
      * assert (C5 : snd (advance dt (overlayOpacity (state l))) = []).
        { unfold advance. rewrite Ao.
          cbn [timingDuration dismissTiming duration]. now rewrite E. }
        left. cbn [state].
        destruct (frame_rest dt (handOver (cancelledCalls l) (state l)))
          as (_ & -> & _).
        split; [assumption|split; [now apply noSetOverlayDue_frame|]].
        exists (t + dt). rewrite frame_overlayOpacity, frame_translateY.
        cbn [handOver overlayOpacity translateY]. unfold advance.
        rewrite Ao, At.
        cbn [timingDuration dismissTiming duration]. rewrite E.
        split; reflexivity.
    + left. cbn [onState state].
      destruct (settleCell_rest c (state l)) as (-> & _).
      split; [assumption|split; [now apply noSetOverlayDue_settleCell|]].
      exists t. destruct c; cbn; unfold settle; rewrite ?Ao, ?At;
        cbn; rewrite ?Ao, ?At; split; reflexivity.
    + destruct (noSetOverlayDue_runNextJs l D) as [D' E].
      left. cbn [onState state] in *. rewrite E.
      split; [assumption|split; [assumption|]].
      exists t. unfold runNextJs.
      destruct (jsQueue (state l)) as [|[k'|] q]; split; assumption.
    + left. split; [assumption|split; [assumption|now exists t]].
  - right.
    destruct ev as [[|evt|evt| |v|k'|dt|c|]|]; cbn [stepLive undisturbed] in *;
      try discriminate.
    + destruct (optionBool_eqb v (visible (state l))) eqn:E; [assumption|].
      cbn [state]. unfold visibleChanged. rewrite E.
      destruct v as [[|]|]; [reflexivity|assumption..].
    + cbn [state]. rewrite frame_translateY.
      cbn [handOver translateY]. unfold advance. now rewrite At.
    + cbn [onState state]. destruct c; cbn; try assumption.
      unfold settle. now rewrite At.
    + cbn [onState state]. unfold runNextJs.
      destruct (jsQueue (state l)) as [|[k'|] q]; assumption.
    + assumption.
Qed.

Lemma timedFading_runLive vp k h evs : forall l,
  wellFormed (state l) = true ->
  forallb undisturbed evs = true ->
  timedFading k h l -> timedFading k h (runLive vp evs l).
Proof.
  induction evs as [|ev evs IH]; intros l W G T; [exact T|].
  cbn [forallb] in G. apply andb_prop in G. destruct G as [G1 G2].
  rewrite runLive_cons.
  apply IH; [now apply wellFormed_stepLive|assumption|].
  now apply timedFading_stepLive.
Qed.

Lemma enabledAsRendered_true l :
  enabledAsRendered l = true ->
  truthy (visible (state l)) = true /\ renderedOverlay l = message.
Proof.
  unfold enabledAsRendered, touchable. rewrite andb_true_iff. intros [V K].
  split; [assumption|].
  destruct (renderedOverlay l); (reflexivity || discriminate).
Qed.

Lemma runNextJs_translateY s : translateY (runNextJs s) = translateY s.
Proof. unfold runNextJs. destruct (jsQueue s) as [|[k|] q]; reflexivity. Qed.

(** The first frame after nothing was waiting: what it hands to the JS
    thread is what the animation on the opacity hands over. *)
Lemma frame_queue_from_idle dt l :
  wellFormed (state l) = true ->
  truthy (visible (state l)) = true ->
  jsQueue (state l) = [] ->
  jsQueue (frame dt (handOver (cancelledCalls l) (state l)))
  = cancelledCalls l ++ snd (advance dt (overlayOpacity (state l))).
Proof.
  intros W V Q0. apply wellFormed_spec in W.
  destruct W as (W1 & W2 & W3 & W4 & W5 & W6).
  rewrite frame_jsQueue.
  cbn [handOver jsQueue offsetY translateY scale showScreen overlayOpacity].
  rewrite Q0.
  destruct (advance_callback_none dt _ W1) as [_ ->].
  destruct (advance_callback_none dt _ W2) as [_ ->].
  destruct (advance_callback_none dt _ W3) as [_ ->].
  destruct (advance_callback_none dt _ (W6 V)) as [_ ->].
  reflexivity.
Qed.


(** C3 fails as stated, in two ways. After a fling (here a release at 1500
    points per second from 500 down) the overlay kind becomes 'none' when
    the fade of the opacity ends, while the position is still under its
    decay: the dismissal animation has not completed. And when a new gesture
    takes the bubble during the fade of a timed dismissal, the update assigns
    a number to the opacity, the engine calls the callback of the fade it
    cancels on the next frame, and the kind becomes 'none' 16 ms after the
    release, with no animation completed and the opacity at 0.75. *)
Lemma kind_set_before_dismissal_animation_ends :
  let fling :=
    stepLive vp0 (Of (PanFinish {| translationY := 500; velocityY := 1500 |}))
      (pulled 500) in
  let flung := runLive vp0 [Of (Frame 200); Of RunJS] fling in
  let released :=
    stepLive vp0 (Of (PanFinish {| translationY := 500; velocityY := 0 |}))
      (pulled 500) in
  let regrabbed :=
    runLive vp0
      [Of PanStart; Of (PanActive {| translationY := 0; velocityY := 0 |});
       Of (Frame 16); Of RunJS] released in
  (overlay (state fling) = message
   /\ overlay (state flung) = none
   /\ animation (translateY (state flung))
      = Some (withDecay {| decayVelocity := 1500 |}, 0 + 200))
  /\ (overlay (state released) = message
      /\ animation (overlayOpacity (state released))
         = Some (withTiming 0 (Some dismissTiming) (Some dismissCallback), 0)
      /\ overlay (state regrabbed) = none
      /\ overlayOpacity (state regrabbed)
         = {| value := 75 # 100; animation := None |}).
Proof. cbv zeta. repeat split. Qed.

(** C3, amended: a release that commits to dismiss, made while no earlier
    dismissal fade runs on the opacity and no [setOverlay] is due, sets
    nothing itself and hands nothing to the JS thread; it puts the dismissal
    callback on the 200 ms fade of the opacity and none on the position
    animation, and cancels no animation that carries a callback. In every
    run without a new gesture (frames of any length, engine and JS steps,
    renders and changes of [visible]; taps and changes of the kind from
    outside, which are not part of the dismissal, left aside), once the kind
    has changed the fade has run to its end and the opacity rests at 0; when
    the position is timed (velocityY at most 1000) its animation, run in step
    with the fade, is over as well. The first frame at 200 ms or later
    followed by the JS thread's turn sets the kind to 'none'; after a fling
    (velocityY above 1000) it does so while the position is still under the
    decay. *)
Theorem kind_set_when_undisturbed_fade_ends vp evt l :
  wellFormed (state l) = true ->
  enabledAsRendered l = true ->
  callbackOf (overlayOpacity (state l)) = None ->
  noSetOverlayDue l ->
  halfScreenHeight vp < finalYPosition evt ->
  0 < value (translateY (state l)) ->
  let l0 := stepLive vp (Of (PanFinish evt)) l in
  (overlay (state l0) = overlay (state l)
   /\ jsQueue (state l0) = jsQueue (state l)
   /\ cancelled l0 = cancelled l
   /\ callbackOf (overlayOpacity (state l0)) = Some dismissCallback
   /\ callbackOf (translateY (state l0)) = None)
  /\ (forall evs,
       forallb undisturbed evs = true ->
       overlay (state (runLive vp evs l0)) <> overlay (state l) ->
       overlayOpacity (state (runLive vp evs l0)) = useSharedValue 0)
  /\ (velocityY evt <= 1000 ->
      forall evs,
        forallb undisturbed evs = true ->
        overlay (state (runLive vp evs l0)) <> overlay (state l) ->
        animation (translateY (state (runLive vp evs l0))) = None)
  /\ (forall dt, 200 <= dt -> idle l ->
      overlay (state (runLive vp [Of (Frame dt); Of RunJS] l0)) = none)
  /\ (1000 < velocityY evt ->
      forall dt, 200 <= dt -> idle l ->
      animation
        (translateY (state (runLive vp [Of (Frame dt); Of RunJS] l0)))
      = Some (withDecay {| decayVelocity := velocityY evt |}, 0 + dt)).
Proof.
  intros W En Cb D Hp Ht.
  destruct (enabledAsRendered_true l En) as [V K].
  assert (C : commitsToDismiss vp evt (state l) = true)
    by (apply commitsToDismiss_true; split; assumption).
  cbv zeta. cbn [stepLive]. rewrite En.
  pose proof (wellFormed_onFinish vp evt (state l) W) as W0.
  destruct (onFinish_rest vp evt (state l)) as (E1 & E2 & _ & E4 & _).
  pose proof W as W'. apply wellFormed_spec in W'.
  destruct W' as (_ & W2 & _).
  assert (Cn : callbacksOn (finishWrites vp evt (state l)) (state l) = []).
  { unfold finishWrites, callbacksOn. rewrite C. cbn [flat_map cell].
    now rewrite W2, Cb. }
  set (l0 := writing (finishWrites vp evt (state l)) (onFinish vp evt) l).
  assert (S0 : state l0 = onFinish vp evt (state l)) by reflexivity.
  assert (C0 : cancelled l0 = cancelled l).
  { unfold l0. cbn [writing cancelled]. rewrite Cn. apply app_nil_r. }
  assert (D0 : noSetOverlayDue l0).
  { destruct D as [P Cc]. split.
    - unfold noSetOverlayPending. rewrite S0, E2. exact P.
    - unfold cancelledCalls. rewrite C0. exact Cc. }
  assert (A : animation (overlayOpacity (state l0))
              = Some (withTiming 0 (Some dismissTiming)
                        (Some dismissCallback), 0)).
  { rewrite S0. unfold onFinish. now rewrite C. }
  assert (Wl : wellFormed (state l0) = true) by (rewrite S0; exact W0).
  split; [|split; [|split; [|split]]].
  - rewrite S0. repeat split; try assumption.
    + unfold onFinish. now rewrite C.
    + apply wellFormed_spec in W0. apply W0.
  - intros evs G N.
    assert (FU : fading (overlay (state l)) l0).
    { left. split; [now rewrite S0|split; [assumption|now exists 0]]. }
    destruct (fading_runLive vp _ evs l0 Wl G FU)
      as [(Ek & _)|A']; [contradiction|exact A'].
  - intros Hv evs G N.
    assert (TD : timedFading (overlay (state l)) (screenHeight vp) l0).
    { left. split; [now rewrite S0|split; [assumption|]]. exists 0.
      split; [assumption|]. rewrite S0. unfold onFinish. rewrite C.
      apply Qgtb_false in Hv.
      cbn [translateY set_translateY set_overlayOpacity animate animation].
      now rewrite Hv. }
    destruct (timedFading_runLive vp _ _ evs l0 Wl G TD)
      as [(Ek & _)|A']; [contradiction|exact A'].
  - intros dt Hdt [Q0 Cc]. cbn [runLive fold_left stepLive onState state].
    unfold runNextJs. rewrite frame_queue_from_idle;
      [|assumption|rewrite S0; congruence|rewrite S0; congruence].
    unfold cancelledCalls. rewrite C0, Cc. cbn [flat_map app].
    rewrite (advance_timing_ends dt 0 (Some dismissTiming) dismissCallback 0
               _ A) by (cbn; lra).
    reflexivity.
  - intros Hv dt Hdt [Q0 Cc]. cbn [runLive fold_left stepLive onState state].
    rewrite runNextJs_translateY, frame_translateY.
    cbn [handOver translateY].
    rewrite S0. unfold onFinish. rewrite C. apply Qgtb_true in Hv.
    cbn [translateY set_translateY animate]. rewrite Hv.
    reflexivity.
Qed.

Lemma kind_set_when_undisturbed_fade_ends_witness :
  overlay
    (state
       (runLive vp0 [Of (Frame 200); Of RunJS]
          (stepLive vp0
             (Of (PanFinish {| translationY := 500; velocityY := 0 |}))
             (pulled 500))))
  = none.
Proof.
  destruct (kind_set_when_undisturbed_fade_ends vp0
              {| translationY := 500; velocityY := 0 |} (pulled 500))
    as (_ & _ & _ & H & _).
  - reflexivity.
  - reflexivity.
  - reflexivity.
  - split; intros c [].
  - vm_compute. reflexivity.
  - vm_compute. reflexivity.
  - apply (H 200); [vm_compute; discriminate|split; reflexivity].
Defined.


(** ** The calls of [reset] per hide *)

(** C4 fails as stated: [reset] is not only called from the completion of
    the hide animation. The overlay is hidden and shown again before the
    150 ms are over: the show spring replaces the hide animation, which never
    completes, and on the next frame the engine calls the callback of the
    animation it replaced; [reset] is called, 16 ms after the show, while
    [showScreen] is under the spring. *)
Lemma reset_called_without_completion :
  let hiding := stepLive vp0 (Of (VisibleChanged (Some false))) shown in
  let reshown := stepLive vp0 (Of (VisibleChanged (Some true))) hiding in
  let after := runLive vp0 [Of (Frame 16); Of RunJS] reshown in
  animation (showScreen (state hiding))
  = Some (withTiming 0 (Some {| duration := 150; easing := easeOut |})
            (Some (hideCallback false)), 0)
  /\ animation (showScreen (state reshown))
     = Some (withSpring 1 springToVisible, 0)
  /\ resetCalls (state reshown) = 0%nat
  /\ animation (showScreen (state after))
     = Some (withSpring 1 springToVisible, 0 + 16)
  /\ resetCalls (state after) = 1%nat.
Proof. cbv zeta. repeat split. Qed.

Lemma hide_starts vp l v :
  truthy (visible (state l)) = true -> truthy v = false ->
  state (stepLive vp (Of (VisibleChanged v)) l)
  = fadeScreen false
      {| offsetY := offsetY (state l); translateY := translateY (state l);
         scale := scale (state l); showScreen := showScreen (state l);
         overlayOpacity := overlayOpacity (state l);
         visible := v; overlay := overlay (state l);
         jsQueue := jsQueue (state l); resetCalls := resetCalls (state l);
         keyboardDismissals := keyboardDismissals (state l) |}
  /\ cancelled (stepLive vp (Of (VisibleChanged v)) l)
     = cancelled l ++ callbacksOn [cShowScreen] (state l).
Proof.
  intros V F. cbn [stepLive]. unfold visibleChanged, visibleEffect.
  destruct (visible (state l)) as [[|]|]; try discriminate.
  destruct v as [[|]|]; try discriminate; split; reflexivity.
Qed.

(** C4, amended: [reset] is called exactly once for every hide, by the
    callback of the hide animation, and on the JS thread only; the engine
    calls that callback when the animation completes or, when a new show
    replaces the animation first, on the frame after that. When [visible]
    turns from true to false the hide animation (150 ms, ease-out, from the
    current value of [showScreen]) is started with the callback and nothing
    is called or handed over at that moment; from then on, through every run
    of events, the calls of [reset] made, waiting on the JS thread or owed by
    an animation in flight or cancelled add up to the count before, plus one
    for this hide, plus one for each later hide; no event but the JS thread's
    turn makes a call. With nothing else waiting, the first frame at 150 ms
    or later followed by the JS thread's turn makes the one call, and so does
    a show followed by any frame and the JS thread's turn, the hide animation
    then never completing. In the scenario where [visible] goes from false to
    true and back to false before the show spring has settled, the hide
    animation replaces the spring, starts from the current value, and ends
    with exactly one call of [reset]. *)
Theorem hide_calls_reset_once vp l v :
  wellFormed (state l) = true ->
  truthy (visible (state l)) = true ->
  truthy v = false ->
  let l1 := stepLive vp (Of (VisibleChanged v)) l in
  (animation (showScreen (state l1))
   = Some (withTiming 0 (Some {| duration := 150; easing := easeOut |})
             (Some (hideCallback false)), 0)
   /\ value (showScreen (state l1)) = value (showScreen (state l))
   /\ resetCalls (state l1) = resetCalls (state l)
   /\ jsQueue (state l1) = jsQueue (state l)
   /\ cancelled l1 = cancelled l)
  /\ (forall evs,
       resetsDue (runLive vp evs l1)
       = (resetsDue l + 1 + hideEffects v (baseEvents evs))%nat)
  /\ (forall ev l', ev <> Of RunJS ->
       resetCalls (state (stepLive vp ev l')) = resetCalls (state l'))
  /\ (forall dt, 150 <= dt -> idle l ->
      let l2 := runLive vp [Of (Frame dt); Of RunJS] l1 in
      resetCalls (state l2) = S (resetCalls (state l))
      /\ resetsDue l2 = resetCalls (state l2))
  /\ (forall dt, idle l ->
      let l2 :=
        runLive vp [Of (VisibleChanged (Some true)); Of (Frame dt); Of RunJS]
          l1 in
      animation (showScreen (state l2))
      = Some (withSpring 1 springToVisible, 0 + dt)
      /\ resetCalls (state l2) = S (resetCalls (state l))
      /\ resetsDue l2 = resetCalls (state l2))
  /\ (let showing :=
        runLive vp [Of (VisibleChanged (Some true)); Of (Frame 16)] hidden in
      let hiding := stepLive vp (Of (VisibleChanged (Some false))) showing in
      let done := runLive vp [Of (Frame 150); Of RunJS] hiding in
      animation (showScreen (state showing))
      = Some (withSpring 1 springToVisible, 0 + 16)
      /\ animation (showScreen (state hiding))
         = Some (withTiming 0 (Some {| duration := 150; easing := easeOut |})
                   (Some (hideCallback false)), 0)
      /\ value (showScreen (state hiding)) = value (showScreen (state showing))
      /\ resetCalls (state hiding) = resetCalls (state showing)
      /\ animation (showScreen (state done)) = None
      /\ resetCalls (state done) = S (resetCalls (state showing))
      /\ resetsDue done = resetCalls (state done)).
Proof.
  intros W V F. cbv zeta.
  destruct (hide_starts vp l v V F) as [S1 C1].
  pose proof (wellFormed_stepLive vp (Of (VisibleChanged v)) l W) as W1.
  pose proof W as W'. apply wellFormed_spec in W'.
  destruct W' as (_ & _ & _ & _ & _ & W6).
  assert (Cn : callbacksOn [cShowScreen] (state l) = []).
  { unfold callbacksOn. cbn [flat_map cell]. now rewrite (W6 V). }
  rewrite Cn, app_nil_r in C1.
  set (l1 := stepLive vp (Of (VisibleChanged v)) l) in *.
  assert (V1 : visible (state l1) = v).
  { unfold l1. now rewrite visible_stepLive. }
  assert (B1 : resetsDue l1 = (resetsDue l + 1)%nat).
  { unfold resetsDue, cancelledResets, cancelledCalls. rewrite C1, S1.
    unfold resetBudget, pendingResets, owedResets. cbn.
    rewrite (W6 V). lia. }
  assert (Due : forall evs,
             resetsDue (runLive vp evs l1)
             = (resetsDue l + 1 + hideEffects v (baseEvents evs))%nat).
  { intro evs. rewrite resetsDue_runLive by assumption. now rewrite B1, V1. }
  assert (A1 : animation (showScreen (state l1))
               = Some (withTiming 0
                         (Some {| duration := 150; easing := easeOut |})
                         (Some (hideCallback false)), 0))
    by (rewrite S1; reflexivity).
  assert (R1 : resetCalls (state l1) = resetCalls (state l))
    by (rewrite S1; reflexivity).
  assert (Q1 : jsQueue (state l1) = jsQueue (state l))
    by (rewrite S1; reflexivity).
  split; [|split; [exact Due|split; [|split; [|split]]]].
  - repeat split; try assumption. rewrite S1. reflexivity.
  - intros ev l' N. now apply reset_runs_on_js.
  - intros dt Hdt [Q0 C0]. cbv zeta.
    assert (R : resetCalls (state (runLive vp [Of (Frame dt); Of RunJS] l1))
                = S (resetCalls (state l))).
    { cbn [runLive fold_left stepLive onState state]. unfold runNextJs.
      rewrite frame_jsQueue.
      cbn [handOver jsQueue offsetY translateY scale showScreen
           overlayOpacity].
      apply wellFormed_spec in W1.
      destruct W1 as (K1 & K2 & K3 & _ & K5 & _).
      destruct (advance_callback_none dt _ K1) as [_ ->].
      destruct (advance_callback_none dt _ K2) as [_ ->].
      destruct (advance_callback_none dt _ K3) as [_ ->].
      rewrite (advance_timing_ends dt 0
                 (Some {| duration := 150; easing := easeOut |})
                 (hideCallback false) 0 _ A1) by (cbn; lra).
      unfold cancelledCalls. rewrite C1, C0, Q1, Q0.
      cbn [flat_map app runCallback negb runJs resetCalls].
      destruct (frame_rest dt (handOver [] (state l1))) as (_ & _ & ->).
      cbn [handOver resetCalls]. now rewrite R1. }
    split; [exact R|].
    specialize (Due [Of (Frame dt); Of RunJS]).
    change (baseEvents [Of (Frame dt); Of RunJS]) with [Frame dt; RunJS] in Due.
    cbn [hideEffects] in Due. rewrite Due, R.
    unfold resetsDue, cancelledResets, cancelledCalls, resetBudget,
      pendingResets, owedResets.
    rewrite C0, Q0, (W6 V). cbn. lia.
  - intros dt [Q0 C0]. cbv zeta.
    assert (E : optionBool_eqb (Some true) (visible (state l1)) = false).
    { rewrite V1. destruct v as [[|]|]; (reflexivity || discriminate). }
    pose proof W1 as K. apply wellFormed_spec in K.
    destruct K as (K1 & K2 & K3 & _ & _ & _).
    assert (Cs : callbacksOn (fadeWrites true) (state l1)
                 = [hideCallback false]).
    { unfold callbacksOn, fadeWrites. cbn [flat_map cell].
      rewrite K1, K2, K3. unfold callbackOf. now rewrite A1. }
    set (evs := [Of (VisibleChanged (Some true)); Of (Frame dt); Of RunJS]).
    assert (R : animation (showScreen (state (runLive vp evs l1)))
                = Some (withSpring 1 springToVisible, 0 + dt)
                /\ resetCalls (state (runLive vp evs l1))
                   = S (resetCalls (state l))).
    { unfold evs. cbn [runLive fold_left stepLive]. rewrite E.
      cbn [onState state cancelled truthy]. unfold cancelledCalls.
      cbn [cancelled]. rewrite Cs, C1, C0. cbn [app flat_map runCallback negb].
      unfold visibleChanged. rewrite E. unfold visibleEffect.
      cbn [visible truthy]. unfold fadeScreen, frame.
      cbn [handOver set_showScreen set_scale set_translateY set_offsetY
           offsetY translateY scale showScreen overlayOpacity jsQueue
           resetCalls visible overlay keyboardDismissals assign animate
           advance animation value fst snd].
      rewrite Q1, Q0, R1.
      destruct (advance dt (overlayOpacity (state l1))) as [op c5].
      cbn [app runNextJs jsQueue runJs showScreen resetCalls animation].
      split; reflexivity. }
    destruct R as [R2 R3]. split; [exact R2|split; [exact R3|]].
    rewrite Due, R3. unfold evs.
    change (baseEvents [Of (VisibleChanged (Some true)); Of (Frame dt); Of RunJS])
      with [VisibleChanged (Some true); Frame dt; RunJS].
    cbn [hideEffects]. rewrite <- V1, E. cbn [truthy hideEffects].
    unfold resetsDue, cancelledResets, cancelledCalls, resetBudget,
      pendingResets, owedResets.
    rewrite C0, Q0, (W6 V). cbn. lia.
  - repeat split.
Qed.

Lemma hide_calls_reset_once_witness :
  resetCalls
    (state
       (runLive vp0 [Of (Frame 150); Of RunJS]
          (stepLive vp0 (Of (VisibleChanged (Some false))) shown)))
  = 1%nat.
Proof.
  destruct (hide_calls_reset_once vp0 shown (Some false)
              eq_refl eq_refl eq_refl) as (_ & _ & _ & H & _).
  apply (H 150); [vm_compute; discriminate|split; reflexivity].
Defined.



(** ** Taps, snap-backs and new gestures *)

(** X2 (tap handler): a tap that ends while the overlay takes touches sets
    the overlay kind to 'none' at once, whatever the pan or the animations
    are doing; it touches no shared value (an animation in flight keeps
    running, with its callback), leaves the JS queue and the cancelled
    callbacks alone. It does not switch the pan handler off: [areEqual] does
    not compare the kind, the component is not rendered again, and a pan
    handler that took gestures before the tap still takes them after it (a
    release still runs [onFinish]) until the next render, which disables
    it. *)
Theorem tap_closes_at_once vp l :
  truthy (visible (state l)) = true ->
  let l' := stepLive vp (Of Tap) l in
  overlay (state l') = none
  /\ (offsetY (state l') = offsetY (state l)
      /\ translateY (state l') = translateY (state l)
      /\ scale (state l') = scale (state l)
      /\ showScreen (state l') = showScreen (state l)
      /\ overlayOpacity (state l') = overlayOpacity (state l))
  /\ jsQueue (state l') = jsQueue (state l)
  /\ cancelled l' = cancelled l
  /\ enabledAsRendered l' = enabledAsRendered l
  /\ (enabledAsRendered l = true ->
      forall evt,
        state (stepLive vp (Of (PanFinish evt)) l')
        = onFinish vp evt (state l'))
  /\ enabledAsRendered (stepLive vp Render l') = false.
Proof.
  intro V. cbv zeta. cbn [stepLive]. unfold touchable. rewrite V.
  repeat split.
  - intros En evt.
    assert (En' : enabledAsRendered (onState onTapEnd l) = true) by exact En.
    now rewrite En'.
  - unfold enabledAsRendered. cbn. apply andb_false_r.
Qed.

Lemma tap_closes_at_once_witness :
  overlay (state (stepLive vp0 (Of Tap) (pulled 250))) = none.
Proof.
  apply (tap_closes_at_once vp0 (pulled 250)). reflexivity.
Defined.

(** No [setOverlay] can come from an animation any more: none is due and
    the opacity carries no callback. Events that are no release, no tap and
    no change of the kind from outside keep it so, and keep the kind. *)
Lemma settled_stepLive vp ev l :
  wellFormed (state l) = true ->
  startsNoDismissal ev = true ->
  callbackOf (overlayOpacity (state l)) = None ->
  noSetOverlayDue l ->
  callbackOf (overlayOpacity (state (stepLive vp ev l))) = None
  /\ noSetOverlayDue (stepLive vp ev l)
  /\ overlay (state (stepLive vp ev l)) = overlay (state l).
Proof.
  intros W G C D.
  pose proof W as W'. apply wellFormed_spec in W'.
  destruct W' as (W1 & W2 & W3 & W4 & W5 & W6).
  destruct ev as [[|evt|evt| |v|k|dt|c|]|];
    cbn [stepLive startsNoDismissal isRelease setsOverlayDirectly orb negb]
      in *;
    try discriminate.
  - destruct (enabledAsRendered l); [|now (split; [|split])].
    split; [assumption|split; [|reflexivity]].
    split; [apply D|].
    rewrite cancelledCalls_writing. unfold callbacksOn, startWrites.
    cbn [flat_map cell]. rewrite W1, W2. cbn [flat_map app].
    rewrite app_nil_r. apply D.
  - destruct (enabledAsRendered l); [|now (split; [|split])].
    split; [reflexivity|split; [|reflexivity]].
    split; [apply D|].
    rewrite cancelledCalls_writing. unfold callbacksOn, activeWrites.
    cbn [flat_map cell]. rewrite W2, W3, C. cbn [flat_map app].
    rewrite app_nil_r. apply D.
  - destruct (optionBool_eqb v (visible (state l)));
      [now (split; [|split])|].
    destruct (visibleChanged_frame_of_state v (state l)) as (E1 & E2 & _).
    cbn [state]. rewrite E1, E2.
    split; [assumption|split; [|reflexivity]].
    now apply (noSetOverlayDue_visibleChanged v l W D).
  - cbn [state].
    destruct (frame_rest dt (handOver (cancelledCalls l) (state l)))
      as (_ & -> & _).
    rewrite frame_overlayOpacity. cbn [handOver overlayOpacity overlay].
    destruct (advance_callback_none dt _ C) as [C' C5].
    split; [assumption|split; [|reflexivity]].
    now apply noSetOverlayDue_frame.
  - cbn [onState state].
    destruct (settleCell_rest c (state l)) as (-> & _).
    split; [|split; [now apply noSetOverlayDue_settleCell|reflexivity]].
    destruct c; cbn; rewrite ?settle_callback; assumption.
  - destruct (noSetOverlayDue_runNextJs l D) as [D' E].
    cbn [onState state] in *.
    split; [|split; assumption].
    unfold runNextJs. destruct (jsQueue (state l)) as [|[k|] q]; assumption.
  - split; [assumption|split; [|reflexivity]]. exact D.
Qed.

Lemma settled_runLive vp evs : forall l,
  wellFormed (state l) = true ->
  forallb startsNoDismissal evs = true ->
  callbackOf (overlayOpacity (state l)) = None ->
  noSetOverlayDue l ->
  overlay (state (runLive vp evs l)) = overlay (state l)
  /\ noSetOverlayDue (runLive vp evs l).
Proof.
  induction evs as [|ev evs IH]; intros l W G C D;
    [split; [reflexivity|assumption]|].
  cbn [forallb] in G. apply andb_prop in G. destruct G as [G1 G2].
  destruct (settled_stepLive vp ev l W G1 C D) as (C' & D' & E).
  rewrite runLive_cons.
  destruct (IH (stepLive vp ev l) (wellFormed_stepLive vp ev l W) G2 C' D')
    as [E' D''].
  split; [congruence|assumption].
Qed.

(** X6 (pan release, snap-back branch): a release that snaps back, made
    while no dismissal fade is running on the opacity and no [setOverlay] is
    due, never closes the overlay. The handler puts three animations without
    callback on the cells and cancels none that carries one; whatever
    follows (new gesture starts and updates, frames in any number and of any
    length, engine and JS steps, renders, changes of [visible]), as long as
    there is no further release, tap or change of the kind from outside, the
    overlay kind stays what it was and no [setOverlay] is ever handed to the
    JS thread. *)
Theorem snap_back_never_closes vp evt l evs :
  wellFormed (state l) = true ->
  enabledAsRendered l = true ->
  callbackOf (overlayOpacity (state l)) = None ->
  noSetOverlayDue l ->
  finalYPosition evt <= halfScreenHeight vp
  \/ value (translateY (state l)) <= 0 ->
  forallb startsNoDismissal evs = true ->
  let l0 := stepLive vp (Of (PanFinish evt)) l in
  snapsBack (state l0)
  /\ cancelled l0 = cancelled l
  /\ overlay (state (runLive vp evs l0)) = overlay (state l)
  /\ noSetOverlayDue (runLive vp evs l0).
Proof.
  intros W En C D H G. cbv zeta.
  apply commitsToDismiss_false in H.
  pose proof W as W'. apply wellFormed_spec in W'.
  destruct W' as (_ & W2 & W3 & _).
  cbn [stepLive]. rewrite En.
  assert (Cn : callbacksOn (finishWrites vp evt (state l)) (state l) = []).
  { unfold finishWrites, callbacksOn. rewrite H. cbn [flat_map cell].
    now rewrite W2, W3, C. }
  set (l0 := writing (finishWrites vp evt (state l)) (onFinish vp evt) l).
  assert (S0 : state l0 = onFinish vp evt (state l)) by reflexivity.
  assert (C0 : cancelled l0 = cancelled l).
  { unfold l0. cbn [writing cancelled]. rewrite Cn. apply app_nil_r. }
  destruct (onFinish_rest vp evt (state l)) as (E1 & E2 & _).
  assert (D0 : noSetOverlayDue l0).
  { destruct D as [P Cc]. split.
    - unfold noSetOverlayPending. rewrite S0, E2. exact P.
    - unfold cancelledCalls. rewrite C0. exact Cc. }
  assert (Sb : snapsBack (state l0)).
  { rewrite S0. unfold snapsBack, onFinish. rewrite H. repeat split. }
  split; [exact Sb|split; [exact C0|]].
  rewrite <- E1, <- S0.
  apply settled_runLive; try assumption.
  - rewrite S0. now apply wellFormed_onFinish.
  - destruct Sb as (_ & _ & Ao). unfold callbackOf. now rewrite Ao.
Qed.

Lemma snap_back_never_closes_witness :
  overlay
    (state
       (runLive vp0
          [Of (Frame 100); Of PanStart;
           Of (PanActive {| translationY := 20; velocityY := 0 |});
           Of (Frame 300); Of RunJS; Of (Frame 1000)]
          (stepLive vp0
             (Of (PanFinish {| translationY := 100; velocityY := 0 |}))
             (pulled 100))))
  = overlay (state (pulled 100)).
Proof.
  apply (snap_back_never_closes vp0 {| translationY := 100; velocityY := 0 |}
           (pulled 100)
           [Of (Frame 100); Of PanStart;
            Of (PanActive {| translationY := 20; velocityY := 0 |});
            Of (Frame 300); Of RunJS; Of (Frame 1000)]).
  - reflexivity.
  - reflexivity.
  - reflexivity.
  - split; intros c [].
  - left. vm_compute. discriminate.
  - reflexivity.
Defined.


(** X4 (effect on [visible], hide callback): over the whole life of a
    mounted overlay the calls of [reset] match the hides one to one. For
    every run of events from the mount, the calls of [reset] made, together
    with those waiting on the JS thread and those owed by a hide animation in
    flight or cancelled, are exactly the runs of the effect that hide the
    overlay, the one at a mount with a falsy [visible] included: a hide that
    a new show or a new hide cuts short still gets its call, and gestures,
    taps, frames, renders and changes of the overlay kind add none. So
    [reset] is never called more often than the overlay was hidden. *)
Theorem resets_match_hides vp v k opacity evs :
  isDismissCb (callbackOf opacity) = true ->
  let l := runLive vp evs (mountLive v k opacity) in
  resetsDue l
  = ((if truthy v then 0 else 1) + hideEffects v (baseEvents evs))%nat
  /\ (resetCalls (state l)
      <= (if truthy v then 0 else 1) + hideEffects v (baseEvents evs))%nat.
Proof.
  intro O. cbv zeta.
  assert (W : wellFormed (state (mountLive v k opacity)) = true)
    by now apply wellFormed_mount.
  pose proof (resetsDue_runLive vp evs (mountLive v k opacity) W) as B.
  assert (M : resetsDue (mountLive v k opacity)
              = if truthy v then 0%nat else 1%nat).
  { unfold mountLive, resetsDue, cancelledResets, mount, visibleEffect,
      fadeScreen, resetBudget, pendingResets, owedResets.
    destruct v as [[|]|]; reflexivity. }
  assert (V : visible (state (mountLive v k opacity)) = v).
  { unfold mountLive, mount, visibleEffect, fadeScreen.
    destruct v as [[|]|]; reflexivity. }
  rewrite M, V in B. split; [exact B|].
  rewrite <- B. unfold resetsDue, resetBudget. lia.
Qed.

Lemma resets_match_hides_witness :
  let evs :=
    [Of (VisibleChanged (Some true)); Of (Frame 16);
     Of (VisibleChanged (Some false)); Of (VisibleChanged (Some true));
     Of (Frame 16); Of RunJS; Of RunJS;
     Of (VisibleChanged (Some false)); Of (Frame 150); Of RunJS] in
  let l := runLive vp0 evs (mountLive (Some false) none (useSharedValue 1)) in
  resetsDue l
  = ((if truthy (Some false) then 0 else 1)
     + hideEffects (Some false) (baseEvents evs))%nat
  /\ (resetCalls (state l)
      <= (if truthy (Some false) then 0 else 1)
         + hideEffects (Some false) (baseEvents evs))%nat.
Proof.
  intro evs.
  exact (resets_match_hides vp0 (Some false) none (useSharedValue 1) evs
           eq_refl).
Defined.

Lemma runNextJs_setOverlay s k q :
  jsQueue s = setOverlay k :: q -> overlay (runNextJs s) = k.
Proof. intro E. unfold runNextJs. now rewrite E. Qed.

Lemma runNextJs_overlayOpacity s :
  overlayOpacity (runNextJs s) = overlayOpacity s.
Proof. unfold runNextJs. destruct (jsQueue s) as [|[k|] q]; reflexivity. Qed.

(** X21 (pan handlers during a dismissal): a gesture that writes to the
    opacity during the fade of a dismissal closes the overlay on the next
    frame. With the fade under way, at whatever point of its 200 ms, an
    update of a new gesture assigns a number to the opacity and a release
    puts a new animation on it; either takes the fade off the cell, the
    engine calls the callback of the fade on the next frame, whatever its
    length, and the JS thread's turn sets the kind to 'none'. After the
    update the opacity is under no animation: the overlay has closed without
    any animation running to its end. *)
Theorem new_gesture_during_fade_closes vp u dt t l :
  wellFormed (state l) = true ->
  enabledAsRendered l = true ->
  idle l ->
  animation (overlayOpacity (state l))
  = Some (withTiming 0 (Some dismissTiming) (Some dismissCallback), t) ->
  let l1 := stepLive vp (Of (PanActive u)) l in
  let l2 := runLive vp [Of (Frame dt); Of RunJS] l1 in
  (overlay (state l1) = overlay (state l)
   /\ jsQueue (state l1) = []
   /\ cancelled l1 = [dismissCallback]
   /\ animation (overlayOpacity (state l1)) = None)
  /\ (overlay (state l2) = none
      /\ animation (overlayOpacity (state l2)) = None)
  /\ (forall evt,
       overlay
         (state (runLive vp [Of (PanFinish evt); Of (Frame dt); Of RunJS] l))
       = none).
Proof.
  intros W En [Q0 C0] A.
  destruct (enabledAsRendered_true l En) as [V K].
  pose proof W as W'. apply wellFormed_spec in W'.
  destruct W' as (W1 & W2 & W3 & W4 & W5 & W6).
  assert (Cb : callbackOf (overlayOpacity (state l)) = Some dismissCallback)
    by (unfold callbackOf; now rewrite A).
  cbv zeta. cbn [runLive fold_left stepLive]. rewrite En.
  split; [|split].
  - cbn [writing state cancelled]. unfold callbacksOn, activeWrites.
    cbn [flat_map cell]. rewrite W2, W3, Cb, C0.
    repeat split. exact Q0.
  - set (l1 := writing activeWrites (onActive vp u) l).
    assert (Q1 : jsQueue (frame dt (handOver (cancelledCalls l1) (state l1)))
                 = [setOverlay none]).
    { rewrite frame_queue_from_idle.
      - unfold cancelledCalls, l1. cbn [writing cancelled state].
        unfold callbacksOn, activeWrites. cbn [flat_map cell].
        rewrite W2, W3, Cb, C0. reflexivity.
      - now apply wellFormed_onActive.
      - exact V.
      - exact Q0. }
    cbn [onState state]. split.
    + now apply (runNextJs_setOverlay _ none []).
    + rewrite runNextJs_overlayOpacity, frame_overlayOpacity. reflexivity.
  - intro evt.
    set (l1 := writing (finishWrites vp evt (state l)) (onFinish vp evt) l).
    destruct (onFinish_rest vp evt (state l)) as (_ & E2 & _ & E4 & _).
    assert (Q1 : exists q,
               jsQueue (frame dt (handOver (cancelledCalls l1) (state l1)))
               = setOverlay none :: q).
    { rewrite frame_queue_from_idle.
      - unfold cancelledCalls, l1. cbn [writing cancelled state].
        unfold callbacksOn, finishWrites.
        destruct (commitsToDismiss vp evt (state l)); cbn [flat_map cell];
          rewrite ?W2, ?W3, Cb, C0; cbn [app flat_map runCallback];
          eexists; reflexivity.
      - now apply wellFormed_onFinish.
      - unfold l1. cbn [writing state]. now rewrite E4.
      - unfold l1. cbn [writing state]. now rewrite E2. }
    destruct Q1 as [q Q1]. cbn [onState state].
    now apply (runNextJs_setOverlay _ none q).
Qed.

Lemma new_gesture_during_fade_closes_witness :
  overlay
    (state
       (runLive vp0 [Of (Frame 16); Of RunJS]
          (stepLive vp0
             (Of (PanActive {| translationY := 450; velocityY := 0 |}))
             (stepLive vp0
                (Of (PanFinish {| translationY := 500; velocityY := 0 |}))
                (pulled 500)))))
  = none.
Proof.
  destruct (new_gesture_during_fade_closes vp0
              {| translationY := 450; velocityY := 0 |} 16 0
              (stepLive vp0
                 (Of (PanFinish {| translationY := 500; velocityY := 0 |}))
                 (pulled 500)))
    as (_ & H & _).
  - reflexivity.
  - reflexivity.
  - split; reflexivity.
  - reflexivity.
  - apply H.
Defined.

End LiveFacts.

(** * The styles derived at render time *)

Module StyleFacts.

Import OverlayProps.
Import OverlayStyle.

Lemma groupStyle_left toLowerCase a groupStyles suffix :
  String.eqb (groupStyle toLowerCase a groupStyles) ("left_" ++ suffix) = true
  <-> a = Some left /\ toLowerCase (firstGroupStyle groupStyles) = suffix.
Proof.
  unfold groupStyle. destruct a as [[|]|]; cbn.
  - rewrite String.eqb_eq. split; [intro H; split; [reflexivity|exact H]|tauto].
  - split; [discriminate|intros [H _]; discriminate].
  - split; [discriminate|intros [H _]; discriminate].
Qed.

Lemma groupStyle_right toLowerCase a groupStyles suffix :
  String.eqb (groupStyle toLowerCase a groupStyles) ("right_" ++ suffix) = true
  <-> a = Some right /\ toLowerCase (firstGroupStyle groupStyles) = suffix.
Proof.
  unfold groupStyle. destruct a as [[|]|]; cbn.
  - split; [discriminate|intros [H _]; discriminate].
  - rewrite String.eqb_eq. split; [intro H; split; [reflexivity|exact H]|tauto].
  - split; [discriminate|intros [H _]; discriminate].
Qed.

(** X10 (bottom corners of the bubble): the small radius goes to one bottom
    corner at most, the one on the side of the alignment: the bottom left
    corner gets it exactly when the alignment is left, the first group style
    (taken as 'bottom' when there is none or it is empty), in lower case, is
    'bottom' or 'single', and the message has no thread replies or is shown in
    a thread list; the bottom right corner likewise for a right alignment.
    With no alignment both corners keep the large radius. *)
Theorem small_radius_on_alignment_side (toLowerCase : string -> string)
  (p : Props) (groupStyles : option (list string)) :
  let lower := toLowerCase (firstGroupStyle groupStyles) in
  let closing := lower = "bottom"%string \/ lower = "single"%string in
  let plain :=
    hasThreadReplies (message p) = false \/ truthyBool (threadList p) = true in
  (borderBottomLeftRadius toLowerCase p groupStyles = borderRadiusS
   <-> alignment p = Some left /\ closing /\ plain)
  /\ (borderBottomRightRadius toLowerCase p groupStyles = borderRadiusS
      <-> alignment p = Some right /\ closing /\ plain)
  /\ ~ (borderBottomLeftRadius toLowerCase p groupStyles = borderRadiusS
        /\ borderBottomRightRadius toLowerCase p groupStyles = borderRadiusS)
  /\ (alignment p = None ->
      borderBottomLeftRadius toLowerCase p groupStyles = borderRadiusL
      /\ borderBottomRightRadius toLowerCase p groupStyles = borderRadiusL).
Proof.
  cbv zeta.
  assert (L : borderBottomLeftRadius toLowerCase p groupStyles = borderRadiusS
              <-> alignment p = Some left
                  /\ (toLowerCase (firstGroupStyle groupStyles) = "bottom"%string
                      \/ toLowerCase (firstGroupStyle groupStyles)
                         = "single"%string)
                  /\ (hasThreadReplies (message p) = false
                      \/ truthyBool (threadList p) = true)).
  { unfold borderBottomLeftRadius.
    pose proof (groupStyle_left toLowerCase (alignment p) groupStyles "bottom")
      as B.
    pose proof (groupStyle_left toLowerCase (alignment p) groupStyles "single")
      as S.
    cbn [String.append] in B, S.
    destruct (String.eqb (groupStyle toLowerCase (alignment p) groupStyles)
                "left_bottom");
    destruct (String.eqb (groupStyle toLowerCase (alignment p) groupStyles)
                "left_single");
    destruct (hasThreadReplies (message p));
    destruct (truthyBool (threadList p)); cbn;
      intuition (try discriminate; try congruence). }
  assert (R : borderBottomRightRadius toLowerCase p groupStyles = borderRadiusS
              <-> alignment p = Some right
                  /\ (toLowerCase (firstGroupStyle groupStyles) = "bottom"%string
                      \/ toLowerCase (firstGroupStyle groupStyles)
                         = "single"%string)
                  /\ (hasThreadReplies (message p) = false
                      \/ truthyBool (threadList p) = true)).
  { unfold borderBottomRightRadius.
    pose proof (groupStyle_right toLowerCase (alignment p) groupStyles "bottom")
      as B.
    pose proof (groupStyle_right toLowerCase (alignment p) groupStyles "single")
      as S.
    cbn [String.append] in B, S.
    destruct (String.eqb (groupStyle toLowerCase (alignment p) groupStyles)
                "right_bottom");
    destruct (String.eqb (groupStyle toLowerCase (alignment p) groupStyles)
                "right_single");
    destruct (hasThreadReplies (message p));
    destruct (truthyBool (threadList p)); cbn;
      intuition (try discriminate; try congruence). }
  split; [exact L|split; [exact R|split]].
  - intros [HL HR]. apply L in HL. apply R in HR.
    destruct HL as [HL _], HR as [HR _]. congruence.
  - intro N.
    assert (NL : borderBottomLeftRadius toLowerCase p groupStyles
                 <> borderRadiusS)
      by (intro H; apply L in H; destruct H; congruence).
    assert (NR : borderBottomRightRadius toLowerCase p groupStyles
                 <> borderRadiusS)
      by (intro H; apply R in H; destruct H; congruence).
    clear L R.
    destruct (borderBottomLeftRadius toLowerCase p groupStyles);
      [now elim NL|].
    destruct (borderBottomRightRadius toLowerCase p groupStyles);
      [now elim NR|].
    split; reflexivity.
Qed.

Lemma small_radius_on_alignment_side_witness :
  borderBottomLeftRadius asciiToLowerCase exampleProps (Some ["Single"%string])
  = borderRadiusS.
Proof.
  apply (small_radius_on_alignment_side asciiToLowerCase exampleProps
           (Some ["Single"%string])).
  repeat split; [now right|now left].
Defined.

(** X11 (border and fill of the bubble): the style that removes the border of
    the inner container ([borderWidth: 0]) is applied exactly when its fill is
    not one of the two neutral fills of the alignment: it is applied if and
    only if the bubble is transparent or tinted, and left out (the border of
    the style sheet stays) if and only if the fill is [white_smoke] or
    [grey_gainsboro]. *)
Theorem borderless_iff_not_neutral (p : Props) (m : Message) :
  (borderWidthOverride p m = Some 0
   <-> backgroundColor p m = transparent \/ backgroundColor p m = blue_alice)
  /\ (borderWidthOverride p m = None
      <-> backgroundColor p m = white_smoke
          \/ backgroundColor p m = grey_gainsboro).
Proof.
  unfold borderWidthOverride, backgroundColor.
  destruct (truthyBool (onlyEmojis p) && negb (isSome (quoted_message m)));
    cbn [orb].
  - split; split; intro H; try discriminate; auto; destruct H; discriminate.
  - destruct (hasOtherAttachments (otherAttachments p)).
    + destruct (firstIsGiphy (otherAttachments p));
        split; split; intro H; try discriminate; auto;
        destruct H; discriminate.
    + destruct (alignment p) as [[|]|];
        split; split; intro H; try discriminate; auto;
        destruct H; discriminate.
Qed.

(** X12 (show transform and layout): the transform of the show animation is
    linear in [showScreen]: for every value v the bubble is scaled by v and
    moved by (1 - v) times half its height downwards and half its width
    sideways, to the left when left-aligned and to the right otherwise, the
    two alignments mirroring each other; at 1 it sits in place at full size.
    With the size measured by [onLayout], at 0 the centre of the bubble lies
    on its bottom corner on the side of the alignment, which is where it grows
    from. *)
Theorem show_transform_grows_from_corner (a : option Alignment) (l : Layout)
  (v : Q) :
  let m := onLayout a l in
  let t := showScreenStyle a m v in
  styleScale t = v
  /\ styleTranslateY t == (1 - v) * (layoutHeight l / 2)
  /\ styleTranslateX t
     == (match a with Some left => -1 | _ => 1 end)
        * ((1 - v) * (layoutWidth l / 2))
  /\ styleTranslateX (showScreenStyle (Some left) m v)
     == - styleTranslateX (showScreenStyle (Some right) m v)
  /\ (v == 1 -> styleTranslateY t == 0 /\ styleTranslateX t == 0)
  /\ (v == 0 ->
      layoutY l + layoutHeight l / 2 + styleTranslateY t
      == layoutY l + layoutHeight l
      /\ layoutX l + layoutWidth l / 2 + styleTranslateX t
         == match a with
            | Some left => layoutX l
            | _ => layoutX l + layoutWidth l
            end).
Proof.
  cbv zeta. unfold showScreenStyle, onLayout, interpolate.
  cbn [styleScale styleTranslateY styleTranslateX messageWidth messageHeight].
  split; [reflexivity|].
  split; [field|].
  split; [destruct a as [[|]|]; field|].
  split; [field|].
  split.
  - intro E. split; [|destruct a as [[|]|]]; rewrite E; field.
  - intro E. split; [|destruct a as [[|]|]]; rewrite E; field.
Qed.

Lemma show_transform_grows_from_corner_witness :
  let l := {| layoutX := 20; layoutY := 300;
              layoutWidth := 200; layoutHeight := 80 |} in
  styleTranslateY (showScreenStyle (Some left) (onLayout (Some left) l) 1) == 0.
Proof.
  intro l.
  apply (show_transform_grows_from_corner (Some left) l 1). reflexivity.
Defined.

End StyleFacts.

(** * The content of the bubble and the reactions under it *)

Module ContentFacts.

Import OverlayContent.

Lemma map_mapFrom {A B C : Type} (g : B -> C) (f : A -> nat -> B) (l : list A) :
  forall k, map g (mapFrom f k l) = mapFrom (fun x i => g (f x i)) k l.
Proof.
  induction l as [|x l IH]; intro k; cbn; [reflexivity|]. now rewrite IH.
Qed.

Lemma mapFrom_index_free {A B : Type} (f : A -> B) (l : list A) :
  forall k, mapFrom (fun x _ => f x) k l = map f l.
Proof.
  induction l as [|x l IH]; intro k; cbn; [reflexivity|]. now rewrite IH.
Qed.

Lemma mapFrom_ext {A B : Type} (f g : A -> nat -> B) (l : list A) :
  (forall x i, f x i = g x i) -> forall k, mapFrom f k l = mapFrom g k l.
Proof.
  intro H. induction l as [|x l IH]; intro k; cbn; [reflexivity|].
  now rewrite H, IH.
Qed.

Lemma renderContent_isText messageId onlyEmojis otherAttachments ty i :
  isText (renderContent messageId onlyEmojis otherAttachments ty i)
  = isTextType ty && negb (firstHasActions otherAttachments).
Proof.
  unfold renderContent, isTextType.
  destruct (String.eqb ty "attachments");
    [destruct otherAttachments; reflexivity|].
  destruct (String.eqb ty "files"); [reflexivity|].
  destruct (String.eqb ty "gallery"); [reflexivity|].
  destruct (firstHasActions otherAttachments); reflexivity.
Qed.

(** X13 (content of the bubble): the content order is rendered entry by
    entry, one child per entry in the same order, and the text of the message
    is shown for exactly the entries that are not 'attachments', 'files' or
    'gallery' ('text' and any unknown type alike), unless the first of the
    other attachments carries actions: then no entry renders the text,
    whatever the order says. An 'attachments' entry renders the other
    attachments, all of them and in their order. *)
Theorem text_shown_unless_actions (messageId : string)
  (onlyEmojis : option bool) (otherAttachments : option (list OtherAttachment))
  (order : list string) :
  let rendered :=
    renderContents messageId onlyEmojis otherAttachments (Some order) in
  List.length rendered = List.length order
  /\ map isText rendered
     = map (fun ty => isTextType ty && negb (firstHasActions otherAttachments))
         order
  /\ (firstHasActions otherAttachments = true ->
      forallb (fun r => negb (isText r)) rendered = true)
  /\ (forall i l,
        nth_error order i = Some "attachments"%string ->
        otherAttachments = Some l ->
        exists elements,
          nth_error rendered i = Some (Elements elements)
          /\ List.length elements = List.length l
          /\ forall j a, nth_error l j = Some a ->
               nth_error elements j
               = Some (AttachmentElement a
                         (messageId ++ "-" ++ numberToString j)%string)).
Proof.
  cbv zeta. unfold renderContents, mapIndexed.
  assert (T : map isText
                (mapFrom (renderContent messageId onlyEmojis otherAttachments)
                   0 order)
              = map (fun ty => isTextType ty
                               && negb (firstHasActions otherAttachments))
                  order).
  { rewrite map_mapFrom.
    rewrite (mapFrom_ext _
               (fun ty _ => isTextType ty
                            && negb (firstHasActions otherAttachments)))
      by (intros; apply renderContent_isText).
    apply mapFrom_index_free. }
  split; [|split; [exact T|split]].
  - rewrite <- (length_map isText), T. apply length_map.
  - intro H. rewrite forallb_forall. intros r Hr.
    apply (in_map isText) in Hr. rewrite T, H in Hr.
    apply in_map_iff in Hr. destruct Hr as (ty & E & _).
    rewrite andb_false_r in E. now rewrite <- E.
  - intros i l Hi Hl.
    assert (N : forall (ord : list string) k i,
               nth_error ord i = Some "attachments"%string ->
               nth_error
                 (mapFrom (renderContent messageId onlyEmojis otherAttachments)
                    k ord) i
               = Some (renderContent messageId onlyEmojis otherAttachments
                         "attachments" (k + i))).
    { induction ord as [|ty ord IH]; intros k [|i'] H; try discriminate.
      - cbn [nth_error mapFrom] in *. injection H as ->.
        now rewrite Nat.add_0_r.
      - cbn [nth_error mapFrom] in *. rewrite (IH (S k) i' H).
        now replace (S k + i')%nat with (k + S i')%nat by lia. }
    rewrite (N order 0%nat i Hi). unfold renderContent.
    rewrite String.eqb_refl, Hl. eexists. split; [reflexivity|].
    unfold mapIndexed.
    assert (M : forall (l' : list OtherAttachment) k,
               List.length
                 (mapFrom
                    (fun attachment attachmentIndex =>
                       AttachmentElement attachment
                         (messageId ++ "-" ++ numberToString attachmentIndex))
                    k l') = List.length l'
               /\ forall j a, nth_error l' j = Some a ->
                    nth_error
                      (mapFrom
                         (fun attachment attachmentIndex =>
                            AttachmentElement attachment
                              (messageId ++ "-"
                               ++ numberToString attachmentIndex))
                         k l') j
                    = Some (AttachmentElement a
                              (messageId ++ "-" ++ numberToString (k + j)))).
    { induction l' as [|x l' IH]; intro k; cbn [mapFrom List.length]; split;
        try reflexivity.
      - intros [|j] a H; discriminate.
      - f_equal. apply IH.
      - intros [|j] a H; cbn [nth_error mapFrom] in *.
        + injection H as ->. now rewrite Nat.add_0_r.
        + destruct (IH (S k)) as [_ IH2]. rewrite (IH2 j a H).
          now replace (S k + j)%nat with (k + S j)%nat by lia. }
    destruct (M l 0%nat) as [M1 M2]. split; [exact M1|exact M2].
Qed.

Lemma text_shown_unless_actions_witness :
  forallb (fun r => negb (isText r))
    (renderContents "m1" (Some false)
       (Some [{| attachmentType := Some "giphy"%string;
                 actions := Some ["send"%string] |}])
       (Some ["attachments"; "text"]%string))
  = true.
Proof.
  apply (text_shown_unless_actions "m1" (Some false)
           (Some [{| attachmentType := Some "giphy"%string;
                     actions := Some ["send"%string] |}])
           ["attachments"; "text"]%string).
  reflexivity.
Defined.

Lemma append_inv_head (p a b : string) :
  (p ++ a)%string = (p ++ b)%string -> a = b.
Proof.
  induction p as [|c p IH]; cbn; intro H; [exact H|].
  injection H as H. now apply IH.
Qed.

Lemma numberToString_inj i j : numberToString i = numberToString j -> i = j.
Proof.
  unfold numberToString. intro H.
  apply DecimalNat.Unsigned.to_uint_inj.
  apply (f_equal NilEmpty.uint_of_string) in H.
  rewrite !NilEmpty.usu in H. now injection H.
Qed.

Lemma renderContent_key messageId onlyEmojis otherAttachments ty i k :
  keyOf (renderContent messageId onlyEmojis otherAttachments ty i) = Some k ->
  exists p, keyPrefix p /\ k = (p ++ numberToString i)%string.
Proof.
  unfold renderContent, keyPrefix.
  destruct (String.eqb ty "attachments");
    [destruct otherAttachments; discriminate|].
  destruct (String.eqb ty "files");
    [intro H; injection H as <-; eexists; split; [left; reflexivity|reflexivity]|].
  destruct (String.eqb ty "gallery");
    [intro H; injection H as <-; eexists; split;
     [right; left; reflexivity|reflexivity]|].
  destruct (firstHasActions otherAttachments); [discriminate|].
  intro H. injection H as <-. eexists. split; [right; right; reflexivity|].
  reflexivity.
Qed.

Lemma prefixed_keys_inj p q i j :
  keyPrefix p -> keyPrefix q ->
  (p ++ numberToString i)%string = (q ++ numberToString j)%string -> i = j.
Proof.
  intros [ -> | [ -> | -> ] ] [ -> | [ -> | -> ] ] H;
    try (cbn in H; discriminate);
    apply numberToString_inj; exact (append_inv_head _ _ _ H).
Qed.

Lemma keysOf_from messageId onlyEmojis otherAttachments order : forall k key,
  In key
    (keysOf (mapFrom (renderContent messageId onlyEmojis otherAttachments)
               k order)) ->
  exists p i, (k <= i)%nat /\ keyPrefix p
              /\ key = (p ++ numberToString i)%string.
Proof.
  induction order as [|ty order IH]; intros k key H; [destruct H|].
  cbn [mapFrom keysOf flat_map] in H. apply in_app_or in H.
  destruct H as [H|H].
  - destruct (keyOf (renderContent messageId onlyEmojis otherAttachments ty k))
      as [k0|] eqn:E; [|destruct H].
    destruct H as [<-|[]].
    destruct (renderContent_key _ _ _ _ _ _ E) as (p & P & ->).
    exists p, k. repeat split; [lia|assumption].
  - destruct (IH (S k) key H) as (p & i & Hi & P & ->).
    exists p, i. repeat split; [lia|assumption].
Qed.

(** X14 (keys of the children): the keys the bubble gives to its children
    never collide. Among the children rendered for the entries of the content
    order, no two have the same key, whatever the order (repeated and unknown
    content types included); and within the elements rendered for an
    'attachments' entry, no two have the same key either. *)
Theorem child_keys_are_distinct (messageId : string) (onlyEmojis : option bool)
  (otherAttachments : option (list OtherAttachment))
  (messageContentOrder : option (list string)) :
  let rendered :=
    renderContents messageId onlyEmojis otherAttachments messageContentOrder in
  NoDup (keysOf rendered)
  /\ (forall elements,
        In (Elements elements) rendered -> NoDup (map elementKey elements)).
Proof.
  cbv zeta. unfold renderContents.
  destruct messageContentOrder as [order|];
    [|split; [constructor|intros ? []]].
  unfold mapIndexed. split.
  - generalize 0%nat. induction order as [|ty order IH]; intro k;
      [constructor|].
    cbn [mapFrom keysOf flat_map].
    fold (keysOf (mapFrom (renderContent messageId onlyEmojis otherAttachments)
                    (S k) order)).
    destruct (keyOf (renderContent messageId onlyEmojis otherAttachments ty k))
      as [k0|] eqn:E; [|apply IH].
    cbn [app]. constructor; [|apply IH].
    intro H. apply keysOf_from in H. destruct H as (q & j & Hj & Q & Ej).
    destruct (renderContent_key _ _ _ _ _ _ E) as (p & P & Ek).
    rewrite Ek in Ej. apply (prefixed_keys_inj p q k j P Q) in Ej. lia.
  - intros elements H.
    assert (S : exists ty i,
               Elements elements
               = renderContent messageId onlyEmojis otherAttachments ty i).
    { revert H. generalize 0%nat.
      induction order as [|ty order IH]; intros k H; [destruct H|].
      destruct H as [H|H]; [now exists ty, k|exact (IH _ H)]. }
    destruct S as (ty & i & E). unfold renderContent in E.
    destruct (String.eqb ty "attachments").
    + destruct otherAttachments as [l|]; [|discriminate].
      injection E as ->. unfold mapIndexed. generalize 0%nat.
      assert (F : forall (l' : list OtherAttachment) k key,
                 In key
                   (map elementKey
                      (mapFrom
                         (fun attachment attachmentIndex =>
                            AttachmentElement attachment
                              (messageId ++ "-"
                               ++ numberToString attachmentIndex))
                         k l')) ->
                 exists j, (k <= j)%nat
                           /\ key = (messageId ++ "-" ++ numberToString j)%string).
      { induction l' as [|x l' IH]; intros k key Hk; [destruct Hk|].
        cbn [mapFrom map elementKey] in Hk. destruct Hk as [<-|Hk].
        - exists k. split; [lia|reflexivity].
        - destruct (IH (S k) key Hk) as (j & Hj & ->).
          exists j. split; [lia|reflexivity]. }
      clear H. induction l as [|x l IH]; intro k; [constructor|].
      cbn [mapFrom map elementKey]. constructor; [|apply IH].
      intro Hk. apply F in Hk. destruct Hk as (j & Hj & Ej).
      apply append_inv_head in Ej. cbn [String.append] in Ej.
      injection Ej as Ej. apply numberToString_inj in Ej. lia.
    + destruct (String.eqb ty "files"); [discriminate|].
      destruct (String.eqb ty "gallery"); [discriminate|].
      destruct (firstHasActions otherAttachments); discriminate.
Qed.

Lemma truthyString_true o :
  truthyString o = true <-> exists s, o = Some s /\ s <> ""%string.
Proof.
  destruct o as [s|]; cbn.
  - rewrite negb_true_iff. split.
    + intro H. exists s. split; [reflexivity|].
      intro E. apply String.eqb_eq in E. congruence.
    + intros (s' & E & N). injection E as <-.
      destruct (String.eqb s "") eqn:Q; [|reflexivity].
      apply String.eqb_eq in Q. contradiction.
  - split; [discriminate|intros (s & E & _); discriminate].
Qed.

Lemma isOwn_true clientId r :
  isOwn clientId r = true
  <-> exists c, clientId = Some c /\ c <> ""%string /\ userIdOf r = Some c.
Proof.
  unfold isOwn. rewrite andb_true_iff, truthyString_true. split.
  - intros [(c & -> & N) H]. exists c. repeat split; try assumption.
    destruct (userIdOf r) as [i|]; cbn in H; [|discriminate].
    apply String.eqb_eq in H. now subst.
  - intros (c & -> & N & ->). split; [now exists c|].
    cbn. apply String.eqb_refl.
Qed.

(** X15 (reactions under the bubble): the panel of reactions is rendered
    exactly when the title is a non-empty string and there is at least one
    latest reaction; it then lists every latest reaction once, in order, under
    its kind. A reaction is aligned right exactly when the client has a
    non-empty id that is the id of the user of the reaction, and left
    otherwise; so without a client id, or for reactions without a user, every
    entry is on the left. The name shown is the name of the user, the user id
    of the reaction when the user has no name, and empty when both are
    missing or empty. *)
Theorem reactions_panel_entries (clientId messageReactionTitle : option string)
  (latest_reactions : option (list Reaction)) :
  (forall title entries,
      overlayReactions clientId messageReactionTitle latest_reactions
      = Some (title, entries)
      <-> messageReactionTitle = Some title /\ title <> ""%string
          /\ exists r rs, latest_reactions = Some (r :: rs)
                          /\ entries = map (toOverlayReaction clientId) (r :: rs))
  /\ (forall r,
        (reactionAlignment (toOverlayReaction clientId r) = OverlayProps.right
         <-> exists c, clientId = Some c /\ c <> ""%string
                       /\ userIdOf r = Some c)
        /\ reactionType (toOverlayReaction clientId r) = type r
        /\ (user r = None ->
            reactionAlignment (toOverlayReaction clientId r) = OverlayProps.left
            /\ reactionImage (toOverlayReaction clientId r) = None
            /\ reactionName (toOverlayReaction clientId r)
               = orString (user_id r) ""))
  /\ (truthyString clientId = false ->
      forall title entries,
        overlayReactions clientId messageReactionTitle latest_reactions
        = Some (title, entries) ->
        Forall (fun e => reactionAlignment e = OverlayProps.left) entries)
  /\ (forall title entries rs,
        overlayReactions clientId messageReactionTitle latest_reactions
        = Some (title, entries) ->
        latest_reactions = Some rs ->
        map reactionType entries = map type rs).
Proof.
  assert (A : forall r,
             reactionAlignment (toOverlayReaction clientId r)
             = OverlayProps.right
             <-> exists c, clientId = Some c /\ c <> ""%string
                           /\ userIdOf r = Some c).
  { intro r. rewrite <- isOwn_true. cbn.
    destruct (isOwn clientId r); split; congruence. }
  assert (P : forall title entries,
             overlayReactions clientId messageReactionTitle latest_reactions
             = Some (title, entries)
             <-> messageReactionTitle = Some title /\ title <> ""%string
                 /\ exists r rs, latest_reactions = Some (r :: rs)
                       /\ entries = map (toOverlayReaction clientId) (r :: rs)).
  { intros title entries. unfold overlayReactions.
    destruct messageReactionTitle as [t|];
      [|split; [discriminate|intros (H & _); discriminate]].
    destruct latest_reactions as [[|r rs]|];
      try (split; [discriminate|intros (_ & _ & r & rs & H & _); discriminate]).
    destruct (truthyString (Some t)) eqn:T.
    - apply truthyString_true in T. destruct T as (t' & E & N).
      injection E as <-. split.
      + intro H. injection H as <- <-. repeat split; try assumption.
        now exists r, rs.
      + intros (E & _ & r' & rs' & E' & ->). injection E as <-.
        injection E' as <- <-. reflexivity.
    - split; [discriminate|]. intros (E & N & _). injection E as ->.
      assert (T' : truthyString (Some title) = true)
        by (apply truthyString_true; now exists title).
      congruence. }
  split; [exact P|split; [|split]].
  - intro r. split; [apply A|split; [reflexivity|]].
    intro U. unfold toOverlayReaction, isOwn, userIdOf. rewrite U. cbn.
    destruct clientId; cbn; rewrite ?andb_false_r; repeat split.
  - intros C title entries H. apply P in H.
    destruct H as (_ & _ & r & rs & _ & ->).
    apply Forall_forall. intros e He. apply in_map_iff in He.
    destruct He as (x & <- & _).
    destruct (reactionAlignment (toOverlayReaction clientId x)) eqn:E;
      [reflexivity|].
    apply A in E. destruct E as (c & -> & N & _).
    assert (T : truthyString (Some c) = true)
      by (apply truthyString_true; now exists c).
    congruence.
  - intros title entries rs H L. apply P in H.
    destruct H as (_ & _ & r & rs' & L' & ->).
    rewrite L in L'. injection L' as ->.
    rewrite map_map. reflexivity.
Qed.

Lemma reactions_panel_entries_witness :
  Forall (fun e => reactionAlignment e = OverlayProps.left)
    (map (toOverlayReaction None)
       [{| type := "like"%string;
           user := Some {| id := Some "u1"%string; name := None; image := None |};
           user_id := Some "u1"%string |}]).
Proof.
  destruct (reactions_panel_entries None (Some "Reactions"%string)
              (Some [{| type := "like"%string;
                        user := Some {| id := Some "u1"%string; name := None;
                                        image := None |};
                        user_id := Some "u1"%string |}]))
    as (_ & _ & H & _).
  apply (H eq_refl "Reactions"%string). reflexivity.
Defined.

End ContentFacts.

(** * What the memo comparison guarantees *)

Module MemoFacts.

Import OverlayProps.
Import PropsFacts.

Lemma areEqual_true_iff (p n : Props) :
  areEqual p n = true <->
  visible p = visible n
  /\ alignment p = alignment n
  /\ messageReactionTitle p = messageReactionTitle n
  /\ reactionKinds p = reactionKinds n.
Proof.
  unfold areEqual, reactionKinds.
  pose proof (strictEq_true Bool.eqb (visible p) (visible n) Bool_eqb_true)
    as Hv.
  pose proof (strictEq_true Alignment_eqb (alignment p) (alignment n)
                Alignment_eqb_true) as Ha.
  pose proof (strictEq_true String.eqb (messageReactionTitle p)
                (messageReactionTitle n) String.eqb_eq) as Ht.
  destruct (strictEq Bool.eqb (visible p) (visible n)); cbn [negb];
    [|split; [discriminate|intros (E & _); apply Hv in E; discriminate]].
  destruct (strictEq Alignment_eqb (alignment p) (alignment n)); cbn [negb];
    [|split; [discriminate|intros (_ & E & _); apply Ha in E; discriminate]].
  destruct (strictEq String.eqb (messageReactionTitle p)
              (messageReactionTitle n)); cbn [negb];
    [|split; [discriminate|intros (_ & _ & E & _); apply Ht in E; discriminate]].
  assert (V : visible p = visible n) by now apply Hv.
  assert (A : alignment p = alignment n) by now apply Ha.
  assert (T : messageReactionTitle p = messageReactionTitle n) by now apply Ht.
  destruct (latestReactionsOf (message p)) as [prev|],
           (latestReactionsOf (message n)) as [next|]; cbn [option_map].
  - pose proof (latestReactions_test prev next) as L.
    destruct (Nat.eqb _ _ && every _ prev); cbn [negb].
    + split; [intros _|reflexivity].
      repeat split; try assumption. f_equal. now apply L.
    + split; [discriminate|]. intros (_ & _ & _ & E).
      inversion E as [E']. apply L in E'. discriminate.
  - cbn. split; [discriminate|]. intros (_ & _ & _ & E). discriminate.
  - cbn. split; [discriminate|]. intros (_ & _ & _ & E). discriminate.
  - cbn. split; [intros _; repeat split; assumption|reflexivity].
Qed.

(** X16 ([areEqual] as a relation): the comparison handed to [React.memo]
    is an equivalence on prop sets: every prop set equals itself, the answer
    does not depend on which of the two is the previous one, and two skipped
    renders in a row are a skipped render from the first prop set to the
    last. *)
Theorem areEqual_is_an_equivalence :
  (forall p, areEqual p p = true)
  /\ (forall p n, areEqual p n = areEqual n p)
  /\ (forall p q n,
        areEqual p q = true -> areEqual q n = true -> areEqual p n = true).
Proof.
  split; [|split].
  - intro p. apply areEqual_true_iff. repeat split.
  - intros p n.
    destruct (areEqual p n) eqn:E, (areEqual n p) eqn:E'; try reflexivity.
    + apply areEqual_true_iff in E. destruct E as (E1 & E2 & E3 & E4).
      assert (H : areEqual n p = true)
        by (apply areEqual_true_iff; repeat split; congruence).
      congruence.
    + apply areEqual_true_iff in E'. destruct E' as (E1 & E2 & E3 & E4).
      assert (H : areEqual p n = true)
        by (apply areEqual_true_iff; repeat split; congruence).
      congruence.
  - intros p q n H1 H2. apply areEqual_true_iff in H1, H2.
    destruct H1 as (A1 & A2 & A3 & A4), H2 as (B1 & B2 & B3 & B4).
    apply areEqual_true_iff. repeat split; congruence.
Qed.

Lemma areEqual_is_an_equivalence_witness :
  areEqual exampleProps exampleProps = true.
Proof.
  destruct areEqual_is_an_equivalence as (H & _). apply H.
Defined.

(** X17 (memo comparison and the reactions panel): a render that
    [areEqual] skips would not have changed which reactions the panel under
    the bubble lists. If two prop sets compare equal, then for the full
    reactions behind them (with their users) and whatever the client ids, the
    panel is absent for both or present for both, with the same title and the
    same kinds in the same order. *)
Theorem skipped_render_keeps_reaction_kinds (p n : Props)
  (prevReactions nextReactions : option (list OverlayContent.Reaction))
  (prevClient nextClient : option string) :
  latestReactionsOf (message p)
  = option_map (map OverlayContent.seenByMemo) prevReactions ->
  latestReactionsOf (message n)
  = option_map (map OverlayContent.seenByMemo) nextReactions ->
  areEqual p n = true ->
  OverlayContent.shownKinds
    (OverlayContent.overlayReactions prevClient (messageReactionTitle p)
       prevReactions)
  = OverlayContent.shownKinds
      (OverlayContent.overlayReactions nextClient (messageReactionTitle n)
         nextReactions).
Proof.
  intros Lp Ln E. apply areEqual_true_iff in E.
  destruct E as (_ & _ & T & K).
  unfold reactionKinds in K. rewrite Lp, Ln in K. rewrite T.
  assert (K' : option_map (map OverlayContent.type) prevReactions
               = option_map (map OverlayContent.type) nextReactions).
  { destruct prevReactions as [l|], nextReactions as [l'|]; cbn in *;
      try discriminate; [|reflexivity].
    injection K as K. rewrite !map_map in K. f_equal. exact K. }
  unfold OverlayContent.shownKinds, OverlayContent.overlayReactions.
  destruct (messageReactionTitle n) as [t|]; [|reflexivity].
  destruct prevReactions as [[|r rs]|], nextReactions as [[|r' rs']|];
    cbn in K'; try discriminate; try reflexivity.
  destruct (OverlayContent.truthyString (Some t)); [|reflexivity].
  cbn [option_map fst snd]. rewrite !map_map.
  injection K' as K1 K2. cbn [map OverlayContent.reactionType
                              OverlayContent.toOverlayReaction].
  rewrite K1. do 3 f_equal. exact K2.
Qed.

Lemma skipped_render_keeps_reaction_kinds_witness :
  let full :=
    Some [{| OverlayContent.type := "like"%string;
             OverlayContent.user := None;
             OverlayContent.user_id := Some "u1"%string |}] in
  OverlayContent.shownKinds
    (OverlayContent.overlayReactions (Some "u1"%string)
       (messageReactionTitle exampleProps) full)
  = OverlayContent.shownKinds
      (OverlayContent.overlayReactions None
         (messageReactionTitle exampleProps) full).
Proof.
  intro full.
  apply (skipped_render_keeps_reaction_kinds exampleProps exampleProps
           full full (Some "u1"%string) None); reflexivity.
Defined.

End MemoFacts.

(** * The groups computed by the files screen *)

Module GroupFacts.

Import ChannelFiles.
Import ChannelGroups.

Section Groups.

Variable formatMonth : string -> string.

Local Abbreviation monthOf := (ChannelGroups.monthOf formatMonth).
Local Abbreviation filesIn := (ChannelGroups.filesIn formatMonth).
Local Abbreviation addMessage := (ChannelFiles.addMessage formatMonth).
Local Abbreviation grouped := (ChannelGroups.grouped formatMonth).

Lemma hasKey_In month (o : SectionsObject) :
  hasKey month o = true <-> In month (map fst o).
Proof.
  induction o as [|[k sec] o IH]; cbn; [split; [discriminate|tauto]|].
  rewrite orb_true_iff, String.eqb_eq, IH. tauto.
Qed.

Lemma appendTo_nil month (o : SectionsObject) : appendTo month [] o = o.
Proof.
  induction o as [|[k [d t]] o IH]; cbn; [reflexivity|].
  destruct (String.eqb k month); [now rewrite app_nil_r|now rewrite IH].
Qed.

Lemma appendTo_pushTo month a l (o : SectionsObject) :
  appendTo month l (pushTo month a o) = appendTo month (a :: l) o.
Proof.
  induction o as [|[k sec] o IH]; cbn; [reflexivity|].
  destruct (String.eqb k month) eqn:E; cbn; rewrite E.
  - now rewrite <- app_assoc.
  - now rewrite IH.
Qed.

(** The pushes of one message, taken together. *)
Lemma pushes_appendTo month atts : forall o : SectionsObject,
  fold_left (fun o a => if negb (isFile a) then o else pushTo month a o) atts o
  = appendTo month (filter isFile atts) o.
Proof.
  induction atts as [|a atts IH]; intro o; cbn [fold_left filter].
  - symmetry. apply appendTo_nil.
  - destruct (isFile a); cbn [negb]; rewrite IH; [apply appendTo_pushTo|].
    reflexivity.
Qed.

Lemma addMessage_appendTo (o : SectionsObject) m :
  addMessage o m
  = appendTo (monthOf m) (filesOf m)
      (if negb (hasKey (monthOf m) o)
       then o ++ [(monthOf m, {| data := []; sectionTitle := monthOf m |})]
       else o).
Proof.
  unfold ChannelFiles.addMessage, ChannelGroups.monthOf, filesOf.
  destruct (attachments m) as [atts|].
  - apply pushes_appendTo.
  - symmetry. apply appendTo_nil.
Qed.

Lemma appendTo_keys month l (o : SectionsObject) :
  map fst (appendTo month l o) = map fst o.
Proof.
  induction o as [|[k sec] o IH]; cbn; [reflexivity|].
  destruct (String.eqb k month); cbn; [reflexivity|now rewrite IH].
Qed.

Lemma appendTo_In month l (o : SectionsObject) k sec :
  NoDup (map fst o) ->
  In (k, sec) (appendTo month l o) ->
  (k <> month /\ In (k, sec) o)
  \/ (k = month
      /\ exists sec0, In (k, sec0) o
                      /\ sec = {| data := data sec0 ++ l;
                                  sectionTitle := sectionTitle sec0 |}).
Proof.
  induction o as [|[k0 sec0] o IH]; cbn [appendTo map]; intros N H;
    [destruct H|].
  inversion N as [|? ? N1 N2]; subst.
  destruct (String.eqb k0 month) eqn:E.
  - apply String.eqb_eq in E. subst k0. destruct H as [H|H].
    + injection H as <- <-. right. split; [reflexivity|].
      exists sec0. split; [now left|reflexivity].
    + left. split; [|now right].
      intros ->. apply N1. apply (in_map fst) in H. exact H.
  - apply String.eqb_neq in E. destruct H as [H|H].
    + injection H as <- <-. left. split; [assumption|now left].
    + destruct (IH N2 H) as [[D I]|[D (s0 & I & S)]].
      * left. split; [assumption|now right].
      * right. split; [assumption|]. exists s0. split; [now right|assumption].
Qed.

Lemma filesIn_snoc month pre m :
  filesIn month (pre ++ [m])
  = filesIn month pre
    ++ (if String.eqb (monthOf m) month then filesOf m else []).
Proof.
  unfold ChannelGroups.filesIn. rewrite filter_app, flat_map_app. cbn.
  destruct (String.eqb (ChannelGroups.monthOf formatMonth m) month); cbn;
    now rewrite ?app_nil_r.
Qed.

Lemma filesIn_absent month ms :
  (forall m, In m ms -> monthOf m <> month) -> filesIn month ms = [].
Proof.
  intro H. unfold ChannelGroups.filesIn.
  induction ms as [|m ms IH]; [reflexivity|]. cbn.
  destruct (String.eqb (ChannelGroups.monthOf formatMonth m) month) eqn:E.
  - apply String.eqb_eq in E. exfalso. apply (H m); [now left|exact E].
  - apply IH. intros m' Hm. apply H. now right.
Qed.

Lemma grouped_addMessage pre o m :
  grouped pre o -> grouped (pre ++ [m]) (addMessage o m).
Proof.
  intros (N & D & K). rewrite addMessage_appendTo.
  set (mo := monthOf m).
  set (o1 := if negb (hasKey mo o)
             then o ++ [(mo, {| data := []; sectionTitle := mo |})] else o).
  assert (N1 : NoDup (map fst o1)).
  { unfold o1. destruct (hasKey mo o) eqn:H; cbn [negb]; [exact N|].
    rewrite map_app. cbn. apply NoDup_app; [exact N|repeat constructor; tauto|].
    intros k Hk [<-|[]]. apply hasKey_In in Hk. congruence. }
  assert (D1 : forall k sec, In (k, sec) o1 ->
                 sectionTitle sec = k /\ data sec = filesIn k pre).
  { unfold o1. destruct (hasKey mo o) eqn:H; cbn [negb]; [exact D|].
    intros k sec Hin. apply in_app_or in Hin.
    destruct Hin as [Hin|[Hin|[]]]; [now apply D|].
    injection Hin as <- <-. split; [reflexivity|]. cbn [data].
    symmetry. apply filesIn_absent. intros m' Hm' E.
    assert (I : In mo (map fst o)) by (apply K; now exists m').
    apply hasKey_In in I. congruence. }
  assert (K1 : forall k, In k (map fst o1) <-> k = mo \/ In k (map fst o)).
  { intro k. unfold o1. destruct (hasKey mo o) eqn:H; cbn [negb].
    - apply hasKey_In in H. split; [tauto|]. intros [->|I]; assumption.
    - rewrite map_app, in_app_iff. cbn. intuition congruence. }
  repeat split.
  - now rewrite appendTo_keys.
  - destruct (appendTo_In mo (filesOf m) o1 k sec N1 H)
      as [[Ne I]|[-> (s0 & I & ->)]].
    + now apply D1.
    + cbn [sectionTitle]. now apply D1.
  - destruct (appendTo_In mo (filesOf m) o1 k sec N1 H)
      as [[Ne I]|[-> (s0 & I & ->)]].
    + rewrite filesIn_snoc.
      assert (E : String.eqb (monthOf m) k = false)
        by (apply String.eqb_neq; intro E; apply Ne; now rewrite <- E).
      rewrite E, app_nil_r. now apply D1.
    + rewrite filesIn_snoc. fold mo. rewrite String.eqb_refl. cbn [data].
      f_equal. now apply D1.
  - rewrite appendTo_keys. intro I. apply K1 in I. destruct I as [->|I].
    + exists m. split; [apply in_or_app; right; now left|reflexivity].
    + apply K in I. destruct I as (m' & Hm' & E).
      exists m'. split; [apply in_or_app; now left|exact E].
  - rewrite appendTo_keys. intros (m' & Hm' & E). apply K1.
    apply in_app_or in Hm'. destruct Hm' as [Hm'|[<-|[]]].
    + right. apply K. now exists m'.
    + left. now rewrite <- E.
Qed.

Lemma grouped_fold ms : forall pre o,
  grouped pre o -> grouped (pre ++ ms) (fold_left addMessage ms o).
Proof.
  induction ms as [|m ms IH]; intros pre o G; cbn [fold_left].
  - now rewrite app_nil_r.
  - replace (pre ++ m :: ms) with ((pre ++ [m]) ++ ms)
      by (rewrite <- app_assoc; reflexivity).
    apply IH. now apply grouped_addMessage.
Qed.

Lemma grouped_effect ms : grouped ms (fold_left addMessage ms []).
Proof.
  apply (grouped_fold ms [] []). repeat split.
  - constructor.
  - destruct H.
  - destruct H.
  - intros [].
  - intros (m & [] & _).
Qed.

Lemma titles_are_keys ms (o : SectionsObject) :
  grouped ms o -> map sectionTitle (map snd o) = map fst o.
Proof.
  intros (_ & D & _). rewrite map_map. apply map_ext_in.
  intros [k sec] H. cbn. now apply D.
Qed.

End Groups.

(** X18 (effect of the files screen, the sections): the effect makes one
    section per month met among the messages and no other: the titles of the
    sections are pairwise distinct, and a month is the title of a section
    exactly when it is the month of one of the messages, whether or not that
    message has any file attachment (a month without files gets a section with
    no data); no messages, no sections. *)
Theorem one_section_per_month (formatMonth : string -> string)
  (messages : list MessageResponse) :
  let secs := sectionsEffect formatMonth messages in
  NoDup (map sectionTitle secs)
  /\ (forall month,
        In month (map sectionTitle secs)
        <-> exists m, In m messages /\ monthOf formatMonth m = month)
  /\ (messages = [] <-> secs = []).
Proof.
  cbv zeta. unfold sectionsEffect.
  pose proof (grouped_effect formatMonth messages) as G.
  rewrite (titles_are_keys formatMonth messages _ G).
  destruct G as (N & D & K).
  split; [exact N|split; [exact K|]].
  split; [now intros ->|].
  intro E. destruct messages as [|m ms]; [reflexivity|].
  assert (I : In (monthOf formatMonth m)
                (map fst (fold_left (addMessage formatMonth) (m :: ms) [])))
    by (apply K; exists m; split; [now left|reflexivity]).
  apply (f_equal (@List.length _)) in E. rewrite length_map in E.
  rewrite <- (length_map fst) in E.
  destruct (map fst (fold_left (addMessage formatMonth) (m :: ms) []));
    [destruct I|discriminate].
Qed.

(** X19 (effect of the files screen, the data): each section holds exactly
    the file attachments of the messages of its month, in the order of the
    messages and, within a message, of its attachments; attachments of another
    type and messages without attachments add nothing. So every file
    attachment of every message is in the section of its month, and everything
    in a section is a file. *)
Theorem sections_hold_their_months_files (formatMonth : string -> string)
  (messages : list MessageResponse) :
  let secs := sectionsEffect formatMonth messages in
  (forall sec, In sec secs ->
     data sec = filesIn formatMonth (sectionTitle sec) messages
     /\ Forall (fun a => type a = Some "file"%string) (data sec))
  /\ (forall m a,
        In m messages -> In a (filesOf m) ->
        exists sec, In sec secs
                    /\ sectionTitle sec = monthOf formatMonth m
                    /\ In a (data sec)).
Proof.
  cbv zeta. unfold sectionsEffect.
  destruct (grouped_effect formatMonth messages) as (N & D & K).
  assert (S : forall sec,
             In sec (map snd (fold_left (addMessage formatMonth) messages []))
             -> data sec = filesIn formatMonth (sectionTitle sec) messages).
  { intros sec H. apply in_map_iff in H. destruct H as ([k s] & <- & H).
    cbn [snd]. destruct (D k s H) as [-> E]. exact E. }
  split.
  - intros sec H. split; [now apply S|].
    rewrite (S sec H). unfold filesIn. apply Forall_forall.
    intros a Ha. apply in_flat_map in Ha. destruct Ha as (m & _ & Ha).
    unfold filesOf in Ha. destruct (attachments m) as [atts|]; [|destruct Ha].
    apply filter_In in Ha. destruct Ha as [_ F]. unfold isFile in F.
    destruct (type a) as [t|]; [|discriminate].
    apply String.eqb_eq in F. now subst.
  - intros m a Hm Ha.
    assert (I : In (monthOf formatMonth m)
                  (map fst (fold_left (addMessage formatMonth) messages [])))
      by (apply K; now exists m).
    apply in_map_iff in I. destruct I as ([k sec] & E & I). cbn [fst] in E.
    subst k. exists sec. destruct (D _ _ I) as [T E].
    split; [apply in_map_iff; now exists (monthOf formatMonth m, sec)|].
    split; [exact T|]. rewrite E. unfold filesIn.
    apply in_flat_map. exists m. split; [|exact Ha].
    apply filter_In. split; [exact Hm|apply String.eqb_refl].
Qed.

Lemma sections_hold_their_months_files_witness :
  let a := {| type := Some "file"%string; id := None; title := None;
              asset_url := None |} in
  let m := {| created_at := "2021-01-05"%string; attachments := Some [a] |} in
  exists sec, In sec (sectionsEffect (fun d => d) [m])
              /\ sectionTitle sec = monthOf (fun d => d) m
              /\ In a (data sec).
Proof.
  intros a m.
  apply (sections_hold_their_months_files (fun d => d) [m]);
    [now left|now left].
Defined.

Lemma total_appendTo month l (o : SectionsObject) :
  In month (map fst o) ->
  List.length (flat_map (fun ke => data (snd ke)) (appendTo month l o))
  = (List.length (flat_map (fun ke => data (snd ke)) o) + List.length l)%nat.
Proof.
  induction o as [|[k sec] o IH]; cbn [map appendTo]; intro H; [destruct H|].
  destruct (String.eqb k month) eqn:E; cbn [flat_map snd data].
  - rewrite !length_app. lia.
  - apply String.eqb_neq in E. destruct H as [H|H]; [contradiction|].
    rewrite !length_app, (IH H). lia.
Qed.

Lemma total_addMessage formatMonth (o : SectionsObject) m :
  List.length (flat_map (fun ke => data (snd ke)) (addMessage formatMonth o m))
  = (List.length (flat_map (fun ke => data (snd ke)) o)
     + List.length (filesOf m))%nat.
Proof.
  rewrite addMessage_appendTo.
  destruct (hasKey (monthOf formatMonth m) o) eqn:H; cbn [negb].
  - apply total_appendTo. now apply hasKey_In.
  - rewrite total_appendTo
      by (rewrite map_app; apply in_or_app; right; now left).
    rewrite flat_map_app, length_app. cbn. lia.
Qed.

(** X20 (effect of the files screen, nothing lost): the sections together
    hold as many items as the messages have file attachments: the effect
    neither drops a file attachment nor lists one twice, however the messages
    are spread over the months. *)
Theorem sections_count_every_file (formatMonth : string -> string)
  (messages : list MessageResponse) :
  List.length (flat_map data (sectionsEffect formatMonth messages))
  = List.length (flat_map filesOf messages).
Proof.
  unfold sectionsEffect.
  assert (F : forall o : SectionsObject,
             flat_map data (map snd o) = flat_map (fun ke => data (snd ke)) o).
  { induction o as [|ke o IH]; cbn; [reflexivity|]. now rewrite IH. }
  rewrite F.
  assert (G : forall ms (o : SectionsObject),
             List.length
               (flat_map (fun ke => data (snd ke))
                  (fold_left (addMessage formatMonth) ms o))
             = (List.length (flat_map (fun ke => data (snd ke)) o)
                + List.length (flat_map filesOf ms))%nat).
  { induction ms as [|m ms IH]; intro o; cbn [fold_left flat_map];
      [cbn; lia|].
    rewrite IH, total_addMessage, length_app. lia. }
  rewrite G. reflexivity.
Qed.

End GroupFacts.
